(** * Verification of the scraping helpers and of the grocery shop

    Shallow embedding of [src/myapp1.py] (the part headed
    "web scrapping.py": [WebScraper], [AdvancedScraper],
    [ScrapingPipeline]) and of [src/myapp.py] ([Product], [GroceryShop]).

    Python objects are embedded as follows.
    - [str] is [string]; code points are restricted to those below 256.
    - [dict] with string keys is [gmap string _]; a dict that is iterated
      ([selectors.items()]) is given by its list of items.
    - [int] is [Z].
    - Calls that leave the program (the HTTP session, the browser driver,
      the clock, the extractor handed to the pipeline) are oracles over an
      abstract [World]; what the program itself prints, sleeps or requests
      is appended to a log, in program order.
    - [try]/[except] is a small state-and-exception monad. *)

From Stdlib Require Import ZArith Ascii String.
From stdpp Require Import gmap strings list fin_maps.

Set Warnings "-register-all".
Local Open Scope Z_scope.

(** ** Python exceptions and outcomes *)

Module Py.

(** The exception classes the two programs raise or catch.  Every one of
    them derives from [Exception]; asynchronous [BaseException]s
    (KeyboardInterrupt, SystemExit) are outside the model. *)
Inductive exn : Type :=
| RequestException (what : string)   (* requests: ConnectionError, Timeout, ... *)
| HTTPError (status : Z)             (* requests: raised by raise_for_status *)
| SelectorSyntaxError (sel : string) (* soupsieve, from select *)
| ParserError (what : string)
| ValueError (msg : string)
| TypeError (msg : string)
| AttributeError (msg : string)
| KeyError (key : string)
| OverflowError (msg : string)
| OSError (what : string)
| JSONDecodeError
| TimeoutException                   (* selenium: WebDriverWait.until *)
| WebDriverException (what : string)
| OtherError (what : string).

(** [isinstance(e, requests.RequestException)]: [HTTPError] is a subclass. *)
Definition is_RequestException (e : exn) : bool :=
  match e with
  | RequestException _ | HTTPError _ => true
  | _ => false
  end.

Inductive outcome (A : Type) : Type :=
| Ok (a : A)
| Raised (e : exn).
Arguments Ok {A} a.
Arguments Raised {A} e.

End Py.
Import Py.

(** ** Text: [str.strip] *)

Module Text.

(** [str.isspace] on the code points below 256. *)
Definition isspace (c : ascii) : bool :=
  let n := nat_of_ascii c in
  ((9 <=? n)%nat && (n <=? 13)%nat) || ((28 <=? n)%nat && (n <=? 32)%nat)
  || (n =? 133)%nat || (n =? 160)%nat.

Fixpoint lstrip_chars (l : list ascii) : list ascii :=
  match l with
  | [] => []
  | c :: l' => if isspace c then lstrip_chars l' else l
  end.

Definition strip_chars (l : list ascii) : list ascii :=
  rev (lstrip_chars (rev (lstrip_chars l))).

(** [s.strip()] *)
Definition strip (s : string) : string :=
  string_of_list_ascii (strip_chars (list_ascii_of_string s)).

(** [''.join(parts)] *)
Definition join (parts : list string) : string :=
  fold_right String.append EmptyString parts.

(** A string with no white space at either end. *)
Definition trimmed (s : string) : Prop := strip s = s.

(** The same on the characters: the first one, if any, is not white
    space, and neither is the last. *)
Definition no_lead (l : list ascii) : Prop :=
  match l with
  | [] => True
  | c :: _ => isspace c = false
  end.

Definition clean (l : list ascii) : Prop := no_lead l ∧ no_lead (rev l).

End Text.

(** ** The parsed document (BeautifulSoup with 'html.parser') *)

Module Html.

(** A document node: a text node ([NavigableString]) or a tag with its
    attribute dict (as its items) and its children in document order.
    Comments and the contents of script and style elements, which
    [get_text] passes over, are not part of the model. *)
Inductive node : Type :=
| Text (s : string)
| Tag (name : string) (attrs : list (string * string)) (children : list node).

(** [tag.descendants]: every node below [n], in document order. *)
Fixpoint descendants (n : node) : list node :=
  match n with
  | Text _ => []
  | Tag _ _ cs =>
      (fix below (cs : list node) : list node :=
         match cs with
         | [] => []
         | c :: cs' => c :: descendants c ++ below cs'
         end) cs
  end.

Definition tag_named (names : list string) (n : node) : bool :=
  match n with
  | Text _ => false
  | Tag name _ _ => bool_decide (name ∈ names)
  end.

(** [tag.find_all(names)]: the descendant tags whose name is one of [names]. *)
Definition find_all (names : list string) (n : node) : list node :=
  List.filter (tag_named names) (descendants n).

(** [tag.find(name)]: the first of them, or [None]. *)
Definition find (name : string) (n : node) : option node :=
  head (find_all [name] n).

(** The text nodes below (or at) [n], in document order. *)
Fixpoint strings (n : node) : list string :=
  match n with
  | Text s => [s]
  | Tag _ _ cs =>
      (fix below (cs : list node) : list string :=
         match cs with
         | [] => []
         | c :: cs' => strings c ++ below cs'
         end) cs
  end.

Definition nonempty (s : string) : bool :=
  match s with EmptyString => false | _ => true end.

(** [tag.get_text(strip=True)]: every text node is stripped, the empty
    ones are left out and the rest is joined without a separator. *)
Definition get_text_strip (n : node) : string :=
  Text.join (List.filter nonempty (map Text.strip (strings n))).

(** The element's "trimmed text content" in the words of the
    specification: the text of the element, [tag.get_text()], with the
    white space taken off its two ends. *)
Definition trimmed_text_content (n : node) : string :=
  Text.strip (Text.join (strings n)).

Fixpoint assoc (k : string) (l : list (string * string)) : option string :=
  match l with
  | [] => None
  | (k', v) :: l' => if bool_decide (k = k') then Some v else assoc k l'
  end.

(** [tag.get(key)] *)
Definition get (key : string) (n : node) : option string :=
  match n with
  | Text _ => None
  | Tag _ attrs _ => assoc key attrs
  end.

(** [tag.get(key, default)] *)
Definition get_default (key default : string) (n : node) : string :=
  from_option id default (get key n).

End Html.

(** ** [urllib.parse.urljoin]

    The standard library's function (it is not part of the repository),
    written after its source in CPython 3.11 ([Lib/urllib/parse.py]) for
    [str] arguments made of printable ASCII characters other than the
    blank and the square brackets.  On other arguments the library takes
    blanks and control characters off the front of a URL, removes tabs
    and newlines, and raises [ValueError] on a host with a bracket that
    is not closed or a character that normalises to a delimiter; what it
    does there is left to an oracle, [urljoin_other]. *)

Module Urllib.

Definition ascii_eqb (a b : ascii) : bool := bool_decide (a = b).

(** [c in s] *)
Fixpoint contains (c : ascii) (s : string) : bool :=
  match s with
  | EmptyString => false
  | String a s' => ascii_eqb a c || contains c s'
  end.

(** [s.split(c)] *)
Fixpoint split (c : ascii) (s : string) : list string :=
  match s with
  | EmptyString => [EmptyString]
  | String a s' =>
      if ascii_eqb a c then EmptyString :: split c s'
      else match split c s' with
           | h :: t => String a h :: t
           | [] => [String a EmptyString]
           end
  end.

(** [s.split(c, 1)] as a pair; the second part is empty when [c] does
    not occur. *)
Fixpoint split1 (c : ascii) (s : string) : string * string :=
  match s with
  | EmptyString => (EmptyString, EmptyString)
  | String a s' =>
      if ascii_eqb a c then (EmptyString, s')
      else let '(h, t) := split1 c s' in (String a h, t)
  end.

(** [sep.join(parts)] *)
Fixpoint join (sep : string) (parts : list string) : string :=
  match parts with
  | [] => EmptyString
  | [p] => p
  | p :: rest => p +:+ sep +:+ join sep rest
  end.

Definition is_alpha (c : ascii) : bool :=
  let n := nat_of_ascii c in
  ((65 <=? n)%nat && (n <=? 90)%nat) || ((97 <=? n)%nat && (n <=? 122)%nat).

Definition is_digit (c : ascii) : bool :=
  let n := nat_of_ascii c in (48 <=? n)%nat && (n <=? 57)%nat.

(** [c in scheme_chars] *)
Definition is_scheme_char (c : ascii) : bool :=
  is_alpha c || is_digit c || ascii_eqb c "+" || ascii_eqb c "-" || ascii_eqb c ".".

Definition lower_char (c : ascii) : ascii :=
  let n := nat_of_ascii c in
  if (65 <=? n)%nat && (n <=? 90)%nat then ascii_of_nat (n + 32) else c.

Fixpoint lower (s : string) : string :=
  match s with
  | EmptyString => EmptyString
  | String a s' => String (lower_char a) (lower s')
  end.

Fixpoint all_chars (p : ascii → bool) (s : string) : bool :=
  match s with
  | EmptyString => true
  | String a s' => p a && all_chars p s'
  end.

Definition starts_with_alpha (s : string) : bool :=
  match s with
  | String a _ => is_alpha a
  | EmptyString => false
  end.

(** The scheme test of [urlsplit]: the text before the first colon, when
    it is not empty, starts with a letter and holds scheme characters
    only. *)
Definition split_scheme (default : string) (url : string) : string * string :=
  if contains ":" url then
    let '(head, rest) := split1 ":" url in
    if Html.nonempty head && starts_with_alpha head && all_chars is_scheme_char head
    then (lower head, rest)
    else (default, url)
  else (default, url).

(** [_splitnetloc(url, 2)] on a [url] whose two slashes are already
    taken off: up to the first of '/', '?', '#'. *)
Fixpoint splitnetloc (url : string) : string * string :=
  match url with
  | EmptyString => (EmptyString, EmptyString)
  | String a s' =>
      if ascii_eqb a "/" || ascii_eqb a "?" || ascii_eqb a "#"
      then (EmptyString, url)
      else let '(h, t) := splitnetloc s' in (String a h, t)
  end.

Record SplitResult : Type :=
  { scheme : string; netloc : string; path : string; params : string;
    query : string; fragment : string }.

Definition uses_relative : list string :=
  [EmptyString; "ftp"; "http"; "gopher"; "nntp"; "imap"; "wais"; "file"; "https";
   "shttp"; "mms"; "prospero"; "rtsp"; "rtspu"; "sftp"; "svn"; "svn+ssh";
   "ws"; "wss"].

Definition uses_netloc : list string :=
  [EmptyString; "ftp"; "http"; "gopher"; "nntp"; "telnet"; "imap"; "wais"; "file";
   "mms"; "https"; "shttp"; "snews"; "prospero"; "rtsp"; "rtspu"; "rsync";
   "svn"; "svn+ssh"; "sftp"; "nfs"; "git"; "git+ssh"; "ws"; "wss"].

Definition uses_params : list string :=
  [EmptyString; "ftp"; "hdl"; "prospero"; "http"; "imap"; "https"; "shttp"; "rtsp";
   "rtspu"; "sip"; "sips"; "mms"; "sftp"; "tel"].

Definition mem (s : string) (l : list string) : bool := bool_decide (s ∈ l).

(** [_splitparams]: the parameters follow the first ';' of the last path
    segment. *)
Definition splitparams (url : string) : string * string :=
  let segments := split "/" url in
  let last_segment := List.last segments EmptyString in
  if contains ";" last_segment then
    let '(h, t) := split1 ";" last_segment in
    (join "/" (removelast segments ++ [h]), t)
  else (url, EmptyString).

(** [urlparse(url, scheme)] *)
Definition urlparse (url default_scheme : string) : SplitResult :=
  let '(sch, url1) := split_scheme default_scheme url in
  let '(net, url2) :=
    match url1 with
    | String "/" (String "/" rest) => splitnetloc rest
    | _ => (EmptyString, url1)
    end in
  let '(url3, frag) := split1 "#" url2 in
  let '(url4, qry) := split1 "?" url3 in
  let '(pth, prm) :=
    if mem sch uses_params && contains ";" url4 then splitparams url4
    else (url4, EmptyString) in
  {| scheme := sch; netloc := net; path := pth; params := prm;
     query := qry; fragment := frag |}.

Definition starts_with_slash (s : string) : bool :=
  match s with String "/" _ => true | _ => false end.

Definition starts_with_two_slashes (s : string) : bool :=
  match s with String "/" (String "/" _) => true | _ => false end.

(** [urlunparse] *)
Definition urlunparse (r : SplitResult) : string :=
  let url0 := if Html.nonempty (params r) then path r +:+ ";" +:+ params r else path r in
  let url1 :=
    if Html.nonempty (netloc r)
       || (Html.nonempty (scheme r) && mem (scheme r) uses_netloc
           && negb (starts_with_two_slashes url0))
    then "//" +:+ netloc r
         +:+ (if Html.nonempty url0 && negb (starts_with_slash url0)
              then "/" +:+ url0 else url0)
    else url0 in
  let url2 := if Html.nonempty (scheme r) then scheme r +:+ ":" +:+ url1 else url1 in
  let url3 := if Html.nonempty (query r) then url2 +:+ "?" +:+ query r else url2 in
  if Html.nonempty (fragment r) then url3 +:+ "#" +:+ fragment r else url3.

(** [segments[1:-1] = filter(None, segments[1:-1])] *)
Definition drop_inner_empty (segments : list string) : list string :=
  match segments with
  | first :: rest =>
      match rest with
      | [] => segments
      | _ => first :: List.filter Html.nonempty (removelast rest)
               ++ [List.last rest EmptyString]
      end
  | [] => []
  end.

(** The [for seg in segments] loop over [resolved_path]. *)
Fixpoint resolve (segments resolved_path : list string) : list string :=
  match segments with
  | [] => resolved_path
  | seg :: rest =>
      if bool_decide (seg = "..") then resolve rest (removelast resolved_path)
      else if bool_decide (seg = ".") then resolve rest resolved_path
      else resolve rest (resolved_path ++ [seg])
  end.

(** [urljoin(base, url)] on arguments of the class above. *)
Definition urljoin_plain (base url : string) : string :=
  if negb (Html.nonempty base) then url
  else if negb (Html.nonempty url) then base
  else
    let b := urlparse base EmptyString in
    let u := urlparse url (scheme b) in
    if negb (bool_decide (scheme u = scheme b)) || negb (mem (scheme u) uses_relative)
    then url
    else if mem (scheme u) uses_netloc && Html.nonempty (netloc u)
    then urlunparse u
    else
      let net := if mem (scheme u) uses_netloc then netloc b else netloc u in
      if negb (Html.nonempty (path u)) && negb (Html.nonempty (params u))
      then urlunparse {| scheme := scheme u; netloc := net; path := path b;
                         params := params b;
                         query := if Html.nonempty (query u) then query u else query b;
                         fragment := fragment u |}
      else
        let base_parts0 := split "/" (path b) in
        let base_parts :=
          if Html.nonempty (List.last base_parts0 EmptyString)
          then removelast base_parts0 else base_parts0 in
        let segments :=
          if starts_with_slash (path u) then split "/" (path u)
          else drop_inner_empty (base_parts ++ split "/" (path u)) in
        let resolved0 := resolve segments [] in
        let last_segment := List.last segments EmptyString in
        let resolved :=
          if bool_decide (last_segment = ".") || bool_decide (last_segment = "..")
          then resolved0 ++ [EmptyString] else resolved0 in
        let joined := join "/" resolved in
        urlunparse {| scheme := scheme u; netloc := net;
                      path := if Html.nonempty joined then joined else "/";
                      params := params u; query := query u;
                      fragment := fragment u |}.

(** The characters of the class: printable ASCII but the blank, '[' and
    ']'. *)
Definition plain_char (c : ascii) : bool :=
  let n := nat_of_ascii c in
  (33 <=? n)%nat && (n <=? 126)%nat && negb ((n =? 91)%nat || (n =? 93)%nat).

Definition plain (s : string) : bool := all_chars plain_char s.

(** [urljoin(base, url)]: the two tests on empty arguments come before
    any parsing; [urljoin_other] answers for the arguments outside the
    class, where the library may raise. *)
Definition urljoin (urljoin_other : string → string → outcome string)
    (base url : string) : outcome string :=
  if negb (Html.nonempty base) then Ok url
  else if negb (Html.nonempty url) then Ok base
  else if plain base && plain url then Ok (urljoin_plain base url)
  else urljoin_other base url.

(** A name: a path segment or a host made of letters, digits, '-', '_'
    and '.', which is not empty and not a dot segment. *)
Definition name_char (c : ascii) : bool :=
  is_alpha c || is_digit c || ascii_eqb c "-" || ascii_eqb c "_" || ascii_eqb c ".".

Definition is_name (s : string) : bool :=
  Html.nonempty s && all_chars name_char s
  && negb (bool_decide (s = ".")) && negb (bool_decide (s = "..")).

(** The directories [d1; ...; dn] as the path "d1/.../dn/", and [k] steps
    up, "../" [k] times. *)
Fixpoint directories (dirs : list string) : string :=
  match dirs with
  | [] => EmptyString
  | d :: rest => d +:+ "/" +:+ directories rest
  end.

Fixpoint ups (k : nat) : string :=
  match k with
  | O => EmptyString
  | S k' => "../" +:+ ups k'
  end.

(** The examples of RFC 3986, section 5.4: a reference and the target it
    has against the base "http://a/b/c/d;p?q", for the normal examples of
    5.4.1 and the abnormal ones of 5.4.2 (all but "http:g", for which the
    RFC allows two answers). *)
Definition rfc3986_base : string := "http://a/b/c/d;p?q".

Definition rfc3986_examples : list (string * string) :=
  [("g:h", "g:h"); ("g", "http://a/b/c/g"); ("./g", "http://a/b/c/g");
   ("g/", "http://a/b/c/g/"); ("/g", "http://a/g"); ("//g", "http://g");
   ("?y", "http://a/b/c/d;p?y"); ("g?y", "http://a/b/c/g?y");
   ("#s", "http://a/b/c/d;p?q#s"); ("g#s", "http://a/b/c/g#s");
   ("g?y#s", "http://a/b/c/g?y#s"); (";x", "http://a/b/c/;x");
   ("g;x", "http://a/b/c/g;x"); ("g;x?y#s", "http://a/b/c/g;x?y#s");
   (".", "http://a/b/c/"); ("./", "http://a/b/c/"); ("..", "http://a/b/");
   ("../", "http://a/b/"); ("../g", "http://a/b/g"); ("../..", "http://a/");
   ("../../", "http://a/"); ("../../g", "http://a/g");
   ("../../../g", "http://a/g"); ("../../../../g", "http://a/g");
   ("/./g", "http://a/g"); ("/../g", "http://a/g"); ("g.", "http://a/b/c/g.");
   (".g", "http://a/b/c/.g"); ("g..", "http://a/b/c/g..");
   ("..g", "http://a/b/c/..g"); ("./../g", "http://a/b/g");
   ("./g/.", "http://a/b/c/g/"); ("g/./h", "http://a/b/c/g/h");
   ("g/../h", "http://a/b/c/h"); ("g;x=1/./y", "http://a/b/c/g;x=1/y");
   ("g;x=1/../y", "http://a/b/c/y"); ("g?y/./x", "http://a/b/c/g?y/./x");
   ("g?y/../x", "http://a/b/c/g?y/../x"); ("g#s/./x", "http://a/b/c/g#s/./x");
   ("g#s/../x", "http://a/b/c/g#s/../x")].

End Urllib.

(** ** The scraper ([src/myapp1.py]) *)

Module Scraper.
Import Html.

(** A [requests.Response]: what [get_page] and its callers read of it. *)
Record response : Type := { status_code : Z; content : string }.

(** A field of a scraped record: [None], one [str], or a [list] of [str]. *)
Inductive value : Type :=
| VNone
| VStr (s : string)
| VList (l : list string).

(** A [pandas.DataFrame] built from rows of strings: its column labels
    and its rows, a missing cell being [None]. *)
Record DataFrame : Type :=
  { columns : list string; frame_rows : list (list (option string)) }.

Definition widest (rows : list (list string)) : nat :=
  foldr (λ row w, Nat.max (length row) w) 0%nat rows.

Definition pad_row (width : nat) (row : list string) : list (option string) :=
  map Some row ++ replicate (width - length row) None.

(** [pd.DataFrame(rows, columns=headers)] of pandas (not part of the
    repository) on a non-empty list of lists: shorter rows are filled up
    with [None] to the widest one, and a number of column labels other
    than that width is a [ValueError]. *)
Definition pd_DataFrame (rows : list (list string)) (headers : list string)
  : outcome DataFrame :=
  if (widest rows =? length headers)%nat
  then Ok {| columns := headers; frame_rows := map (pad_row (widest rows)) rows |}
  else Raised (ValueError "columns passed do not match the passed data").

(** What one of the extractors of this file returns: [None], a record, the
    list of link records of [scrape_links], or the frame of
    [scrape_table]. *)
Inductive scraped : Type :=
| SNone
| SDict (d : gmap string value)
| SLinks (l : list (gmap string string))
| STable (df : DataFrame).

(** An element of the [data] handed to a serializer: a dict, or any other
    row. *)
Inductive item : Type :=
| IDict (d : gmap string value)
| IRow (r : list string).

(** What a serializer writes to a file, by the call that writes it. *)
Inductive file_content : Type :=
| CsvOfFrame (data : list item)  (* pd.DataFrame(data).to_csv(filepath, index=False) *)
| CsvOfRows (data : list item)   (* csv.writer(f).writerow(row) for row in data *)
| JsonOf (data : list item).     (* json.dump(data, f, indent=2, ensure_ascii=False) *)

(** What the program prints, by format string. *)
Inductive message : Type :=
| MsgAttemptFailed (n : Z) (url : string) (e : exn) (* "Attempt {attempt + 1} failed for {url}: {e}" *)
| MsgErrorScraping (url : string) (e : exn)         (* "Error scraping {url}: {e}" *)
| MsgNoTable                                        (* "No table found with the specified selector" *)
| MsgNoTableData                                    (* "No data found in table" *)
| MsgErrorTable (url : string) (e : exn)            (* "Error scraping table from {url}: {e}" *)
| MsgErrorLinks (url : string) (e : exn)            (* "Error scraping links from {url}: {e}" *)
| MsgErrorField (field : string) (e : exn)          (* "Error getting {field}: {e}" *)
| MsgErrorDynamic (url : string) (e : exn)          (* "Error scraping dynamic content from {url}: {e}" *)
| MsgScraping (i n : Z) (url : string)              (* "Scraping {i}/{len(urls)}: {url}" *)
| MsgNoData                                         (* "No data to save" *)
| MsgSaved (path : string).                         (* "Data saved to {filepath}" *)

(** What a run does that can be observed from outside, in program order. *)
Inductive event : Type :=
| EvDelay                    (* time.sleep of the random politeness delay *)
| EvBackoff (secs : Z)       (* time.sleep(2 ** attempt) *)
| EvGet (url : string)       (* self.session.get(url, timeout=10) *)
| EvPrint (m : message)
| EvScraped (url : string) (r : outcome scraped)  (* scraper_func(url, **kwargs) and how it came back *)
| EvNow (t : string)         (* datetime.now().isoformat() *)
| EvWrite (path : string) (c : file_content).     (* the file is opened for writing and written *)

(** The requests of a log and its back-off sleeps, in order. *)
Definition requests (tr : list event) : list string :=
  omap (λ ev, match ev with EvGet url => Some url | _ => None end) tr.

Definition backoffs (tr : list event) : list Z :=
  omap (λ ev, match ev with EvBackoff secs => Some secs | _ => None end) tr.

(** [400 <= status < 600], the statuses [raise_for_status] raises on. *)
Definition is_error_status (status : Z) : bool :=
  (400 <=? status) && (status <? 600).

Section WithWorld.

Context {World : Type}.

Record state : Type := { world : World; log : list event }.

(** Computations that read and change the state and may raise. *)
Definition M (A : Type) : Type := state → outcome A * state.

Definition ret {A} (a : A) : M A := λ s, (Ok a, s).

Definition raise {A} (e : exn) : M A := λ s, (Raised e, s).

Definition bind {A B} (m : M A) (k : A → M B) : M B :=
  λ s, match m s with
       | (Ok a, s') => k a s'
       | (Raised e, s') => (Raised e, s')
       end.

(** [try: m  except <classes> as e: h e], [catches] deciding the classes. *)
Definition try_except {A} (catches : exn → bool) (m : M A) (h : exn → M A) : M A :=
  λ s, match m s with
       | (Raised e, s') => if catches e then h e s' else (Raised e, s')
       | r => r
       end.

(** [except Exception] *)
Definition any_Exception (e : exn) : bool := true.

Definition emit (ev : event) : M unit :=
  λ s, (Ok tt, {| world := world s; log := log s ++ [ev] |}).

Definition print (m : message) : M unit := emit (EvPrint m).

(** A call answered by the outside world. *)
Definition ask {A} (f : World → outcome A * World) : M A :=
  λ s, let '(r, w) := f (world s) in (r, {| world := w; log := log s |}).

Definition of_outcome {A} (r : outcome A) : M A := λ s, (r, s).

(** [x ← m; k] and [m;; k] are [bind]. *)
#[global] Instance M_ret : MRet M := @ret.
#[global] Instance M_bind : MBind M := λ A B k m, bind m k.

(** *** WebScraper *)

(** [self.session.get(url, timeout=10)]: a response, or a raised
    exception. *)
Variable session_get : string → World → outcome response * World.

(** [BeautifulSoup(content, 'html.parser')] *)
Variable BeautifulSoup : string → outcome node.

(** [soup.select(selector)]: the matching tags in document order; raises
    on a selector that is not well formed. *)
Variable select : node → string → outcome (list node).

(** [urljoin] on the arguments outside the class of [Urllib.plain]. *)
Variable urljoin_other : string → string → outcome string.

(** [response.raise_for_status()] of requests: an [HTTPError] when
    400 <= status_code < 600, nothing otherwise. *)
Definition raise_for_status (r : response) : M unit :=
  if is_error_status (status_code r)
  then raise (HTTPError (status_code r))
  else ret tt.

(** One pass through the [try] block of [get_page]. *)
Definition attempt_get (url : string) : M response :=
  emit EvDelay;;
  emit (EvGet url);;
  response ← ask (session_get url);
  raise_for_status response;;
  ret response.

(** The [for attempt in range(retries)] loop of [get_page], with [n]
    iterations left, the next one being number [attempt].  The inner
    [None] stands for an iteration that went through its handler without
    raising, so that the loop goes on. *)
Fixpoint get_page_loop (url : string) (retries : Z) (n : nat) (attempt : Z)
  : M (option response) :=
  match n with
  | O => ret None
  | S n' =>
      r ← try_except is_RequestException
             (response ← attempt_get url; ret (Some response))
             (λ e,
                print (MsgAttemptFailed (attempt + 1) url e);;
                if attempt =? retries - 1 then raise e
                else emit (EvBackoff (2 ^ attempt));; ret None);
      match r with
      | Some response => ret (Some response)
      | None => get_page_loop url retries n' (attempt + 1)
      end
  end.

(** [WebScraper.get_page(url, retries)]; [None] is what Python returns
    when [range(retries)] is empty. *)
Definition get_page (url : string) (retries : Z) : M (option response) :=
  get_page_loop url retries (Z.to_nat retries) 0.

(** What the loop of [get_page] does once attempt number [attempt] has
    failed with [e], leaving the world at [w] and the log at [tr]: the
    [except] block, then the rest of the loop. *)
Definition after_failure (url : string) (retries : Z) (n : nat) (attempt : Z)
    (e : exn) (w : World) (tr : list event) : outcome (option response) * state :=
  let tr1 := tr ++ [EvPrint (MsgAttemptFailed (attempt + 1) url e)] in
  if attempt =? retries - 1 then (Raised e, {| world := w; log := tr1 |})
  else get_page_loop url retries n (attempt + 1)
         {| world := w; log := tr1 ++ [EvBackoff (2 ^ attempt)] |}.

(** [response.content] on what [get_page] returned. *)
Definition content_of (r : option response) : M string :=
  match r with
  | Some response => ret (content response)
  | None => raise (AttributeError "'NoneType' object has no attribute 'content'")
  end.

(** [response = self.get_page(url); soup = BeautifulSoup(response.content,
    'html.parser')], the first two lines of every extractor. *)
Definition fetch_soup (url : string) : M node :=
  response ← get_page url 3;
  markup ← content_of response;
  of_outcome (BeautifulSoup markup).

(** The [if elements: ... else: ...] of [scrape_basic_data]. *)
Definition field_value (elements : list node) : value :=
  match elements with
  | [] => VNone
  | [el] => VStr (get_text_strip el)
  | _ => VList (map get_text_strip elements)
  end.

(** The [for field, selector in selectors.items()] loop. *)
Fixpoint scrape_fields (soup : node) (items : list (string * string))
    (data : gmap string value) : M (gmap string value) :=
  match items with
  | [] => ret data
  | (field, selector) :: rest =>
      elements ← of_outcome (select soup selector);
      scrape_fields soup rest (<[field := field_value elements]> data)
  end.

(** [WebScraper.scrape_basic_data(url, selectors)], [selectors] given by
    its items; [None] is Python's [None]. *)
Definition scrape_basic_data (url : string) (selectors : list (string * string))
  : M (option (gmap string value)) :=
  try_except any_Exception
    (soup ← fetch_soup url;
     data ← scrape_fields soup selectors ∅;
     ret (Some data))
    (λ e, print (MsgErrorScraping url e);; ret None).

(** The cell texts of a row: [[td.get_text(strip=True) for td in
    row.find_all(['td', 'th'])]]. *)
Definition row_cells (row : node) : list string :=
  map get_text_strip (find_all ["td"; "th"] row).

(** [if row_data:] *)
Definition has_cells (row_data : list string) : bool :=
  match row_data with [] => false | _ => true end.

(** The header of [scrape_table]: the cell texts of [table.find('tr')],
    or the empty list without a row. *)
Definition table_headers (table : node) : list string :=
  match find "tr" table with
  | Some header_row => map get_text_strip (find_all ["th"; "td"] header_row)
  | None => []
  end.

(** The [for row in table.find_all('tr')[1:]] loop, appending to [rows]. *)
Fixpoint table_rows (trs : list node) (rows : list (list string))
  : list (list string) :=
  match trs with
  | [] => rows
  | row :: rest =>
      let row_data := row_cells row in
      table_rows rest (if has_cells row_data then rows ++ [row_data] else rows)
  end.

(** [WebScraper.scrape_table(url, table_selector)] *)
Definition scrape_table (url table_selector : string) : M (option DataFrame) :=
  try_except any_Exception
    (soup ← fetch_soup url;
     tables ← of_outcome (select soup table_selector);
     match head tables with
     | None => print MsgNoTable;; ret None
     | Some table =>
         let headers := table_headers table in
         let rows := table_rows (tail (find_all ["tr"] table)) [] in
         match headers, rows with
         | _ :: _, _ :: _ =>
             df ← of_outcome (pd_DataFrame rows headers);
             ret (Some df)
         | _, _ => print MsgNoTableData;; ret None
         end
     end)
    (λ e, print (MsgErrorTable url e);; ret None).

(** [if href:] on [link.get('href')] *)
Definition has_href (link : node) : bool :=
  match get "href" link with
  | Some href => nonempty href
  | None => false
  end.

(** [if base_url: href = urljoin(base_url, href)], the new value of
    [href]; [urljoin] may raise. *)
Definition resolve_href (base_url : option string) (href : string) : outcome string :=
  match base_url with
  | Some base =>
      if nonempty base then Urllib.urljoin urljoin_other base href else Ok href
  | None => Ok href
  end.

(** The dict literal appended by [scrape_links], [href] being resolved. *)
Definition link_record (href : string) (link : node) : gmap string string :=
  {[ "url" := href;
     "text" := get_text_strip link;
     "title" := get_default "title" EmptyString link ]}.

(** The [for link in soup.select(link_selector)] loop, appending to
    [links]; an exception of [urljoin] leaves the loop. *)
Fixpoint collect_links (base_url : option string) (anchors : list node)
    (links : list (gmap string string)) : outcome (list (gmap string string)) :=
  match anchors with
  | [] => Ok links
  | link :: rest =>
      match get "href" link with
      | Some href =>
          if nonempty href
          then match resolve_href base_url href with
               | Ok href' =>
                   collect_links base_url rest (links ++ [link_record href' link])
               | Raised e => Raised e
               end
          else collect_links base_url rest links
      | None => collect_links base_url rest links
      end
  end.

(** [WebScraper.scrape_links(url, link_selector, base_url)] *)
Definition scrape_links (url link_selector : string) (base_url : option string)
  : M (list (gmap string string)) :=
  try_except any_Exception
    (soup ← fetch_soup url;
     anchors ← of_outcome (select soup link_selector);
     of_outcome (collect_links base_url anchors []))
    (λ e, print (MsgErrorLinks url e);; ret []).

(** *** AdvancedScraper *)

(** The browser session and the elements it hands out. *)
Context {Driver WebElement : Type}.

(** [webdriver.Chrome(options=chrome_options)], by [self.headless]. *)
Variable webdriver_Chrome : bool → World → outcome Driver * World.

(** [driver.get(url)] *)
Variable driver_get : Driver → string → World → outcome unit * World.

(** [WebDriverWait(driver, 10).until(EC.presence_of_element_located(
    (By.CSS_SELECTOR, wait_selector)))]: raises [TimeoutException] when no
    such element shows up in time. *)
Variable wait_until_present : Driver → string → World → outcome unit * World.

(** [driver.find_elements(By.CSS_SELECTOR, selector)] *)
Variable find_elements : Driver → string → World → outcome (list WebElement) * World.

(** [element.text] *)
Variable element_text : WebElement → World → outcome string * World.

Record AdvancedScraper : Type := { headless : bool; driver : option Driver }.

(** [if not self.driver: self.setup_driver()] *)
Definition ensure_driver (self : AdvancedScraper) : M (AdvancedScraper * Driver) :=
  match driver self with
  | Some d => ret (self, d)
  | None =>
      d ← ask (webdriver_Chrome (headless self));
      ret ({| headless := headless self; driver := Some d |}, d)
  end.

(** [[el.text for el in elements]] *)
Fixpoint element_texts (elements : list WebElement) : M (list string) :=
  match elements with
  | [] => ret []
  | el :: rest =>
      t ← ask (element_text el);
      ts ← element_texts rest;
      ret (t :: ts)
  end.

(** The inner [try] block of [scrape_dynamic_content] for one field. *)
Definition dynamic_field (d : Driver) (selector : string) : M value :=
  elements ← ask (find_elements d selector);
  match elements with
  | [] => ret VNone
  | [el] => t ← ask (element_text el); ret (VStr t)
  | _ => ts ← element_texts elements; ret (VList ts)
  end.

(** The [for field, selector in data_selectors.items()] loop. *)
Fixpoint dynamic_fields (d : Driver) (items : list (string * string))
    (data : gmap string value) : M (gmap string value) :=
  match items with
  | [] => ret data
  | (field, selector) :: rest =>
      v ← try_except any_Exception
            (dynamic_field d selector)
            (λ e, print (MsgErrorField field e);; ret VNone);
      dynamic_fields d rest (<[field := v]> data)
  end.

(** [AdvancedScraper.scrape_dynamic_content(url, wait_selector,
    data_selectors)]; the scraper object comes back with its driver. *)
Definition scrape_dynamic_content (self : AdvancedScraper)
    (url wait_selector : string) (data_selectors : list (string * string))
  : M (AdvancedScraper * option (gmap string value)) :=
  '(self', d) ← ensure_driver self;
  r ← try_except any_Exception
        (ask (driver_get d url);;
         ask (wait_until_present d wait_selector);;
         data ← dynamic_fields d data_selectors ∅;
         ret (Some data))
        (λ e, print (MsgErrorDynamic url e);; ret None);
  ret (self', r).

(** The contract of one field of [scrape_dynamic_content], in the words
    of the specification, for a field whose selector is looked up in
    world [w]: no match gives [None], one match gives its text, several
    give the list of their texts, read one after the other; an error of
    the lookup or of the reading of a text gives [None]. *)
Inductive texts_read : list WebElement → World → list string → World → Prop :=
| texts_read_nil w : texts_read [] w [] w
| texts_read_cons el els w t w1 ts w2 :
    element_text el w = (Ok t, w1) →
    texts_read els w1 ts w2 →
    texts_read (el :: els) w (t :: ts) w2.

Inductive text_fails : list WebElement → World → Prop :=
| text_fails_here el els w e w1 :
    element_text el w = (Raised e, w1) → text_fails (el :: els) w
| text_fails_later el els w t w1 :
    element_text el w = (Ok t, w1) → text_fails els w1 → text_fails (el :: els) w.

Inductive field_contract (d : Driver) (selector : string) (w : World) : value → Prop :=
| absent_when_no_match w1 :
    find_elements d selector w = (Ok [], w1) →
    field_contract d selector w VNone
| scalar_when_one_match el w1 t w2 :
    find_elements d selector w = (Ok [el], w1) →
    element_text el w1 = (Ok t, w2) →
    field_contract d selector w (VStr t)
| sequence_when_many els w1 ts w2 :
    find_elements d selector w = (Ok els, w1) →
    (2 ≤ length els)%nat →
    texts_read els w1 ts w2 →
    field_contract d selector w (VList ts)
| absent_when_lookup_fails e w1 :
    find_elements d selector w = (Raised e, w1) →
    field_contract d selector w VNone
| absent_when_text_fails els w1 :
    find_elements d selector w = (Ok els, w1) →
    text_fails els w1 →
    field_contract d selector w VNone.

(** *** ScrapingPipeline *)

(** [scraper_func(url, **kwargs)], any extractor: it answers with a fresh
    object at every call, as the extractors above do. *)
Variable scraper_func : string → World → outcome scraped * World.

(** [datetime.now().isoformat()] *)
Variable now_isoformat : World → string * World.

Record ScrapingPipeline : Type :=
  { output_dir : string; results : list (gmap string value) }.

(** [data['scraped_url'] = url; data['scraped_at'] = ...] *)
Definition stamp (url t : string) (data : gmap string value) : gmap string value :=
  <["scraped_at" := VStr t]> (<["scraped_url" := VStr url]> data).

(** The [if data: ...] block of the loop body, by the type of [data]. *)
Definition keep_result (url : string) (data : scraped)
    (results : list (gmap string value)) : M (list (gmap string value)) :=
  match data with
  | SNone => ret results
  | SDict d =>
      if bool_decide (d = ∅) then ret results
      else
        t ← ask (λ w, let '(t, w') := now_isoformat w in (Ok t, w'));
        emit (EvNow t);;
        ret (results ++ [stamp url t d])
  | SLinks l =>
      match l with
      | [] => ret results
      | _ => raise (TypeError "list indices must be integers or slices, not str")
      end
  | STable _ => raise (ValueError "The truth value of a DataFrame is ambiguous")
  end.

(** [data = scraper_func(url, **kwargs)] *)
Definition call_scraper (url : string) : M scraped :=
  λ s, let '(r, w) := scraper_func url (world s) in
       (r, {| world := w; log := log s ++ [EvScraped url r] |}).

(** The [for i, url in enumerate(urls, 1)] loop, appending to [results];
    [total] is [len(urls)]. *)
Fixpoint scrape_loop (total i : Z) (urls : list string)
    (results : list (gmap string value)) : M (list (gmap string value)) :=
  match urls with
  | [] => ret results
  | url :: rest =>
      print (MsgScraping i total url);;
      results' ← try_except any_Exception
                   (data ← call_scraper url; keep_result url data results)
                   (λ e, print (MsgErrorScraping url e);; ret results);
      scrape_loop total (i + 1) rest results'
  end.

(** [ScrapingPipeline.scrape_multiple_pages(urls, scraper_func)]: the
    pipeline with its extended [results], and the returned list. *)
Definition scrape_multiple_pages (self : ScrapingPipeline) (urls : list string)
  : M (ScrapingPipeline * list (gmap string value)) :=
  found ← scrape_loop (Z.of_nat (length urls)) 1 urls [];
  ret ({| output_dir := output_dir self; results := results self ++ found |},
       found).

(** What the specification asks of a run over [urls] that starts in world
    [w]: the URLs are taken in order, each in the world the one before it
    left; a call that answers with a record (a dict that is not empty)
    leaves that record, stamped with the URL and the time then read; any
    other call, failed or empty-handed, leaves nothing and the run goes
    on. *)
Inductive run_contract : list string → World → list (gmap string value) → World → Prop :=
| run_done w : run_contract [] w [] w
| run_record url urls w d w1 t w2 found w' :
    scraper_func url w = (Ok (SDict d), w1) →
    d ≠ ∅ →
    now_isoformat w1 = (t, w2) →
    run_contract urls w2 found w' →
    run_contract (url :: urls) w (stamp url t d :: found) w'
| run_no_record url urls w r w1 found w' :
    scraper_func url w = (r, w1) →
    (∀ d, r = Ok (SDict d) → d = ∅) →
    run_contract urls w1 found w' →
    run_contract (url :: urls) w found w'.

(** [os.path.join(output_dir, filename)] of posixpath. *)
Definition os_path_join (dir filename : string) : string :=
  if Urllib.starts_with_slash filename then filename
  else if negb (nonempty dir) || Urllib.starts_with_slash (String.rev dir)
  then dir +:+ filename
  else dir +:+ "/" +:+ filename.

(** [if data is None: data = self.results] *)
Definition data_or_results (self : ScrapingPipeline) (data : option (list item))
  : list item :=
  match data with
  | Some data => data
  | None => map IDict (results self)
  end.

(** [ScrapingPipeline.save_to_csv(filename, data)] *)
Definition save_to_csv (self : ScrapingPipeline) (filename : string)
    (data : option (list item)) : M unit :=
  let data := data_or_results self data in
  match data with
  | [] => print MsgNoData
  | first :: _ =>
      let filepath := os_path_join (output_dir self) filename in
      match first with
      | IDict _ => emit (EvWrite filepath (CsvOfFrame data))
      | IRow _ => emit (EvWrite filepath (CsvOfRows data))
      end;;
      print (MsgSaved filepath)
  end.

(** [ScrapingPipeline.save_to_json(filename, data)] *)
Definition save_to_json (self : ScrapingPipeline) (filename : string)
    (data : option (list item)) : M unit :=
  let data := data_or_results self data in
  let filepath := os_path_join (output_dir self) filename in
  emit (EvWrite filepath (JsonOf data));;
  print (MsgSaved filepath).

End WithWorld.

Arguments state : clear implicits.
Arguments M : clear implicits.

(** *** Reading a log of the pipeline *)

(** The progress lines: [(i, len(urls), url)] of each "Scraping ...". *)
Definition progress (tr : list event) : list (Z * Z * string) :=
  omap (λ ev, match ev with
              | EvPrint (MsgScraping i n url) => Some (i, n, url)
              | _ => None
              end) tr.

(** The URLs the extractor was called on. *)
Definition called (tr : list event) : list string :=
  omap (λ ev, match ev with EvScraped url _ => Some url | _ => None end) tr.

(** The calls of the extractor that raised, and the errors reported by
    "Error scraping {url}: {e}". *)
Definition failed (tr : list event) : list (string * exn) :=
  omap (λ ev, match ev with
              | EvScraped url (Raised e) => Some (url, e)
              | _ => None
              end) tr.

Definition reported (tr : list event) : list (string * exn) :=
  omap (λ ev, match ev with
              | EvPrint (MsgErrorScraping url e) => Some (url, e)
              | _ => None
              end) tr.

(** The records of the calls that answered with a dict and were followed
    by the reading of the clock, each stamped with its URL and that
    reading. *)
Fixpoint stamped_of (tr : list event) : list (gmap string value) :=
  match tr with
  | EvScraped url (Ok (SDict d)) :: EvNow t :: tr' => stamp url t d :: stamped_of tr'
  | _ :: tr' => stamped_of tr'
  | [] => []
  end.

(** A log that is empty or begins with a progress line. *)
Definition begins_with_progress (tr : list event) : Prop :=
  match tr with
  | [] => True
  | EvPrint (MsgScraping _ _ _) :: _ => True
  | _ => False
  end.

(** The [scraped_url] of a record. *)
Definition source_of (r : gmap string value) : option string :=
  match r !! "scraped_url" with
  | Some (VStr url) => Some url
  | _ => None
  end.

End Scraper.

(** ** The grocery shop ([src/myapp.py]) *)

Module Grocery.

(** A Python object of the shape [json.load] gives and [json.dump] takes;
    [float] stands for Python's floats, whose arithmetic is left open. *)
Inductive pyval (float : Type) : Type :=
| PNone
| PBool (b : bool)
| PInt (z : Z)
| PFloat (f : float)
| PStr (s : string)
| PList (l : list (pyval float))
| PDict (items : list (string * pyval float)).
Arguments PNone {float}.
Arguments PBool {float} b.
Arguments PInt {float} z.
Arguments PFloat {float} f.
Arguments PStr {float} s.
Arguments PList {float} l.
Arguments PDict {float} items.

(** The data file as [load_data] finds it. *)
Inductive file_state : Type :=
| Missing                  (* os.path.exists(self.data_file) is False *)
| Unreadable (e : exn)     (* open raises *)
| Holds (text : string).

Section WithFloat.

Context {float : Type}.

(** [int + float], [float + float] and [float * int], the last for an
    [int] that can be converted to a float. *)
Variable float_of_int : Z → float.
Variable float_add : float → float → float.
Variable float_mul_int : float → Z → float.

(** [float(x)], [int(x)] and [str(x)] on a loaded value. *)
Variable py_float : pyval float → outcome float.
Variable py_int : pyval float → outcome Z.
Variable py_str : pyval float → string.

(** [json.load(f)]: the parsed value, or an exception on text that is not
    JSON. *)
Variable json_load : string → outcome (pyval float).

Record Product : Type :=
  { id : pyval float; name : pyval float; price : float; stock : Z;
    category : pyval float }.

(** [Product.to_dict] *)
Definition to_dict (p : Product) : pyval float :=
  PDict [("id", id p); ("name", name p); ("price", PFloat (price p));
         ("stock", PInt (stock p)); ("category", category p)].

Fixpoint dict_get (key : string) (items : list (string * pyval float))
  : option (pyval float) :=
  match items with
  | [] => None
  | (k, v) :: rest => if bool_decide (key = k) then Some v else dict_get key rest
  end.

(** [data[key]] *)
Definition subscript (data : pyval float) (key : string) : outcome (pyval float) :=
  match data with
  | PDict items =>
      match dict_get key items with
      | Some v => Ok v
      | None => Raised (KeyError key)
      end
  | _ => Raised (TypeError "indices must be integers or the object is not subscriptable")
  end.

(** [data.get(key, default)] *)
Definition get_or (data : pyval float) (key : string) (default : pyval float)
  : outcome (pyval float) :=
  match data with
  | PDict items => Ok (from_option (λ v, v) default (dict_get key items))
  | _ => Raised (AttributeError "object has no attribute 'get'")
  end.

Definition and_then {A B} (r : outcome A) (k : A → outcome B) : outcome B :=
  match r with
  | Ok a => k a
  | Raised e => Raised e
  end.

(** [Product.from_dict(data)], the constructor converting [price] and
    [stock]. *)
Definition from_dict (data : pyval float) : outcome Product :=
  and_then (subscript data "id") (λ i,
  and_then (subscript data "name") (λ n,
  and_then (subscript data "price") (λ p,
  and_then (subscript data "stock") (λ s,
  and_then (subscript data "category") (λ c,
  and_then (py_float p) (λ price,
  and_then (py_int s) (λ stock,
  Ok {| id := i; name := n; price := price; stock := stock; category := c |}))))))).

Record GroceryShop : Type :=
  { products : gmap string Product; sales_history : pyval float }.

(** [sale_total], an [int] until the first [float] is added. *)
Inductive number : Type :=
| NInt (z : Z)
| NFloat (f : float).

Definition add_float (total : number) (x : float) : number :=
  match total with
  | NInt z => NFloat (float_add (float_of_int z) x)
  | NFloat f => NFloat (float_add f x)
  end.

Definition number_val (n : number) : pyval float :=
  match n with
  | NInt z => PInt z
  | NFloat f => PFloat f
  end.

(** [product.stock -= quantity] *)
Definition take (quantity : Z) (p : Product) : Product :=
  {| id := id p; name := name p; price := price p;
     stock := stock p - quantity; category := category p |}.

(** The ints Python converts to a float: those that round to a double
    below 2^1024, which are the ints below 2^1024 - 2^970 in absolute
    value. *)
Definition fits_float (z : Z) : bool := Z.abs z <? 2 ^ 1024 - 2 ^ 970.

(** [product.price * quantity], a float by an int: the int is converted
    first, and one that is too large is an [OverflowError]. *)
Definition price_times (price : float) (quantity : Z) : outcome float :=
  if fits_float quantity then Ok (float_mul_int price quantity)
  else Raised (OverflowError "int too large to convert to float").

(** The [for product_id, quantity in items] loop of [process_sale].  The
    products come back also when the loop raises: they are changed in
    place, and the stock of a line is taken before its total is
    computed. *)
Fixpoint sale_loop (items : list (string * Z)) (products : gmap string Product)
    (sale_total : number) (sale_items : list (pyval float))
  : outcome (number * list (pyval float)) * gmap string Product :=
  match items with
  | [] => (Ok (sale_total, sale_items), products)
  | (product_id, quantity) :: rest =>
      match products !! product_id with
      | Some product =>
          if quantity <=? stock product then
            let products' := <[product_id := take quantity product]> products in
            match price_times (price product) quantity with
            | Ok item_total =>
                sale_loop rest products'
                  (add_float sale_total item_total)
                  (sale_items ++ [PDict [("name", name product);
                                         ("quantity", PInt quantity);
                                         ("price", PFloat (price product));
                                         ("total", PFloat item_total)]])
            | Raised e => (Raised e, products')
            end
          else
            (Raised (ValueError ("Insufficient stock for " +:+ py_str (name product))),
             products)
      | None =>
          (Raised (ValueError ("Product " +:+ product_id +:+ " not found")), products)
      end
  end.

(** What [save_data] hands to [json.dump], and the text it becomes. *)
Variable json_dump : gmap string (pyval float) → pyval float → string.

(** [GroceryShop.save_data] *)
Definition save_data (self : GroceryShop) : file_state :=
  Holds (json_dump (to_dict <$> products self) (sales_history self)).

(** [self.sales_history.append(sale_record)] *)
Definition append (history sale_record : pyval float) : outcome (pyval float) :=
  match history with
  | PList l => Ok (PList (l ++ [sale_record]))
  | _ => Raised (AttributeError "object has no attribute 'append'")
  end.

(** [GroceryShop.process_sale(items)]: [now] is what
    [datetime.now().isoformat()] gives and [disk] the data file; the shop
    and the file come back as the call leaves them. *)
Definition process_sale (self : GroceryShop) (items : list (string * Z))
    (now : string) (disk : file_state)
  : outcome (pyval float) * GroceryShop * file_state :=
  match sale_loop items (products self) (NInt 0) [] with
  | (Raised e, products') =>
      (Raised e,
       {| products := products'; sales_history := sales_history self |}, disk)
  | (Ok (sale_total, sale_items), products') =>
      let sale_record :=
        PDict [("timestamp", PStr now); ("items", PList sale_items);
               ("total", number_val sale_total)] in
      match append (sales_history self) sale_record with
      | Raised e =>
          (Raised e,
           {| products := products'; sales_history := sales_history self |}, disk)
      | Ok history' =>
          let self' := {| products := products'; sales_history := history' |} in
          (Ok sale_record, self', save_data self')
      end
  end.

(** [open(self.data_file, 'r')] and [json.load(f)]. *)
Definition read_json (disk : file_state) : outcome (pyval float) :=
  match disk with
  | Missing => Raised (OSError "No such file or directory")
  | Unreadable e => Raised e
  | Holds text => json_load text
  end.

(** [{k: Product.from_dict(v) for k, v in d.items()}], adding to [acc]. *)
Fixpoint load_products (items : list (string * pyval float))
    (acc : gmap string Product) : outcome (gmap string Product) :=
  match items with
  | [] => Ok acc
  | (k, v) :: rest =>
      and_then (from_dict v) (λ p, load_products rest (<[k := p]> acc))
  end.

(** [d.items()] *)
Definition dict_items (d : pyval float) : outcome (list (string * pyval float)) :=
  match d with
  | PDict items => Ok items
  | _ => Raised (AttributeError "object has no attribute 'items'")
  end.

(** The [try] block of [load_data], up to the two assignments. *)
Definition load_try (disk : file_state)
  : outcome (gmap string Product * pyval float) :=
  and_then (read_json disk) (λ data,
  and_then (get_or data "products" (PDict [])) (λ d,
  and_then (dict_items d) (λ items,
  and_then (load_products items ∅) (λ products,
  and_then (get_or data "sales_history" (PList [])) (λ history,
  Ok (products, history)))))).

(** [GroceryShop.load_data]; the bare [except:] catches whatever the
    block raises. *)
Definition load_data (self : GroceryShop) (disk : file_state)
  : outcome GroceryShop :=
  match disk with
  | Missing => Ok self
  | _ =>
      match load_try disk with
      | Ok (products, history) =>
          Ok {| products := products; sales_history := history |}
      | Raised _ => Ok {| products := ∅; sales_history := PList [] |}
      end
  end.

(** [GroceryShop()]: [__init__] sets both fields empty and calls
    [load_data]. *)
Definition GroceryShop_init (disk : file_state) : outcome GroceryShop :=
  load_data {| products := ∅; sales_history := PList [] |} disk.

(** The keys [Product.from_dict] reads. *)
Definition required_keys : list string :=
  ["id"; "name"; "price"; "stock"; "category"].

(** The states of the data file the shop cannot be loaded from: there is
    no file, it cannot be read, its text is not JSON, or one of its
    product records lacks a key. *)
Inductive bad_file : file_state → Prop :=
| bad_missing : bad_file Missing
| bad_unreadable e : bad_file (Unreadable e)
| bad_malformed text e : json_load text = Raised e → bad_file (Holds text)
| bad_record text data records k fields key :
    json_load text = Ok data →
    get_or data "products" (PDict []) = Ok (PDict records) →
    (k, PDict fields) ∈ records →
    key ∈ required_keys →
    dict_get key fields = None →
    bad_file (Holds text).

(** The quantity of [product_id] in [items], all its lines together. *)
Fixpoint sold (product_id : string) (items : list (string * Z)) : Z :=
  match items with
  | [] => 0
  | (pid, quantity) :: rest =>
      (if bool_decide (pid = product_id) then quantity else 0) + sold product_id rest
  end.

End WithFloat.

End Grocery.

(** ** The domain check ([src/myapp1.py], the part headed "scripting") *)

Module Phishing.
Import Html.

Definition phishing_keywords : list string :=
  ["login"; "secure"; "verify"; "update"; "account"; "password"].

(** [s.startswith(prefix)] *)
Fixpoint starts_with (prefix s : string) : bool :=
  match prefix, s with
  | EmptyString, _ => true
  | String a prefix', String b s' => bool_decide (a = b) && starts_with prefix' s'
  | String _ _, EmptyString => false
  end.

(** [sub in s] on strings *)
Fixpoint occurs_in (sub s : string) : bool :=
  starts_with sub s
  || match s with
     | EmptyString => false
     | String _ s' => occurs_in sub s'
     end.

(** The dict [check_domain] returns; its keys are fixed. *)
Record result : Type :=
  { domain : string; keyword_flag : bool; has_form : bool;
    has_password_input : bool; is_suspicious : bool }.

(** What [check_domain] prints. *)
Inductive message : Type :=
| MsgChecking (domain : string)            (* "Checking: {domain}" *)
| MsgResult (r : result)                   (* print(result) *)
| MsgFailed (domain : string) (e : exn).   (* "Failed to scan {domain}: {e}" *)

(** A tag [name] whose attribute [key] is [val]. *)
Definition tag_with (name key val : string) (n : node) : bool :=
  tag_named [name] n
  && match get key n with
     | Some v => bool_decide (v = val)
     | None => false
     end.

(** [soup.find(name, {key: val})] *)
Definition find_with (name key val : string) (soup : node) : option node :=
  head (List.filter (tag_with name key val) (descendants soup)).

Section WithWorld.

(** [Parts] is what [tldextract.extract] returns. *)
Context {World Parts : Type}.

Record state : Type := { world : World; printed : list message }.

Definition M (A : Type) : Type := state → outcome A * state.

Definition ret {A} (a : A) : M A := λ s, (Ok a, s).

Definition bind {A B} (m : M A) (k : A → M B) : M B :=
  λ s, match m s with
       | (Ok a, s') => k a s'
       | (Raised e, s') => (Raised e, s')
       end.

(** [try: m  except Exception as e: h e] *)
Definition try_except {A} (m : M A) (h : exn → M A) : M A :=
  λ s, match m s with
       | (Raised e, s') => h e s'
       | r => r
       end.

Definition print (m : message) : M unit :=
  λ s, (Ok tt, {| world := world s; printed := printed s ++ [m] |}).

Definition ask {A} (f : World → outcome A * World) : M A :=
  λ s, let '(r, w) := f (world s) in (r, {| world := w; printed := printed s |}).

Definition of_outcome {A} (r : outcome A) : M A := λ s, (r, s).

#[global] Instance M_ret : MRet M := @ret.
#[global] Instance M_bind : MBind M := λ A B k m, bind m k.

(** [tldextract.extract(domain)] *)
Variable tldextract_extract : string → World → outcome Parts * World.

(** [requests.get(url, timeout=10)]; [content] stands for [response.text]. *)
Variable requests_get : string → World → outcome Scraper.response * World.

(** [BeautifulSoup(response.text, 'html.parser')] *)
Variable BeautifulSoup : string → outcome node.

(** [any(keyword in domain for keyword in phishing_keywords)] *)
Definition any_keyword (domain : string) : bool :=
  existsb (λ keyword, occurs_in keyword domain) phishing_keywords.

(** [check_domain(domain)]; [None] is Python's [None]. *)
Definition check_domain (domain : string) : M (option result) :=
  try_except
    (print (MsgChecking domain);;
     domain_parts ← ask (tldextract_extract domain);
     let keyword_flag := any_keyword domain in
     response ← ask (requests_get ("http://" +:+ domain));
     soup ← of_outcome (BeautifulSoup (Scraper.content response));
     let has_form := bool_decide (is_Some (find "form" soup)) in
     let has_password_input :=
       bool_decide (is_Some (find_with "input" "type" "password" soup)) in
     let is_suspicious := keyword_flag || has_password_input in
     let result :=
       {| domain := domain; keyword_flag := keyword_flag; has_form := has_form;
          has_password_input := has_password_input;
          is_suspicious := is_suspicious |} in
     print (MsgResult result);;
     ret (Some result))
    (λ e, print (MsgFailed domain e);; ret None).

(** [for d in domains: check_domain(d)], the results in order. *)
Fixpoint scan (domains : list string) : M (list (option result)) :=
  match domains with
  | [] => ret []
  | d :: rest =>
      r ← check_domain d;
      rs ← scan rest;
      ret (r :: rs)
  end.

End WithWorld.

Arguments state : clear implicits.
Arguments M : clear implicits.

(** The domains that were checked, by the "Checking" lines. *)
Definition checked (out : list message) : list string :=
  omap (λ m, match m with MsgChecking d => Some d | _ => None end) out.

End Phishing.

(** ** More of the scraper and of the shop *)

Module ScraperMore.
Import Scraper.

(** [sum(secs)] *)
Definition total (secs : list Z) : Z := foldr Z.add 0 secs.

(** An answer of the extractor that the pipeline keeps: a dict that is
    not empty. *)
Definition kept (r : outcome scraped) : Prop :=
  ∃ d, r = Ok (SDict d) ∧ d ≠ ∅.

End ScraperMore.

Module GroceryMore.
Import Grocery.

Section WithFloat.

Context {float : Type}.
Variable json_dump : gmap string (pyval float) → pyval float → string.

(** [self.products[product_id].stock = new_stock] *)
Definition set_stock (new_stock : Z) (p : Product (float := float)) : Product :=
  {| id := id p; name := name p; price := price p; stock := new_stock;
     category := category p |}.

(** [GroceryShop.update_stock(product_id, new_stock)]: what it returns,
    the shop and the data file. *)
Definition update_stock (self : GroceryShop (float := float)) (product_id : string)
    (new_stock : Z) (disk : file_state) : bool * GroceryShop * file_state :=
  match products self !! product_id with
  | Some product =>
      let self' := {| products := <[product_id := set_stock new_stock product]> (products self);
                      sales_history := sales_history self |} in
      (true, self', save_data json_dump self')
  | None => (false, self, disk)
  end.

(** Every line of [items] names a known product, and what the lines up
    to and including it ask of that product is in stock. *)
Definition passes (items : list (string * Z))
    (products : gmap string (Product (float := float))) : Prop :=
  ∀ pre pid quantity post,
    items = pre ++ (pid, quantity) :: post →
    ∃ p, products !! pid = Some p ∧ sold pid pre + quantity ≤ stock p.

(** Every quantity of [items] can be converted to a float. *)
Definition convertible (items : list (string * Z)) : Prop :=
  Forall (λ item, fits_float item.2 = true) items.

(** The items of a dumped shop, for a listing [ps] of its products. *)
Definition dumped_products (ps : list (string * Product (float := float)))
  : list (string * pyval float) :=
  map (λ kp, (kp.1, to_dict kp.2)) ps.

End WithFloat.

End GroceryMore.

(** ** Example data *)

Module Examples.
Import Html Scraper.

(** A page with a heading, a list, a table and three anchors. *)
Definition page : node :=
  Tag "html" []
    [Tag "h1" [] [Text "  Prices "];
     Tag "ul" [] [Tag "li" [] [Text " one "]; Tag "li" [] [Text "two"; Tag "b" [] [Text " ! "]]];
     Tag "table" []
       [Tag "tr" [] [Tag "th" [] [Text "Name"]; Tag "th" [] [Text "Price"]];
        Tag "tr" [] [Tag "td" [] [Text "Apple"]; Tag "td" [] [Text " 1.00 "]];
        Tag "tr" [] [];
        Tag "tr" [] [Tag "td" [] [Text "Bread"]; Tag "td" [] [Text "2.50"]]];
     Tag "a" [("href", "page.html"); ("title", "Next")] [Text " next "];
     Tag "a" [("name", "top")] [Text "top"];
     Tag "a" [("href", EmptyString)] [Text "empty"]].

(** A table with its header row only. *)
Definition header_only : node :=
  Tag "html" []
    [Tag "table" []
       [Tag "tr" [] [Tag "th" [] [Text "Name"]; Tag "th" [] [Text "Price"]]]].

(** A paragraph with a word in bold inside, and a page whose second
    anchor has an [href] with a bracket that is not closed. *)
Definition greeting : node :=
  Tag "html" []
    [Tag "p" [] [Text " Hello "; Tag "b" [] [Text "World"]; Text " again "]].

Definition trap : node :=
  Tag "html" []
    [Tag "a" [("href", "page.html"); ("title", "Next")] [Text " next "];
     Tag "a" [("href", "http://[x")] [Text "trap"]].

(** [urljoin] outside the class of [Urllib.plain], fixed at the one
    argument of that kind the examples have: on "http://[x" the library
    raises [ValueError]. *)
Definition urljoin_other (base url : string) : outcome string :=
  if bool_decide (url = "http://[x") then Raised (ValueError "Invalid IPv6 URL")
  else Ok url.

(** A parser that answers with [soup] whatever the markup. *)
Definition parses_to (soup : node) (markup : string) : outcome node := Ok soup.

(** Selection by tag name, the simplest kind of selector; the empty
    selector is not well formed. *)
Definition select_by_tag (soup : node) (selector : string) : outcome (list node) :=
  if nonempty selector then Ok (find_all [selector] soup)
  else Raised (SelectorSyntaxError selector).

(** A server that answers every request with status [status]; the world
    counts the requests. *)
Definition server (status : Z) (url : string) (w : nat)
  : outcome response * nat :=
  (Ok {| status_code := status; content := "<html>" |}, S w).

(** A server that answers with status 301 for the page that has moved
    and with 404 for every other request. *)
Definition site (url : string) (w : nat) : outcome response * nat :=
  (Ok {| status_code := if bool_decide (url = "http://shop.example/moved")
                        then 301 else 404;
         content := "<html>" |}, S w).

(** A host that cannot be reached. *)
Definition unreachable (url : string) (w : nat) : outcome response * nat :=
  (Raised (RequestException "ConnectionError"), S w).

Definition start : state nat := {| world := 0%nat; log := [] |}.

Definition selectors : list (string * string) :=
  [("title", "h1"); ("items", "li"); ("footer", "p")].

(** An extractor that cannot fetch the page "B" and answers every other
    URL with a record of one field; the world counts the calls and the
    readings of the clock. *)
Definition flaky (url : string) (w : nat) : outcome scraped * nat :=
  if bool_decide (url = "B") then (Raised (RequestException "ConnectionError"), S w)
  else (Ok (SDict {[ "title" := VStr url ]}), S w).

Definition clock (w : nat) : string * nat := ("2024-05-01T12:00:00", S w).

(** A browser whose page shows one price, whose text the driver reports
    with a blank at either end (as it does for a text that begins and ends
    with a non-breaking space), two tags, and nothing else; the wait for
    "#never" times out and "!!" is not a selector.  An element is given by
    its text. *)
Definition chrome (headless : bool) (w : nat) : outcome unit * nat := (Ok tt, w).

Definition browse (d : unit) (url : string) (w : nat) : outcome unit * nat :=
  (Ok tt, S w).

Definition wait_for (d : unit) (selector : string) (w : nat) : outcome unit * nat :=
  if bool_decide (selector = "#never") then (Raised TimeoutException, w)
  else (Ok tt, w).

Definition find_by_css (d : unit) (selector : string) (w : nat)
  : outcome (list string) * nat :=
  if bool_decide (selector = ".price") then (Ok [" 42 "], w)
  else if bool_decide (selector = ".tag") then (Ok ["new"; "sale"], w)
  else if bool_decide (selector = "!!") then (Raised (WebDriverException "invalid selector"), w)
  else (Ok [], w).

Definition text_of (el : string) (w : nat) : outcome string * nat := (Ok el, w).

(** A shop with two products, prices in whole cents. *)
Definition apple : Grocery.Product (float := Z) :=
  {| Grocery.id := Grocery.PStr "apple"; Grocery.name := Grocery.PStr "Apple";
     Grocery.price := 120; Grocery.stock := 5;
     Grocery.category := Grocery.PStr "Fruit" |}.

Definition bread : Grocery.Product (float := Z) :=
  {| Grocery.id := Grocery.PStr "bread"; Grocery.name := Grocery.PStr "Bread";
     Grocery.price := 250; Grocery.stock := 1;
     Grocery.category := Grocery.PStr "Bakery" |}.

Definition shop : Grocery.GroceryShop (float := Z) :=
  {| Grocery.products := <["apple" := apple]> (<["bread" := bread]> ∅);
     Grocery.sales_history := Grocery.PList [] |}.

(** [str] of a value, as far as the examples need it. *)
Definition show (v : Grocery.pyval Z) : string :=
  match v with
  | Grocery.PStr s => s
  | _ => "?"
  end.

Definition dump (products : gmap string (Grocery.pyval Z))
    (history : Grocery.pyval Z) : string := "{}".

End Examples.

(** ** More example data *)

Module MoreExamples.
Import Html.

(** A page with a search form and no password field, and a login page. *)
Definition search_page : node :=
  Tag "html" []
    [Tag "form" [] [Tag "input" [("type", "text"); ("name", "q")] []]].

Definition login_page : node :=
  Tag "html" []
    [Tag "form" []
       [Tag "input" [("type", "text")] [];
        Tag "input" [("type", "password")] []]].

(** [tldextract] and a server that answers every request with status 404. *)
Definition extract (domain : string) (w : nat) : outcome unit * nat := (Ok tt, w).

Definition not_found (url : string) (w : nat) : outcome Scraper.response * nat :=
  (Ok {| Scraper.status_code := 404; Scraper.content := "<html>" |}, S w).

Definition fresh : Phishing.state nat :=
  {| Phishing.world := 0%nat; Phishing.printed := [] |}.

(** A server that fails once and then answers with status 200. *)
Definition second_try (url : string) (w : nat) : outcome Scraper.response * nat :=
  match w with
  | O => (Raised (RequestException "Timeout"), 1%nat)
  | S _ => (Ok {| Scraper.status_code := 200; Scraper.content := "<html>" |}, S w)
  end.

(** A request that raises a [TypeError], which is not a
    [RequestException]. *)
Definition broken (url : string) (w : nat) : outcome Scraper.response * nat :=
  (Raised (TypeError "bad argument"), S w).

(** Selection by tag name in which "li" is not a selector. *)
Definition picky_select (soup : node) (selector : string) : outcome (list node) :=
  if bool_decide (selector = "li") then Raised (SelectorSyntaxError selector)
  else Ok (find_all [selector] soup).

(** A table whose data row has three cells under a header of two. *)
Definition ragged : node :=
  Tag "html" []
    [Tag "table" []
       [Tag "tr" [] [Tag "th" [] [Text "Name"]; Tag "th" [] [Text "Price"]];
        Tag "tr" [] [Tag "td" [] [Text "Apple"]; Tag "td" [] [Text "1.00"];
                     Tag "td" [] [Text "kg"]]]].

(** An extractor that answers with a record holding a [scraped_url] of
    its own, and one that answers with a list of links. *)
Definition cheeky (url : string) (w : nat) : outcome Scraper.scraped * nat :=
  (Ok (Scraper.SDict {[ "scraped_url" := Scraper.VStr "elsewhere";
                        "title" := Scraper.VStr url ]}), S w).

Definition linker (url : string) (w : nat) : outcome Scraper.scraped * nat :=
  (Ok (Scraper.SLinks [ {[ "url" := url ]} ]), S w).

(** An extractor that finds nothing. *)
Definition silent (url : string) (w : nat) : outcome Scraper.scraped * nat :=
  (Ok Scraper.SNone, S w).

(** A browser that cannot be started. *)
Definition no_chrome (headless : bool) (w : nat) : outcome unit * nat :=
  (Raised (WebDriverException "chromedriver not found"), w).

(** [float] and [int] on the values the examples hold, prices in whole
    cents. *)
Definition to_float (v : Grocery.pyval Z) : outcome Z :=
  match v with
  | Grocery.PFloat f => Ok f
  | Grocery.PInt z => Ok z
  | _ => Raised (TypeError "float() argument")
  end.

Definition to_int (v : Grocery.pyval Z) : outcome Z :=
  match v with
  | Grocery.PInt z => Ok z
  | _ => Raised (TypeError "int() argument")
  end.

(** A [json.load] that finds the example shop in every file. *)
Definition load_shop (text : string) : outcome (Grocery.pyval Z) :=
  Ok (Grocery.PDict
        [("products",
          Grocery.PDict [("apple", Grocery.to_dict Examples.apple);
                         ("bread", Grocery.to_dict Examples.bread)]);
         ("sales_history", Grocery.PList [])]).

(** The example shop with a sales history that is [None]. *)
Definition odd_shop : Grocery.GroceryShop (float := Z) :=
  {| Grocery.products := Grocery.products Examples.shop;
     Grocery.sales_history := Grocery.PNone |}.

End MoreExamples.

(** * Properties *)

(** ** [strip] and [get_text(strip=True)] *)

Module TextFacts.
Import Text.

Lemma lstrip_no_lead l : no_lead (lstrip_chars l).
Proof.
  induction l as [|c l IH]; simpl; [done|].
  destruct (isspace c) eqn:E; [done|]. simpl. done.
Qed.

Lemma lstrip_fixed l : no_lead l → lstrip_chars l = l.
Proof. destruct l as [|c l]; simpl; [done|]. by intros ->. Qed.

Lemma lstrip_snoc l c :
  isspace c = false → ∃ l', lstrip_chars (l ++ [c]) = l' ++ [c].
Proof.
  intros Hc. induction l as [|a l [l' IH]]; simpl.
  - rewrite Hc. by exists [].
  - destruct (isspace a); [by exists l'|].
    by exists (a :: l).
Qed.

Lemma strip_chars_clean l : clean (strip_chars l).
Proof.
  unfold clean, strip_chars. rewrite rev_involutive. split; [|apply lstrip_no_lead].
  pose proof (lstrip_no_lead l) as Hl.
  destruct (lstrip_chars l) as [|c t]; [done|].
  simpl in Hl. simpl rev.
  destruct (lstrip_snoc (rev t) c Hl) as [l' ->].
  rewrite rev_app_distr. simpl. done.
Qed.

Lemma strip_chars_fixed l : clean l → strip_chars l = l.
Proof.
  intros [H1 H2]. unfold strip_chars.
  rewrite (lstrip_fixed l H1), (lstrip_fixed _ H2). apply rev_involutive.
Qed.

Lemma clean_app l1 l2 : l1 ≠ [] → clean l1 → clean l2 → clean (l1 ++ l2).
Proof.
  intros Hne [H1 H1'] [H2 H2']. split.
  - destruct l1; [done|]. done.
  - rewrite rev_app_distr. destruct l2 as [|c l2]; [done|].
    simpl in *. destruct (rev l2); simpl in *; done.
Qed.

Lemma chars_append s1 s2 :
  list_ascii_of_string (s1 +:+ s2) = list_ascii_of_string s1 ++ list_ascii_of_string s2.
Proof. induction s1; simpl; [done|]. by f_equal. Qed.

Lemma trimmed_clean s : trimmed s ↔ clean (list_ascii_of_string s).
Proof.
  unfold trimmed, strip. split.
  - intros H. rewrite <- H at 1. rewrite list_ascii_of_string_of_list_ascii.
    apply strip_chars_clean.
  - intros H. rewrite (strip_chars_fixed _ H). apply string_of_list_ascii_of_string.
Qed.

(** [s.strip()] has no white space left at either end. *)
Lemma strip_trimmed s : trimmed (strip s).
Proof.
  apply trimmed_clean. unfold strip.
  rewrite list_ascii_of_string_of_list_ascii. apply strip_chars_clean.
Qed.

Lemma join_trimmed parts :
  Forall (λ p, Html.nonempty p = true ∧ trimmed p) parts → trimmed (join parts).
Proof.
  induction 1 as [|p parts [Hne Hp] _ IH]; simpl.
  - by apply trimmed_clean.
  - apply trimmed_clean. rewrite chars_append.
    apply clean_app; [by destruct p| by apply trimmed_clean..].
Qed.

(** The text [get_text(strip=True)] gives is itself trimmed. *)
Lemma get_text_strip_trimmed n : trimmed (Html.get_text_strip n).
Proof.
  unfold Html.get_text_strip. apply join_trimmed.
  apply Forall_forall. intros p Hp. apply list_elem_of_In in Hp.
  apply filter_In in Hp as [Hin Hne]. split; [done|].
  apply in_map_iff in Hin as [s [<- _]]. apply strip_trimmed.
Qed.

End TextFacts.

(** ** Relative references *)

Module UrllibFacts.
Import Urllib.

Lemma append_assoc (s t u : string) : (s +:+ t) +:+ u = s +:+ (t +:+ u).
Proof.
  induction s as [|a s IH]; [done|].
  change (String a ((s +:+ t) +:+ u) = String a (s +:+ (t +:+ u))). by f_equal.
Qed.

Lemma ascii_eqb_refl c : ascii_eqb c c = true.
Proof. unfold ascii_eqb. by apply bool_decide_eq_true. Qed.

Lemma contains_cons c a s : contains c (String a s) = ascii_eqb a c || contains c s.
Proof. reflexivity. Qed.

Lemma contains_app c s t : contains c (s +:+ t) = contains c s || contains c t.
Proof.
  induction s as [|a s IH]; [done|].
  change (contains c (String a (s +:+ t)) = contains c (String a s) || contains c t).
  rewrite !contains_cons, IH. by rewrite orb_assoc.
Qed.

Lemma all_chars_cons p a s : all_chars p (String a s) = p a && all_chars p s.
Proof. reflexivity. Qed.

(** A string made of characters none of which is [c] does not hold [c]. *)
Lemma contains_none (p : ascii → bool) c s :
  (∀ a, p a = true → ascii_eqb a c = false) →
  all_chars p s = true → contains c s = false.
Proof.
  intros Hp. induction s as [|a s IH]; [done|].
  rewrite all_chars_cons, contains_cons. intros [Ha Hs]%andb_true_iff.
  by rewrite (Hp a Ha), (IH Hs).
Qed.

Lemma split1_cons c a s :
  split1 c (String a s) =
  if ascii_eqb a c then (EmptyString, s)
  else let '(h, t) := split1 c s in (String a h, t).
Proof. reflexivity. Qed.

Lemma split1_absent c s : contains c s = false → split1 c s = (s, EmptyString).
Proof.
  induction s as [|a s IH]; [done|].
  rewrite contains_cons, split1_cons. intros [Ha Hs]%orb_false_iff.
  by rewrite Ha, (IH Hs).
Qed.

Lemma split1_app c s t :
  contains c s = false → split1 c (s +:+ String c t) = (s, t).
Proof.
  induction s as [|a s IH].
  - intros _. change (split1 c (String c t) = (EmptyString, t)).
    by rewrite split1_cons, ascii_eqb_refl.
  - rewrite contains_cons. intros [Ha Hs]%orb_false_iff.
    change (split1 c (String a (s +:+ String c t)) = (String a s, t)).
    by rewrite split1_cons, Ha, (IH Hs).
Qed.

Lemma split_cons c a s :
  split c (String a s) =
  if ascii_eqb a c then EmptyString :: split c s
  else match split c s with
       | h :: t => String a h :: t
       | [] => [String a EmptyString]
       end.
Proof. reflexivity. Qed.

Lemma split_absent c s : contains c s = false → split c s = [s].
Proof.
  induction s as [|a s IH]; [done|].
  rewrite contains_cons, split_cons. intros [Ha Hs]%orb_false_iff.
  by rewrite Ha, (IH Hs).
Qed.

Lemma split_app c s t :
  contains c s = false → split c (s +:+ String c t) = s :: split c t.
Proof.
  induction s as [|a s IH].
  - intros _. change (split c (String c t) = EmptyString :: split c t).
    by rewrite split_cons, ascii_eqb_refl.
  - rewrite contains_cons. intros [Ha Hs]%orb_false_iff.
    change (split c (String a (s +:+ String c t)) = String a s :: split c t).
    by rewrite split_cons, Ha, (IH Hs).
Qed.

(** The characters of a name are none of the delimiters of a URL. *)
Lemma name_char_not_delimiter a :
  name_char a = true →
  ascii_eqb a "/" = false ∧ ascii_eqb a ":" = false ∧ ascii_eqb a "?" = false
  ∧ ascii_eqb a "#" = false ∧ ascii_eqb a ";" = false.
Proof.
  destruct a as [[] [] [] [] [] [] [] []]; vm_compute; intros H;
    first [discriminate H | done].
Qed.

Lemma is_name_spec s :
  is_name s = true →
  s ≠ EmptyString ∧ all_chars name_char s = true ∧ s ≠ "." ∧ s ≠ "..".
Proof.
  unfold is_name. rewrite !andb_true_iff, !negb_true_iff, !bool_decide_eq_false.
  intros [[[Hne Hall] H1] H2]. split; [by destruct s|done].
Qed.

Lemma name_no_delimiter s c :
  all_chars name_char s = true →
  c = "/"%char ∨ c = ":"%char ∨ c = "?"%char ∨ c = "#"%char ∨ c = ";"%char →
  contains c s = false.
Proof.
  intros Hall Hc. apply (contains_none name_char); [|done].
  intros a Ha. destruct (name_char_not_delimiter a Ha) as (H1 & H2 & H3 & H4 & H5).
  by destruct Hc as [->|[->|[->|[->| ->]]]].
Qed.

Lemma scheme_char_not_colon a : is_scheme_char a = true → ascii_eqb a ":" = false.
Proof.
  destruct a as [[] [] [] [] [] [] [] []]; vm_compute; intros H;
    first [discriminate H | done].
Qed.

(** The scheme test of [urlsplit] on a string that begins with a scheme
    and a colon. *)
Lemma split_scheme_found head rest default :
  Html.nonempty head = true → starts_with_alpha head = true →
  all_chars is_scheme_char head = true →
  split_scheme default (head +:+ String ":" rest) = (lower head, rest).
Proof.
  intros Hne Halpha Hall. unfold split_scheme.
  assert (Hno : contains ":" head = false).
  { by apply (contains_none is_scheme_char); [apply scheme_char_not_colon|]. }
  rewrite contains_app, contains_cons, ascii_eqb_refl, orb_true_r.
  by rewrite (split1_app _ _ _ Hno), Hne, Halpha, Hall.
Qed.

Lemma splitnetloc_cons a s :
  splitnetloc (String a s) =
  if ascii_eqb a "/" || ascii_eqb a "?" || ascii_eqb a "#"
  then (EmptyString, String a s)
  else let '(h, t) := splitnetloc s in (String a h, t).
Proof. reflexivity. Qed.

Lemma splitnetloc_host host rest :
  all_chars name_char host = true →
  splitnetloc (host +:+ String "/" rest) = (host, String "/" rest).
Proof.
  induction host as [|a host IH].
  - intros _. change (splitnetloc (String "/" rest) = (EmptyString, String "/" rest)).
    by rewrite splitnetloc_cons.
  - rewrite all_chars_cons. intros [Ha Hs]%andb_true_iff.
    change (splitnetloc (String a (host +:+ String "/" rest))
            = (String a host, String "/" rest)).
    destruct (name_char_not_delimiter a Ha) as (H1 & _ & H3 & H4 & _).
    by rewrite splitnetloc_cons, H1, H3, H4, (IH Hs).
Qed.

(** [urlparse] on a scheme, a host and a path free of '?', '#' and ';'. *)
Lemma urlparse_absolute head host p default :
  Html.nonempty head = true → starts_with_alpha head = true →
  all_chars is_scheme_char head = true →
  all_chars name_char host = true →
  contains "#" p = false → contains "?" p = false → contains ";" p = false →
  urlparse (head +:+ String ":" (String "/" (String "/" (host +:+ String "/" p))))
    default
  = {| scheme := lower head; netloc := host; path := String "/" p;
       params := EmptyString; query := EmptyString; fragment := EmptyString |}.
Proof.
  intros Hne Halpha Hall Hhost Hfrag Hquery Hparams. unfold urlparse.
  rewrite (split_scheme_found _ _ _ Hne Halpha Hall). cbv beta iota zeta.
  rewrite (splitnetloc_host _ _ Hhost).
  rewrite (split1_absent "#" (String "/" p)) by (by rewrite contains_cons, Hfrag).
  rewrite (split1_absent "?" (String "/" p)) by (by rewrite contains_cons, Hquery).
  replace (contains ";" (String "/" p)) with false
    by (by rewrite contains_cons, Hparams).
  by rewrite andb_false_r.
Qed.

(** [urlparse] on a reference with no scheme, no host, no query and no
    fragment. *)
Lemma urlparse_path a r default :
  ascii_eqb a "/" = false →
  contains ":" (String a r) = false → contains "#" (String a r) = false →
  contains "?" (String a r) = false → contains ";" (String a r) = false →
  urlparse (String a r) default
  = {| scheme := default; netloc := EmptyString; path := String a r;
       params := EmptyString; query := EmptyString; fragment := EmptyString |}.
Proof.
  intros Ha Hcolon Hfrag Hquery Hparams. unfold urlparse, split_scheme.
  rewrite Hcolon.
  assert (Hmatch : match String a r with
                   | String "/" (String "/" rest) => splitnetloc rest
                   | _ => (EmptyString, String a r)
                   end = (EmptyString, String a r)).
  { destruct a as [[] [] [] [] [] [] [] []]; try reflexivity.
    by vm_compute in Ha. }
  rewrite Hmatch, (split1_absent _ _ Hfrag), (split1_absent _ _ Hquery), Hparams.
  by rewrite andb_false_r.
Qed.

Lemma directories_cons d dirs :
  directories (d :: dirs) = d +:+ String "/" (directories dirs).
Proof. reflexivity. Qed.

Lemma directories_no_delimiter dirs c :
  Forall (λ d, is_name d = true) dirs →
  c = ":"%char ∨ c = "?"%char ∨ c = "#"%char ∨ c = ";"%char →
  contains c (directories dirs) = false.
Proof.
  intros Hdirs Hc. induction Hdirs as [|d dirs Hd _ IH]; [done|].
  rewrite directories_cons, contains_app, contains_cons, IH, orb_false_r.
  destruct (is_name_spec d Hd) as (_ & Hall & _).
  rewrite (name_no_delimiter d c Hall) by (by right).
  by destruct Hc as [->|[->|[->| ->]]].
Qed.

Lemma split_directories dirs :
  Forall (λ d, is_name d = true) dirs →
  split "/" (directories dirs) = dirs ++ [EmptyString].
Proof.
  induction 1 as [|d dirs Hd _ IH]; [done|].
  destruct (is_name_spec d Hd) as (_ & Hall & _).
  rewrite directories_cons, split_app, IH; [done|].
  apply name_no_delimiter; [done|by left].
Qed.

Lemma ups_S k : ups (S k) = ".." +:+ String "/" (ups k).
Proof. reflexivity. Qed.

Lemma ups_no_delimiter k c :
  c = ":"%char ∨ c = "?"%char ∨ c = "#"%char ∨ c = ";"%char →
  contains c (ups k) = false.
Proof.
  intros Hc. induction k as [|k IH]; [done|].
  rewrite ups_S, contains_app, (contains_cons c "/"), IH.
  by destruct Hc as [->|[->|[->| ->]]].
Qed.

Lemma split_ups k name :
  contains "/" name = false →
  split "/" (ups k +:+ name) = replicate k ".." ++ [name].
Proof.
  intros Hname. induction k as [|k IH]; [by apply split_absent|].
  rewrite ups_S, append_assoc.
  change (String "/" (ups k) +:+ name) with (String "/" (ups k +:+ name)).
  by rewrite split_app, IH.
Qed.

(** A reference of steps up and a name begins with a character that is
    not a slash. *)
Lemma ups_name_head k name :
  is_name name = true →
  ∃ a r, ups k +:+ name = String a r ∧ ascii_eqb a "/" = false.
Proof.
  intros Hname. destruct k as [|k].
  - destruct (is_name_spec name Hname) as (Hne & Hall & _).
    destruct name as [|a r]; [done|]. exists a, r. split; [done|].
    rewrite all_chars_cons in Hall. apply andb_true_iff in Hall as [Ha _].
    by destruct (name_char_not_delimiter a Ha).
  - by eexists _, _.
Qed.

Lemma resolve_cons seg rest acc :
  resolve (seg :: rest) acc =
  if bool_decide (seg = "..") then resolve rest (removelast acc)
  else if bool_decide (seg = ".") then resolve rest acc
  else resolve rest (acc ++ [seg]).
Proof. reflexivity. Qed.

(** Names are appended to the resolved path, and a step up takes its
    last segment off. *)
Lemma resolve_names l rest :
  Forall (λ d, is_name d = true) l →
  ∀ acc, resolve (l ++ rest) acc = resolve rest (acc ++ l).
Proof.
  induction 1 as [|d l Hd _ IH]; intros acc; [by rewrite app_nil_r|].
  destruct (is_name_spec d Hd) as (_ & _ & H1 & H2).
  change ((d :: l) ++ rest) with (d :: (l ++ rest)).
  rewrite resolve_cons, (bool_decide_eq_false_2 _ H1), (bool_decide_eq_false_2 _ H2).
  rewrite IH. by rewrite <- app_assoc.
Qed.

Lemma resolve_ups k rest :
  ∀ acc, resolve (replicate k ".." ++ rest) acc
         = resolve rest (take (length acc - k) acc).
Proof.
  induction k as [|k IH]; intros acc.
  - by rewrite Nat.sub_0_r, firstn_all.
  - change (replicate (S k) ".." ++ rest) with (".." :: (replicate k ".." ++ rest)).
    rewrite resolve_cons, bool_decide_eq_true_2 by done.
    rewrite IH, removelast_firstn_len, length_take, take_take.
    f_equal. f_equal. lia.
Qed.

Lemma join_cons sep p q rest :
  join sep (p :: q :: rest) = p +:+ sep +:+ join sep (q :: rest).
Proof. reflexivity. Qed.

Lemma join_directories ds name :
  join "/" (ds ++ [name]) = directories ds +:+ name.
Proof.
  induction ds as [|d ds IH]; [done|].
  change ((d :: ds) ++ [name]) with (d :: (ds ++ [name])).
  destruct (ds ++ [name]) as [|q rest] eqn:E; [by destruct ds|].
  rewrite join_cons, IH, directories_cons, append_assoc.
  reflexivity.
Qed.

Lemma nonempty_append s t : Html.nonempty s = true → Html.nonempty (s +:+ t) = true.
Proof. by destruct s. Qed.

Lemma drop_inner_empty_snoc first inner final :
  drop_inner_empty (first :: inner ++ [final])
  = first :: List.filter Html.nonempty inner ++ [final].
Proof.
  unfold drop_inner_empty.
  destruct (inner ++ [final]) as [|x l] eqn:E; [by destruct inner|].
  by rewrite <- E, removelast_last, last_last.
Qed.

Lemma filter_names dirs :
  Forall (λ d, is_name d = true) dirs → List.filter Html.nonempty dirs = dirs.
Proof.
  induction 1 as [|d dirs Hd _ IH]; [done|]. simpl.
  destruct (is_name_spec d Hd) as (Hne & _). rewrite IH. by destruct d.
Qed.

Lemma filter_ups k : List.filter Html.nonempty (replicate k "..") = replicate k "..".
Proof. induction k as [|k IH]; [done|]. simpl. by rewrite IH. Qed.

Lemma starts_with_slash_cons a r :
  ascii_eqb a "/" = false → starts_with_slash (String a r) = false.
Proof.
  intros Ha. destruct a as [[] [] [] [] [] [] [] []]; try reflexivity.
  by vm_compute in Ha.
Qed.

(** Relative resolution against a directory: against the base
    [scheme://host/d1/.../dn/], a reference that goes [k] directories up
    and then names a file or directory is that name in the directory
    [d1/.../d(n-k)]. *)
Lemma urljoin_plain_relative head host dirs k name :
  Html.nonempty head = true → starts_with_alpha head = true →
  all_chars is_scheme_char head = true → lower head = head →
  mem head uses_relative = true → mem head uses_netloc = true →
  Html.nonempty host = true → all_chars name_char host = true →
  Forall (λ d, is_name d = true) dirs →
  is_name name = true →
  (k ≤ length dirs)%nat →
  urljoin_plain (head +:+ "://" +:+ host +:+ "/" +:+ directories dirs)
    (ups k +:+ name)
  = head +:+ "://" +:+ host +:+ "/"
    +:+ directories (take (length dirs - k) dirs) +:+ name.
Proof.
  intros Hne Halpha Hscheme Hlower Hrel Hnet Hhost_ne Hhost Hdirs Hname Hk.
  destruct (is_name_spec name Hname) as (Hname_ne & Hname_all & Hname1 & Hname2).
  destruct (ups_name_head k name Hname) as (a & r & Hu & Ha).
  assert (Hno : ∀ c, c = ":"%char ∨ c = "?"%char ∨ c = "#"%char ∨ c = ";"%char →
                     contains c (ups k +:+ name) = false).
  { intros c Hc. rewrite contains_app, (ups_no_delimiter k c Hc).
    apply name_no_delimiter; [done|by right]. }
  change (head +:+ "://" +:+ host +:+ "/" +:+ directories dirs)
    with (head +:+ String ":" (String "/" (String "/"
            (host +:+ String "/" (directories dirs))))).
  assert (Hb : urlparse (head +:+ String ":" (String "/" (String "/"
                          (host +:+ String "/" (directories dirs))))) EmptyString
               = {| scheme := head; netloc := host;
                    path := String "/" (directories dirs);
                    params := EmptyString; query := EmptyString;
                    fragment := EmptyString |}).
  { rewrite urlparse_absolute, Hlower; try done;
      apply directories_no_delimiter; auto. }
  assert (Hp : urlparse (ups k +:+ name) head
               = {| scheme := head; netloc := EmptyString; path := ups k +:+ name;
                    params := EmptyString; query := EmptyString;
                    fragment := EmptyString |}).
  { pose proof Hno as Hno'. rewrite Hu in Hno' |- *.
    rewrite urlparse_path; auto. }
  assert (Hbase : split "/" (String "/" (directories dirs))
                  = EmptyString :: dirs ++ [EmptyString]).
  { by rewrite split_cons, ascii_eqb_refl, split_directories. }
  assert (Hlast : List.last (EmptyString :: dirs ++ [EmptyString]) EmptyString
                  = EmptyString).
  { by rewrite app_comm_cons, last_last. }
  assert (Hstart : starts_with_slash (ups k +:+ name) = false).
  { rewrite Hu. by apply starts_with_slash_cons. }
  assert (Hsegments :
            drop_inner_empty ((EmptyString :: dirs ++ [EmptyString])
                              ++ replicate k ".." ++ [name])
            = EmptyString :: dirs ++ replicate k ".." ++ [name]).
  { replace ((EmptyString :: dirs ++ [EmptyString]) ++ replicate k ".." ++ [name])
      with (EmptyString :: (dirs ++ [EmptyString] ++ replicate k "..") ++ [name])
      by (simpl; by rewrite <- !app_assoc).
    rewrite drop_inner_empty_snoc, !List.filter_app, (filter_names dirs Hdirs), filter_ups.
    simpl. by rewrite <- app_assoc. }
  assert (Hresolved :
            resolve (EmptyString :: dirs ++ replicate k ".." ++ [name]) []
            = EmptyString :: take (length dirs - k) dirs ++ [name]).
  { rewrite resolve_cons, !bool_decide_eq_false_2 by done.
    rewrite (resolve_names dirs _ Hdirs), resolve_ups, resolve_cons.
    rewrite (bool_decide_eq_false_2 _ Hname1), (bool_decide_eq_false_2 _ Hname2).
    simpl. replace (S (length dirs) - k)%nat with (S (length dirs - k)) by lia.
    done. }
  assert (Hfinal : List.last (EmptyString :: dirs ++ replicate k ".." ++ [name])
                     EmptyString = name).
  { by rewrite app_comm_cons, app_assoc, last_last. }
  assert (Hjoined : join "/" (EmptyString :: take (length dirs - k) dirs ++ [name])
                    = String "/" (directories (take (length dirs - k) dirs) +:+ name)).
  { destruct (take (length dirs - k) dirs ++ [name]) as [|q rest] eqn:E;
      [by destruct (take (length dirs - k) dirs)|].
    by rewrite join_cons, <- E, join_directories. }
  unfold urljoin_plain. rewrite Hb. cbn [scheme netloc path params query fragment].
  rewrite Hp. cbn [scheme netloc path params query fragment].
  rewrite Hbase, Hlast, Hstart, (split_ups k name)
    by (apply name_no_delimiter; [done|by left]).
  change (Html.nonempty EmptyString) with false. cbv iota.
  rewrite Hsegments, Hresolved, Hfinal.
  rewrite (bool_decide_eq_false_2 _ Hname1), (bool_decide_eq_false_2 _ Hname2).
  cbn [orb]. rewrite Hjoined.
  rewrite (bool_decide_eq_true_2 (head = head)) by done.
  rewrite Hrel, Hnet, (nonempty_append head _ Hne).
  replace (Html.nonempty (ups k +:+ name)) with true by (by rewrite Hu).
  cbn [negb orb andb Html.nonempty].
  unfold urlunparse. cbn [scheme netloc path params query fragment Html.nonempty].
  rewrite Hhost_ne, Hne. cbn [orb andb negb starts_with_slash].
  reflexivity.
Qed.

Lemma all_chars_app p s t :
  all_chars p (s +:+ t) = all_chars p s && all_chars p t.
Proof.
  induction s as [|a s IH]; [done|].
  change (all_chars p (String a (s +:+ t)) = all_chars p (String a s) && all_chars p t).
  rewrite !all_chars_cons, IH. by rewrite andb_assoc.
Qed.

Lemma name_char_plain a : name_char a = true → plain_char a = true.
Proof.
  destruct a as [[] [] [] [] [] [] [] []]; vm_compute; intros H;
    first [discriminate H | done].
Qed.

Lemma name_plain s : all_chars name_char s = true → plain s = true.
Proof.
  unfold plain. induction s as [|a s IH]; [done|].
  rewrite !all_chars_cons. intros [Ha Hs]%andb_true_iff.
  by rewrite (name_char_plain a Ha), (IH Hs).
Qed.

Lemma directories_plain dirs :
  Forall (λ d, is_name d = true) dirs → plain (directories dirs) = true.
Proof.
  induction 1 as [|d dirs Hd _ IH]; [done|].
  destruct (is_name_spec d Hd) as (_ & Hall & _).
  pose proof (name_plain d Hall) as Hplain.
  rewrite directories_cons. unfold plain in *.
  by rewrite all_chars_app, all_chars_cons, Hplain, IH.
Qed.

Lemma ups_plain k : plain (ups k) = true.
Proof.
  induction k as [|k IH]; [done|]. unfold plain in *.
  by rewrite ups_S, all_chars_app, (all_chars_cons _ "/"), IH.
Qed.

(** The same for [urljoin] itself, over "http" and "https": the
    arguments are of the class of [plain], whatever the library does
    outside it. *)
Lemma urljoin_relative urljoin_other head host dirs k name :
  head = "http" ∨ head = "https" →
  is_name host = true →
  Forall (λ d, is_name d = true) dirs →
  is_name name = true →
  (k ≤ length dirs)%nat →
  urljoin urljoin_other (head +:+ "://" +:+ host +:+ "/" +:+ directories dirs)
    (ups k +:+ name)
  = Ok (head +:+ "://" +:+ host +:+ "/"
        +:+ directories (take (length dirs - k) dirs) +:+ name).
Proof.
  intros Hhead Hhost Hdirs Hname Hk.
  destruct (is_name_spec host Hhost) as (Hhost_ne & Hhost_all & _).
  destruct (is_name_spec name Hname) as (Hname_ne & Hname_all & _).
  destruct (ups_name_head k name Hname) as (a & r & Hu & _).
  assert (Hfacts : Html.nonempty head = true ∧ starts_with_alpha head = true
                   ∧ all_chars is_scheme_char head = true ∧ lower head = head
                   ∧ mem head uses_relative = true ∧ mem head uses_netloc = true
                   ∧ plain head = true).
  { destruct Hhead as [->| ->]; by vm_compute. }
  destruct Hfacts as (H1 & H2 & H3 & H4 & H5 & H6 & H7).
  unfold urljoin.
  rewrite (nonempty_append head _ H1).
  replace (Html.nonempty (ups k +:+ name)) with true by (by rewrite Hu).
  assert (Hplain : plain (head +:+ "://" +:+ host +:+ "/" +:+ directories dirs)
                   && plain (ups k +:+ name) = true).
  { pose proof (ups_plain k) as P1. pose proof (name_plain host Hhost_all) as P2.
    pose proof (name_plain name Hname_all) as P3.
    pose proof (directories_plain dirs Hdirs) as P4.
    unfold plain in *. by rewrite !all_chars_app, H7, P1, P2, P3, P4. }
  cbn [negb]. rewrite Hplain. f_equal.
  apply urljoin_plain_relative; try done. by destruct host.
Qed.

End UrllibFacts.

(** ** The scraper *)

Module ScraperFacts.
Import Html Scraper.

Ltac in_list :=
  repeat first [apply list_elem_of_here | apply list_elem_of_further].

Ltac unfold_M :=
  unfold mbind, M_bind, bind, ret, raise, print, emit, ask, of_outcome,
    try_except, any_Exception in *.

Section Proofs.

Context {World : Type}.
Variable session_get : string → World → outcome response * World.
Variable BeautifulSoup : string → outcome node.
Variable select : node → string → outcome (list node).
Variable urljoin_other : string → string → outcome string.

Local Abbreviation get_page_loop := (get_page_loop session_get).
Local Abbreviation get_page := (get_page session_get).
Local Abbreviation fetch_soup := (fetch_soup session_get BeautifulSoup).
Local Abbreviation scrape_fields := (scrape_fields (World := World) select).
Local Abbreviation scrape_basic_data := (scrape_basic_data session_get BeautifulSoup select).
Local Abbreviation scrape_table := (scrape_table session_get BeautifulSoup select).
Local Abbreviation resolve_href := (resolve_href urljoin_other).
Local Abbreviation collect_links := (collect_links urljoin_other).
Local Abbreviation scrape_links :=
  (scrape_links session_get BeautifulSoup select urljoin_other).

(** *** scrape_basic_data *)

Lemma field_value_cases (els : list node) :
  (els = [] → field_value els = VNone)
  ∧ (∀ el, els = [el] → field_value els = VStr (get_text_strip el))
  ∧ ((2 ≤ length els)%nat → field_value els = VList (map get_text_strip els)).
Proof.
  split; [by intros ->|]. split; [by intros el ->|].
  destruct els as [|a [|b l]]; simpl; [lia..|done].
Qed.

Lemma scrape_fields_spec soup (items : list (string * string)) :
  ∀ (data : gmap string value) (s : state World),
    (∀ field sel, (field, sel) ∈ items → ∃ els, select soup sel = Ok els) →
    ∃ data',
      scrape_fields soup items data s = (Ok data', s)
      ∧ (∀ field, field ∉ items.*1 → data' !! field = data !! field)
      ∧ (∀ field, field ∈ items.*1 → is_Some (data' !! field))
      ∧ (NoDup items.*1 → ∀ field sel els,
           (field, sel) ∈ items → select soup sel = Ok els →
           data' !! field = Some (field_value els)).
Proof.
  induction items as [|[f sel] items IH]; intros data s Hok.
  - exists data. split; [done|]. split; [done|]. split.
    + intros field H. by apply elem_of_nil in H.
    + intros _ field sel' els H. by apply elem_of_nil in H.
  - destruct (Hok f sel) as [els Hels]; [left|].
    destruct (IH (<[f := field_value els]> data) s) as (data' & Hrun & Hout & Hin & Hval).
    { intros field sel' H. apply (Hok field sel'). by right. }
    exists data'. split; [|split; [|split]].
    + simpl. unfold_M. rewrite Hels. exact Hrun.
    + intros field Hnot. rewrite fmap_cons in Hnot. simpl in Hnot.
      apply not_elem_of_cons in Hnot as [Hne Hnot].
      rewrite (Hout field Hnot). by rewrite lookup_insert_ne.
    + intros field Hfield. rewrite fmap_cons in Hfield. simpl in Hfield.
      destruct (decide (field ∈ items.*1)) as [Hmem|Hnot]; [by apply Hin|].
      apply elem_of_cons in Hfield as [->|Hfield]; [|done].
      rewrite (Hout f Hnot), lookup_insert_eq. by eexists.
    + intros Hnd field sel' els' Hmem Hsel.
      rewrite fmap_cons in Hnd. simpl in Hnd. apply NoDup_cons in Hnd as [Hf Hnd].
      apply elem_of_cons in Hmem as [Heq|Hmem].
      * injection Heq as -> ->. rewrite (Hout f Hf), lookup_insert_eq.
        congruence.
      * by apply (Hval Hnd field sel').
Qed.

(** The loop stops at the first selector that [select] rejects. *)
Lemma scrape_fields_raises soup pre field sel post e :
  ∀ (data : gmap string value) (s : state World),
    (∀ f sl, (f, sl) ∈ pre → ∃ els, select soup sl = Ok els) →
    select soup sel = Raised e →
    scrape_fields soup (pre ++ (field, sel) :: post) data s = (Raised e, s).
Proof.
  induction pre as [|[f sl] pre IH]; intros data s Hok Hsel; simpl; unfold_M.
  - by rewrite Hsel.
  - destruct (Hok f sl) as [els ->]; [left|].
    apply IH; [|done]. intros f' sl' H. apply (Hok f' sl'). by right.
Qed.

Lemma append_empty (s : string) : s +:+ EmptyString = s.
Proof.
  induction s as [|a s IH]; [done|].
  change (String a (s +:+ EmptyString) = String a s). by f_equal.
Qed.

(** On an element that holds one text node, [get_text(strip=True)] is
    the trimmed text of the element. *)
Lemma get_text_strip_one_text name attrs t :
  get_text_strip (Tag name attrs [Text t]) = trimmed_text_content (Tag name attrs [Text t]).
Proof.
  unfold get_text_strip, trimmed_text_content. simpl. rewrite append_empty.
  destruct (nonempty (Text.strip t)) eqn:E; simpl.
  - apply append_empty.
  - by destruct (Text.strip t).
Qed.

(** C1, as the code has it: with the page fetched and parsed,
    [scrape_basic_data] returns a record when every selector of the map
    is well formed.  The record has exactly the declared fields, and a
    field's value goes by the number of matches of its selector: none
    gives [None], one gives [get_text(strip=True)] of that element as a
    string, two or more give the list of that text of every match, as
    long as the list of matches and in its order.  When [select] raises
    on a selector, the error is printed and [None] comes back, with no
    field at all.  [get_text(strip=True)] trims every text node of the
    element and joins them: it has no white space at either end, and it
    is the element's trimmed text when the element holds one text
    node. *)
Theorem scrape_basic_data_by_match_count
    (url : string) (selectors : list (string * string)) (s s1 : state World)
    (resp : response) (soup : node) :
  NoDup selectors.*1 →
  get_page url 3 s = (Ok (Some resp), s1) →
  BeautifulSoup (content resp) = Ok soup →
  ((∀ field sel, (field, sel) ∈ selectors → ∃ els, select soup sel = Ok els) →
   ∃ data,
     scrape_basic_data url selectors s = (Ok (Some data), s1)
     ∧ (∀ field, is_Some (data !! field) ↔ field ∈ selectors.*1)
     ∧ ∀ field sel els,
         (field, sel) ∈ selectors → select soup sel = Ok els →
         (els = [] → data !! field = Some VNone)
         ∧ (∀ el, els = [el] →
              data !! field = Some (VStr (get_text_strip el))
              ∧ Text.trimmed (get_text_strip el))
         ∧ ((2 ≤ length els)%nat →
              ∃ texts,
                data !! field = Some (VList texts)
                ∧ length texts = length els
                ∧ ∀ i el, els !! i = Some el →
                    texts !! i = Some (get_text_strip el)
                    ∧ Text.trimmed (get_text_strip el)))
  ∧ (∀ pre field sel post e,
       selectors = pre ++ (field, sel) :: post →
       (∀ f sl, (f, sl) ∈ pre → ∃ els, select soup sl = Ok els) →
       select soup sel = Raised e →
       scrape_basic_data url selectors s =
         (Ok None, {| world := world s1;
                      log := log s1 ++ [EvPrint (MsgErrorScraping url e)] |}))
  ∧ (∀ name attrs t,
       get_text_strip (Tag name attrs [Text t])
       = trimmed_text_content (Tag name attrs [Text t])).
Proof.
  intros Hnd Hget Hsoup. split; [|split; [|apply get_text_strip_one_text]].
  - intros Hok.
    destruct (scrape_fields_spec soup selectors ∅ s1 Hok)
      as (data & Hrun & Hout & Hin & Hval).
    exists data. split; [|split].
    + unfold Scraper.scrape_basic_data, Scraper.fetch_soup, content_of. unfold_M.
      rewrite Hget, Hsoup, Hrun. done.
    + intros field. split; [|apply Hin].
      intros Hsome. destruct (decide (field ∈ selectors.*1)) as [|Hnot]; [done|].
      rewrite (Hout field Hnot), lookup_empty in Hsome. by destruct Hsome.
    + intros field sel els Hmem Hsel.
      pose proof (Hval Hnd field sel els Hmem Hsel) as Hfield.
      destruct (field_value_cases els) as (H0 & H1 & H2).
      split; [|split].
      * intros E. by rewrite Hfield, (H0 E).
      * intros el E. rewrite Hfield, (H1 el E).
        split; [done|apply TextFacts.get_text_strip_trimmed].
      * intros Hlen. exists (map get_text_strip els).
        rewrite Hfield, (H2 Hlen). split; [done|]. split; [apply length_map|].
        intros i el Hi. split; [|apply TextFacts.get_text_strip_trimmed].
        change (map get_text_strip els) with (get_text_strip <$> els).
        by rewrite list_lookup_fmap, Hi.
  - intros pre field sel post e -> Hok Hsel.
    pose proof (scrape_fields_raises soup pre field sel post e ∅ s1 Hok Hsel) as Hrun.
    unfold Scraper.scrape_basic_data, Scraper.fetch_soup, content_of. unfold_M.
    by rewrite Hget, Hsoup, Hrun.
Qed.

(** *** get_page *)

(** One iteration of the loop of [get_page], by what the session
    answers. *)
Lemma get_page_loop_step url retries n attempt (s : state World) :
  get_page_loop url retries (S n) attempt s =
  let tr := log s ++ [EvDelay; EvGet url] in
  match session_get url (world s) with
  | (Ok resp, w) =>
      if is_error_status (status_code resp)
      then after_failure session_get url retries n attempt
             (HTTPError (status_code resp)) w tr
      else (Ok (Some resp), {| world := w; log := tr |})
  | (Raised e, w) =>
      if is_RequestException e
      then after_failure session_get url retries n attempt e w tr
      else (Raised e, {| world := w; log := tr |})
  end.
Proof.
  simpl. unfold attempt_get, raise_for_status, after_failure. unfold_M. simpl.
  rewrite <- ?app_assoc. simpl.
  destruct (session_get url (world s)) as [[resp|e] w]; simpl.
  - destruct (is_error_status (status_code resp)); simpl; [|done].
    by destruct (attempt =? retries - 1).
  - destruct (is_RequestException e); simpl; [|done].
    by destruct (attempt =? retries - 1).
Qed.

Lemma requests_app tr1 tr2 : requests (tr1 ++ tr2) = requests tr1 ++ requests tr2.
Proof. apply omap_app. Qed.

Lemma backoffs_app tr1 tr2 : backoffs (tr1 ++ tr2) = backoffs tr1 ++ backoffs tr2.
Proof. apply omap_app. Qed.

(** A transport failure at every attempt: the loop makes each of its
    attempts, sleeps 2^attempt after every one but the last, and raises
    the last failure. *)
Lemma get_page_loop_always_failing url retries :
  (∀ w, ∃ e w', session_get url w = (Raised e, w') ∧ is_RequestException e = true) →
  ∀ n attempt (s : state World),
    attempt + Z.of_nat (S n) = retries → 0 ≤ attempt →
    ∃ e s' tr,
      get_page_loop url retries (S n) attempt s = (Raised e, s')
      ∧ is_RequestException e = true
      ∧ log s' = log s ++ tr
      ∧ requests tr = replicate (S n) url
      ∧ backoffs tr = map (λ k, 2 ^ (attempt + Z.of_nat k)) (seq 0 n).
Proof.
  intros Hfail. induction n as [|n IH]; intros attempt s Hn Hpos;
    rewrite get_page_loop_step; cbv zeta;
    destruct (Hfail (world s)) as (e & w' & -> & He); rewrite He;
    unfold after_failure.
  - replace (attempt =? retries - 1) with true by lia.
    eexists e, _, _. split; [done|]. split; [done|]. simpl.
    split; [by rewrite <- app_assoc|]. done.
  - replace (attempt =? retries - 1) with false by lia.
    edestruct (IH (attempt + 1)) as (e' & s' & tr & -> & He' & Hlog & Hreq & Hback);
      [lia..|].
    eexists e', s', _. split; [done|]. split; [done|].
    rewrite Hlog. simpl. split; [by rewrite <- !app_assoc|].
    rewrite !requests_app, !backoffs_app, Hreq, Hback.
    split; [done|]. simpl. rewrite Z.add_0_r. f_equal.
    rewrite <- seq_shift, map_map. apply map_ext. intros k. f_equal. lia.
Qed.

(** C3: against a URL whose every request fails in transport,
    [get_page] with [retries=3] makes three requests and no more, sleeps
    2^0 seconds after the first failure and 2^1 after the second
    ([attempt] counting from 0, as the loop variable does), and the third
    failure is raised to the caller. *)
Theorem get_page_three_attempts url (s : state World) :
  (∀ w, ∃ e w', session_get url w = (Raised e, w') ∧ is_RequestException e = true) →
  ∃ e1 e2 e3 w',
    get_page url 3 s =
      (Raised e3,
       {| world := w';
          log := log s ++
            [EvDelay; EvGet url; EvPrint (MsgAttemptFailed 1 url e1); EvBackoff (2 ^ 0);
             EvDelay; EvGet url; EvPrint (MsgAttemptFailed 2 url e2); EvBackoff (2 ^ 1);
             EvDelay; EvGet url; EvPrint (MsgAttemptFailed 3 url e3)] |})
    ∧ is_RequestException e3 = true.
Proof.
  intros Hfail. unfold Scraper.get_page.
  change (Z.to_nat 3) with 3%nat.
  destruct (Hfail (world s)) as (e1 & w1 & H1 & He1).
  destruct (Hfail w1) as (e2 & w2 & H2 & He2).
  destruct (Hfail w2) as (e3 & w3 & H3 & He3).
  exists e1, e2, e3, w3. split; [|done].
  rewrite get_page_loop_step. cbv zeta. rewrite H1, He1. unfold after_failure.
  change (0 =? 3 - 1) with false. cbv iota.
  rewrite get_page_loop_step. cbv zeta. simpl world. rewrite H2, He2.
  unfold after_failure. change (0 + 1 =? 3 - 1) with false. cbv iota.
  rewrite get_page_loop_step. cbv zeta. simpl world. rewrite H3, He3.
  unfold after_failure. change (0 + 1 + 1 =? 3 - 1) with true. cbv iota.
  simpl log. rewrite <- !app_assoc. done.
Qed.

(** [scrape_basic_data] on a URL whose every request fails in transport:
    the failure of [get_page] is caught, reported by "Error scraping ...",
    and [None] comes back instead of an exception. *)
Lemma scrape_basic_data_unreachable url selectors (s : state World) :
  (∀ w, ∃ e w', session_get url w = (Raised e, w') ∧ is_RequestException e = true) →
  ∃ e s1,
    scrape_basic_data url selectors s =
      (Ok None, {| world := world s1; log := log s1 ++ [EvPrint (MsgErrorScraping url e)] |})
    ∧ get_page url 3 s = (Raised e, s1).
Proof.
  intros Hfail.
  destruct (get_page_loop_always_failing url 3 Hfail 2 0 s) as (e & s1 & tr & Hrun & _);
    [done..|].
  exists e, s1. split; [|exact Hrun].
  unfold Scraper.scrape_basic_data, Scraper.fetch_soup, Scraper.get_page. unfold_M.
  change (Z.to_nat 3) with 3%nat. by rewrite Hrun.
Qed.

(** A response that comes back from [get_page] does not have an error
    status. *)
Lemma get_page_loop_returns url retries n :
  ∀ attempt (s s' : state World) r,
    get_page_loop url retries n attempt s = (Ok (Some r), s') →
    is_error_status (status_code r) = false.
Proof.
  induction n as [|n IH]; intros attempt s s' r; [done|].
  rewrite get_page_loop_step. cbv zeta. unfold after_failure.
  destruct (session_get url (world s)) as [[resp|e] w].
  - destruct (is_error_status (status_code resp)) eqn:E.
    + destruct (attempt =? retries - 1); [done|]. apply IH.
    + by intros [= <- _].
  - destruct (is_RequestException e); [|done].
    destruct (attempt =? retries - 1); [done|]. apply IH.
Qed.

(** C4, as the code has it: a response whose status is from 400 to 599
    is a failure of the attempt, handled as a transport error is: the same
    message, then the failure is raised when the attempt was the last one,
    and otherwise the loop sleeps 2^attempt seconds and goes on; and
    [get_page] never hands such a response to its caller.  A response
    with any other status is returned by the attempt that received it,
    with no message and no sleep. *)
Theorem get_page_http_error url retries n attempt (s : state World) resp w :
  session_get url (world s) = (Ok resp, w) →
  400 ≤ status_code resp < 600 →
  let e := HTTPError (status_code resp) in
  let tr := log s ++ [EvDelay; EvGet url; EvPrint (MsgAttemptFailed (attempt + 1) url e)] in
  is_RequestException e = true
  ∧ get_page_loop url retries (S n) attempt s =
      (if attempt =? retries - 1 then (Raised e, {| world := w; log := tr |})
       else get_page_loop url retries n (attempt + 1)
              {| world := w; log := tr ++ [EvBackoff (2 ^ attempt)] |})
  ∧ (∀ retries' s0 s' r,
       get_page url retries' s0 = (Ok (Some r), s') →
       ¬ (400 ≤ status_code r < 600))
  ∧ ∀ url' retries' n' attempt' (s0 : state World) resp' w',
      session_get url' (world s0) = (Ok resp', w') →
      ¬ (400 ≤ status_code resp' < 600) →
      get_page_loop url' retries' (S n') attempt' s0 =
        (Ok (Some resp'), {| world := w'; log := log s0 ++ [EvDelay; EvGet url'] |})
      ∧ (1 ≤ retries' →
         get_page url' retries' s0 =
           (Ok (Some resp'), {| world := w'; log := log s0 ++ [EvDelay; EvGet url'] |})).
Proof.
  intros Hget Hstatus e tr. split; [done|]. split; [|split].
  - rewrite get_page_loop_step. cbv zeta. rewrite Hget.
    replace (is_error_status (status_code resp)) with true
      by (unfold is_error_status; lia).
    unfold after_failure. subst tr e. rewrite <- !app_assoc. done.
  - intros retries' s0 s' r Hr Hbad.
    apply get_page_loop_returns in Hr. unfold is_error_status in Hr. lia.
  - intros url' retries' n' attempt' s0 resp' w' Hget' Hok.
    assert (Hstep : ∀ m a, get_page_loop url' retries' (S m) a s0 =
              (Ok (Some resp'),
               {| world := w'; log := log s0 ++ [EvDelay; EvGet url'] |})).
    { intros m a. rewrite get_page_loop_step. cbv zeta. rewrite Hget'.
      by replace (is_error_status (status_code resp')) with false
        by (unfold is_error_status; lia). }
    split; [apply Hstep|]. intros Hretries. unfold Scraper.get_page.
    destruct (Z.to_nat retries') as [|m] eqn:Hm; [lia|]. apply Hstep.
Qed.

(** The same step for a transport error. *)
Lemma get_page_transport_error url retries n attempt (s : state World) e w :
  session_get url (world s) = (Raised e, w) →
  is_RequestException e = true →
  let tr := log s ++ [EvDelay; EvGet url; EvPrint (MsgAttemptFailed (attempt + 1) url e)] in
  get_page_loop url retries (S n) attempt s =
    (if attempt =? retries - 1 then (Raised e, {| world := w; log := tr |})
     else get_page_loop url retries n (attempt + 1)
            {| world := w; log := tr ++ [EvBackoff (2 ^ attempt)] |}).
Proof.
  intros Hget He tr. rewrite get_page_loop_step. cbv zeta. rewrite Hget, He.
  unfold after_failure. subst tr. rewrite <- !app_assoc. done.
Qed.

(** *** scrape_table *)

Lemma table_rows_spec trs :
  ∀ rows, table_rows trs rows = rows ++ List.filter has_cells (map row_cells trs).
Proof.
  induction trs as [|row trs IH]; intros rows; simpl.
  - by rewrite app_nil_r.
  - rewrite IH. destruct (has_cells (row_cells row)); [|done].
    by rewrite <- app_assoc.
Qed.


(** *** scrape_links *)

Lemma link_record_fields href link :
  let r := link_record href link in
  r !! "url" = Some href
  ∧ r !! "text" = Some (get_text_strip link)
  ∧ r !! "title" = Some (get_default "title" EmptyString link)
  ∧ dom r = {[ "url"; "text"; "title" ]}.
Proof.
  unfold link_record. cbv zeta. split; [|split; [|split]].
  - by rewrite lookup_insert_eq.
  - rewrite lookup_insert_ne by done. by rewrite lookup_insert_eq.
  - rewrite !lookup_insert_ne by done. by rewrite lookup_singleton_eq.
  - rewrite !dom_insert_L, dom_singleton_L. set_solver.
Qed.

(** The loop either gives a record for every anchor with an [href], in
    order, or leaves with the exception of the first [href] on which
    [urljoin] raises. *)
Lemma collect_links_spec base_url anchors :
  ∀ links,
    (∃ found,
       collect_links base_url anchors links = Ok (links ++ found)
       ∧ Forall2
           (λ link r,
              ∃ href href',
                get "href" link = Some href ∧ href ≠ EmptyString
                ∧ resolve_href base_url href = Ok href'
                ∧ r = link_record href' link)
           (List.filter has_href anchors) found)
    ∨ (∃ e link href,
         collect_links base_url anchors links = Raised e
         ∧ link ∈ anchors ∧ get "href" link = Some href ∧ href ≠ EmptyString
         ∧ resolve_href base_url href = Raised e).
Proof.
  induction anchors as [|link anchors IH]; intros links; simpl.
  - left. exists []. rewrite app_nil_r. split; [done|constructor].
  - assert (Hskip : has_href link = false →
              (∃ found,
                 collect_links base_url anchors links = Ok (links ++ found)
                 ∧ Forall2
                     (λ link r,
                        ∃ href href',
                          get "href" link = Some href ∧ href ≠ EmptyString
                          ∧ resolve_href base_url href = Ok href'
                          ∧ r = link_record href' link)
                     (if has_href link then link :: List.filter has_href anchors
                      else List.filter has_href anchors) found)
              ∨ (∃ e link0 href,
                   collect_links base_url anchors links = Raised e
                   ∧ link0 ∈ link :: anchors ∧ get "href" link0 = Some href
                   ∧ href ≠ EmptyString ∧ resolve_href base_url href = Raised e)).
    { intros ->. destruct (IH links) as [H|(e & l0 & h & Hrun & Hin & H)]; [by left|].
      right. exists e, l0, h. split; [done|]. split; [by right|done]. }
    unfold has_href in *.
    destruct (get "href" link) as [href|] eqn:Hhref; [|by apply Hskip].
    destruct (nonempty href) eqn:Hne; [|by apply Hskip].
    assert (Hhref_ne : href ≠ EmptyString) by (by destruct href).
    destruct (resolve_href base_url href) as [href'|e] eqn:Hres.
    + destruct (IH (links ++ [link_record href' link]))
        as [(found & Hrun & Hall)|(e & l0 & h & Hrun & Hin & H)].
      * left. exists (link_record href' link :: found).
        rewrite Hrun, <- app_assoc. split; [done|].
        constructor; [|done]. by exists href, href'.
      * right. exists e, l0, h. split; [done|]. split; [by right|done].
    + right. exists e, link, href. split; [done|]. split; [left|done].
Qed.

(** C6, as the code has it: with the page fetched and parsed,
    [scrape_links] does not raise.  When [urljoin] takes every [href],
    there is one record for each matched anchor that has a non-empty
    [href], in the order of the anchors, and none for the others; a
    record has its three keys [url], [text] and [title], the [url] being
    the [href], resolved against [base_url] when there is one.  When
    [urljoin] raises on one [href], the error is printed and the empty
    list comes back, whatever the other anchors are.  Without a
    [base_url] the [href] is taken as it is; with one, and both made of
    printable ASCII characters without blanks and brackets, it is
    resolved as [Urllib.urljoin_plain] does: against an http or https
    directory, a reference that goes [k] directories up and then names a
    file is that file in the directory [k] levels above; the examples of
    RFC 3986, section 5.4, have their targets; and "page.html" against
    "https://x.com/dir/" is "https://x.com/dir/page.html". *)
Theorem scrape_links_result url link_selector base_url (s s1 : state World)
    soup anchors :
  fetch_soup url s = (Ok soup, s1) →
  select soup link_selector = Ok anchors →
  ∃ links s2,
    scrape_links url link_selector base_url s = (Ok links, s2)
    ∧ ((∀ link href,
          link ∈ anchors → get "href" link = Some href → href ≠ EmptyString →
          ∃ href', resolve_href base_url href = Ok href') →
       s2 = s1
       ∧ Forall2
           (λ link r,
              ∃ href href',
                get "href" link = Some href
                ∧ href ≠ EmptyString
                ∧ resolve_href base_url href = Ok href'
                ∧ r !! "url" = Some href'
                ∧ r !! "text" = Some (get_text_strip link)
                ∧ r !! "title" = Some (get_default "title" EmptyString link)
                ∧ dom r = {[ "url"; "text"; "title" ]})
           (List.filter has_href anchors) links)
    ∧ ((∃ link href e,
          link ∈ anchors ∧ get "href" link = Some href ∧ href ≠ EmptyString
          ∧ resolve_href base_url href = Raised e) →
       links = []
       ∧ ∃ e, s2 = {| world := world s1;
                      log := log s1 ++ [EvPrint (MsgErrorLinks url e)] |})
    ∧ (∀ href, base_url = None → resolve_href base_url href = Ok href)
    ∧ (∀ base href,
         base_url = Some base → base ≠ EmptyString → href ≠ EmptyString →
         Urllib.plain base = true → Urllib.plain href = true →
         resolve_href base_url href = Ok (Urllib.urljoin_plain base href))
    ∧ (∀ scheme host dirs k name,
         scheme = "http" ∨ scheme = "https" →
         Urllib.is_name host = true →
         Forall (λ d, Urllib.is_name d = true) dirs →
         Urllib.is_name name = true →
         (k ≤ length dirs)%nat →
         base_url = Some (scheme +:+ "://" +:+ host +:+ "/" +:+ Urllib.directories dirs) →
         resolve_href base_url (Urllib.ups k +:+ name)
         = Ok (scheme +:+ "://" +:+ host +:+ "/"
               +:+ Urllib.directories (take (length dirs - k) dirs) +:+ name))
    ∧ Forall (λ ex, Urllib.urljoin_plain Urllib.rfc3986_base ex.1 = ex.2)
        Urllib.rfc3986_examples
    ∧ Urllib.urljoin urljoin_other "https://x.com/dir/" "page.html"
      = Ok "https://x.com/dir/page.html".
Proof.
  intros Hfetch Hsel.
  assert (Hrest :
    (∀ href, base_url = None → resolve_href base_url href = Ok href)
    ∧ (∀ base href,
         base_url = Some base → base ≠ EmptyString → href ≠ EmptyString →
         Urllib.plain base = true → Urllib.plain href = true →
         resolve_href base_url href = Ok (Urllib.urljoin_plain base href))
    ∧ (∀ scheme host dirs k name,
         scheme = "http" ∨ scheme = "https" →
         Urllib.is_name host = true →
         Forall (λ d, Urllib.is_name d = true) dirs →
         Urllib.is_name name = true →
         (k ≤ length dirs)%nat →
         base_url = Some (scheme +:+ "://" +:+ host +:+ "/" +:+ Urllib.directories dirs) →
         resolve_href base_url (Urllib.ups k +:+ name)
         = Ok (scheme +:+ "://" +:+ host +:+ "/"
               +:+ Urllib.directories (take (length dirs - k) dirs) +:+ name))
    ∧ Forall (λ ex, Urllib.urljoin_plain Urllib.rfc3986_base ex.1 = ex.2)
        Urllib.rfc3986_examples
    ∧ Urllib.urljoin urljoin_other "https://x.com/dir/" "page.html"
      = Ok "https://x.com/dir/page.html").
  { split; [by intros href ->|]. split; [|split; [|split; [|by vm_compute]]].
    - intros base href -> Hb Hh Hpb Hph. unfold Scraper.resolve_href, Urllib.urljoin.
      destruct base; [done|]. destruct href; [done|]. simpl nonempty. cbv iota.
      simpl negb. cbv iota. by rewrite Hpb, Hph.
    - intros scheme host dirs k name Hscheme Hhost Hdirs Hname Hk ->.
      unfold Scraper.resolve_href.
      replace (nonempty (scheme +:+ "://" +:+ host +:+ "/" +:+ Urllib.directories dirs))
        with true by (by destruct Hscheme as [->| ->]).
      by apply UrllibFacts.urljoin_relative.
    - unfold Urllib.rfc3986_examples, Urllib.rfc3986_base.
      repeat (constructor; [vm_compute; reflexivity|]). constructor. }
  unfold Scraper.scrape_links. unfold_M. rewrite Hfetch, Hsel.
  destruct (collect_links_spec base_url anchors [])
    as [(found & Hrun & Hall)|(e & link & href & Hrun & Hin & Hhref & Hne & Hres)];
    rewrite Hrun.
  - exists found, s1. split; [done|]. split; [|split; [|exact Hrest]].
    + intros _. split; [done|]. eapply Forall2_impl; [exact Hall|].
      intros link r (href & href' & Hhref & Hne & Hres & ->).
      destruct (link_record_fields href' link) as (Hu & Ht & Hti & Hd).
      exists href, href'. by repeat split.
    + intros (link & href & e & Hin & Hhref & Hne & Hres). exfalso.
      assert (Hmem : link ∈ List.filter has_href anchors).
      { apply list_elem_of_In, filter_In. split; [by apply list_elem_of_In|].
        unfold has_href. rewrite Hhref. by destruct href. }
      apply list_elem_of_lookup_1 in Hmem as [i Hi].
      destruct (Forall2_lookup_l _ _ _ _ _ Hall Hi)
        as (r & _ & href0 & href' & Hh0 & _ & Hok & _).
      rewrite Hhref in Hh0. injection Hh0 as <-. by rewrite Hok in Hres.
  - eexists [], _. split; [done|]. split; [|split; [|exact Hrest]].
    + intros Hall. exfalso. destruct (Hall link href Hin Hhref Hne) as [href' H].
      by rewrite H in Hres.
    + intros _. split; [done|]. by exists e.
Qed.

End Proofs.

(** *** The pipeline *)

Section PipelineProofs.

Context {World : Type}.
Variable scraper_func : string → World → outcome scraped * World.
Variable now_isoformat : World → string * World.

Local Abbreviation scrape_loop := (scrape_loop scraper_func now_isoformat).
Local Abbreviation scrape_multiple_pages :=
  (scrape_multiple_pages scraper_func now_isoformat).
Local Abbreviation run_contract := (run_contract scraper_func now_isoformat).

Lemma stamp_lookup url t (d : gmap string value) :
  stamp url t d !! "scraped_url" = Some (VStr url)
  ∧ stamp url t d !! "scraped_at" = Some (VStr t).
Proof.
  unfold stamp. split.
  - rewrite lookup_insert_ne by done. apply lookup_insert_eq.
  - apply lookup_insert_eq.
Qed.

Lemma source_of_stamp url t d : source_of (stamp url t d) = Some url.
Proof. unfold source_of. by rewrite (proj1 (stamp_lookup url t d)). Qed.

(** The stamped records come from calls of the extractor, in their
    order. *)
Lemma sources_sublist tr : sublist (omap source_of (stamped_of tr)) (called tr).
Proof.
  induction tr as [tr IH] using (induction_ltof1 _ (@length event)).
  unfold ltof in IH.
  destruct tr as [|ev tr]; [constructor|].
  destruct ev as [| | | |url [[|d| |]|]| |]; simpl; try (apply IH; simpl; lia);
    try (apply sublist_cons, IH; simpl; lia).
  destruct tr as [|ev' tr']; [by apply sublist_cons|].
  destruct ev'; simpl; try (apply sublist_cons, IH; simpl; lia).
  - apply sublist_cons. apply (IH (EvScraped url0 r :: tr')). simpl. lia.
  - rewrite source_of_stamp. apply sublist_skip, IH. simpl. lia.
Qed.

Ltac loop_case IH i rest acc :=
  let found := fresh "found" in
  let s' := fresh "s'" in
  let tr := fresh "tr" in
  let Hrun := fresh "Hrun" in
  let Hlog := fresh "Hlog" in
  let Hcalled := fresh "Hcalled" in
  let Hprog := fresh "Hprog" in
  let Hfound := fresh "Hfound" in
  let Hsub := fresh "Hsub" in
  let Hbeg := fresh "Hbeg" in
  match goal with
  | |- context [Scraper.scrape_loop _ _ _ _ rest ?acc' ?s1] =>
      destruct (IH (i + 1) acc' s1)
        as (found & s' & tr & Hrun & Hlog & Hcalled & Hprog & Hfound & Hsub & Hbeg);
      rewrite Hrun
  end.

Lemma scrape_loop_spec total urls :
  ∀ i acc (s : state World),
    ∃ found s' tr,
      scrape_loop total i urls acc s = (Ok (acc ++ found), s')
      ∧ log s' = log s ++ tr
      ∧ called tr = urls
      ∧ progress tr = imap (λ k url, (i + Z.of_nat k, total, url)) urls
      ∧ found = stamped_of tr
      ∧ sublist (failed tr) (reported tr)
      ∧ begins_with_progress tr.
Proof.
  induction urls as [|url rest IH]; intros i acc s.
  - exists [], s, []. simpl. unfold_M. rewrite !app_nil_r.
    repeat split; done.
  - assert (Hshift : ∀ tr,
              progress tr = imap (λ k u, (i + 1 + Z.of_nat k, total, u)) rest →
              (i, total, url) :: progress tr
              = (i + Z.of_nat 0, total, url)
                :: imap ((λ k u, (i + Z.of_nat k, total, u)) ∘ S) rest).
    { intros tr ->. f_equal; [do 2 f_equal; lia|].
      apply imap_ext. intros k u _. simpl. do 2 f_equal. lia. }
    simpl. unfold call_scraper, keep_result. unfold_M. simpl.
    destruct (scraper_func url (world s)) as [[[|d|l|df]|e] w] eqn:Hcall; simpl.
    + loop_case IH i rest acc.
      eexists found, s', (_ :: _ :: tr). split; [done|]. rewrite Hlog. simpl.
      split; [by rewrite <- !app_assoc|]. unfold called, progress, failed, reported.
      simpl. fold (called tr) (progress tr) (failed tr) (reported tr). rewrite Hcalled. split; [done|]. split; [by apply Hshift|].
      split; [done|]. done.
    + destruct (bool_decide (d = ∅)) eqn:Hd; simpl.
      * loop_case IH i rest acc.
        eexists found, s', (_ :: _ :: tr). split; [done|]. rewrite Hlog. simpl.
        split; [by rewrite <- !app_assoc|].
        unfold called, progress, failed, reported.
        simpl. fold (called tr) (progress tr) (failed tr) (reported tr). rewrite Hcalled. split; [done|]. split; [by apply Hshift|].
        split; [|done].
        destruct tr as [|[| | |[]| | |] tr']; simpl in Hbeg; done.
      * destruct (now_isoformat w) as [t w'] eqn:Hnow; simpl.
        loop_case IH i rest acc.
        eexists (_ :: found), s', (_ :: _ :: _ :: tr).
        split; [by rewrite <- app_assoc|]. rewrite Hlog. simpl.
        split; [by rewrite <- !app_assoc|].
        unfold called, progress, failed, reported.
        simpl. fold (called tr) (progress tr) (failed tr) (reported tr). rewrite Hcalled. split; [done|]. split; [by apply Hshift|].
        split; [by rewrite Hfound|]. done.
    + destruct l as [|l0 l]; simpl.
      * loop_case IH i rest acc.
        eexists found, s', (_ :: _ :: tr). split; [done|]. rewrite Hlog. simpl.
        split; [by rewrite <- !app_assoc|].
        unfold called, progress, failed, reported.
        simpl. fold (called tr) (progress tr) (failed tr) (reported tr). rewrite Hcalled. split; [done|]. split; [by apply Hshift|].
        split; [done|]. done.
      * loop_case IH i rest acc.
        eexists found, s', (_ :: _ :: _ :: tr). split; [done|]. rewrite Hlog. simpl.
        split; [by rewrite <- !app_assoc|].
        unfold called, progress, failed, reported.
        simpl. fold (called tr) (progress tr) (failed tr) (reported tr). rewrite Hcalled. split; [done|]. split; [by apply Hshift|].
        split; [done|]. split; [|done]. by apply sublist_cons.
    + loop_case IH i rest acc.
      eexists found, s', (_ :: _ :: _ :: tr). split; [done|]. rewrite Hlog. simpl.
      split; [by rewrite <- !app_assoc|].
      unfold called, progress, failed, reported.
      simpl. fold (called tr) (progress tr) (failed tr) (reported tr). rewrite Hcalled. split; [done|]. split; [by apply Hshift|].
      split; [done|]. split; [|done]. by apply sublist_cons.
    + loop_case IH i rest acc.
      eexists found, s', (_ :: _ :: _ :: tr). split; [done|]. rewrite Hlog. simpl.
      split; [by rewrite <- !app_assoc|].
      unfold called, progress, failed, reported.
      simpl. fold (called tr) (progress tr) (failed tr) (reported tr). rewrite Hcalled. split; [done|]. split; [by apply Hshift|].
      split; [done|]. split; [|done]. by apply sublist_skip.
Qed.

(** Every stamped record carries the URL of a call and a reading of the
    clock. *)
Lemma stamped_of_stamped tr :
  Forall (λ r, ∃ url t d,
            r = stamp url t d ∧ url ∈ called tr ∧ EvNow t ∈ tr)
         (stamped_of tr).
Proof.
  induction tr as [tr IH] using (induction_ltof1 _ (@length event)).
  unfold ltof in IH.
  assert (Hweaken : ∀ ev tr',
            Forall (λ r, ∃ url t d,
                      r = stamp url t d ∧ url ∈ called tr' ∧ EvNow t ∈ tr')
                   (stamped_of tr') →
            Forall (λ r, ∃ url t d,
                      r = stamp url t d ∧ url ∈ called (ev :: tr')
                      ∧ EvNow t ∈ ev :: tr')
                   (stamped_of tr')).
  { intros ev tr' H. eapply Forall_impl; [exact H|].
    intros r (url & t & d & -> & Hu & Ht).
    exists url, t, d. split; [done|]. split; [|by right].
    unfold called in *. simpl. destruct ev; try done. by right. }
  destruct tr as [|ev tr]; [constructor|].
  destruct ev as [| | | |url [[|d| |]|]| |];
    try (lazymatch goal with
         | |- Forall _ (stamped_of (?e :: ?l)) =>
             refine (Hweaken e l _); apply IH; simpl; lia
         end).
  destruct tr as [|ev' tr']; [constructor|].
  destruct ev';
    try (lazymatch goal with
         | |- Forall _ (stamped_of (?e :: ?l)) =>
             refine (Hweaken e l _); apply IH; simpl; lia
         end).
  cbn [stamped_of]. constructor.
  - exists url, t, d. split; [done|]. split; [left|]. right. left.
  - refine (Hweaken (EvScraped url (Ok (SDict d))) (EvNow t :: tr') _).
    refine (Hweaken (EvNow t) tr' _). apply IH. simpl. lia.
Qed.

(** The loop keeps to the contract of a run, whatever it is started
    with. *)
Lemma scrape_loop_contract total urls :
  ∀ i acc (s : state World),
    ∃ found s',
      scrape_loop total i urls acc s = (Ok (acc ++ found), s')
      ∧ run_contract urls (world s) found (world s').
Proof.
  induction urls as [|url rest IH]; intros i acc s.
  - exists [], s. simpl. unfold_M. rewrite app_nil_r. split; [done|constructor].
  - simpl. unfold call_scraper, keep_result. unfold_M. simpl.
    destruct (scraper_func url (world s)) as [r w] eqn:Hcall.
    assert (Hskip : ∀ tr,
              (∀ d, r = Ok (SDict d) → d = ∅) →
              ∃ found s',
                scrape_loop total (i + 1) rest acc {| world := w; log := tr |}
                = (Ok (acc ++ found), s')
                ∧ run_contract (url :: rest) (world s) found (world s')).
    { intros tr Hr. destruct (IH (i + 1) acc {| world := w; log := tr |})
        as (found & s' & Hrun & Hc).
      exists found, s'. split; [done|]. by eapply run_no_record. }
    destruct r as [[|d|l|df]|e]; simpl; try (by apply Hskip).
    + destruct (bool_decide (d = ∅)) eqn:Hd; simpl.
      * apply Hskip. intros d' [= <-]. by apply bool_decide_eq_true in Hd.
      * apply bool_decide_eq_false in Hd.
        destruct (now_isoformat w) as [t w2] eqn:Hnow; simpl.
        edestruct (IH (i + 1) (acc ++ [stamp url t d])) as (found & s' & Hrun & Hc).
        exists (stamp url t d :: found), s'. rewrite Hrun, <- app_assoc.
        split; [done|]. by eapply run_record.
    + destruct l; simpl; by apply Hskip.
Qed.


End PipelineProofs.

(** *** The browser-driven scraper *)

Section DynamicProofs.

Context {World Driver WebElement : Type}.
Variable webdriver_Chrome : bool → World → outcome Driver * World.
Variable driver_get : Driver → string → World → outcome unit * World.
Variable wait_until_present : Driver → string → World → outcome unit * World.
Variable find_elements : Driver → string → World → outcome (list WebElement) * World.
Variable element_text : WebElement → World → outcome string * World.

Local Abbreviation element_texts := (element_texts element_text).
Local Abbreviation dynamic_field := (dynamic_field find_elements element_text).
Local Abbreviation dynamic_fields := (dynamic_fields find_elements element_text).
Local Abbreviation ensure_driver := (ensure_driver webdriver_Chrome).
Local Abbreviation scrape_dynamic_content :=
  (scrape_dynamic_content webdriver_Chrome driver_get wait_until_present
     find_elements element_text).
Local Abbreviation texts_read := (texts_read element_text).
Local Abbreviation text_fails := (text_fails element_text).
Local Abbreviation field_contract := (field_contract find_elements element_text).

Lemma element_texts_spec els :
  ∀ s : state World,
    (∃ ts w, element_texts els s = (Ok ts, {| world := w; log := log s |})
             ∧ texts_read els (world s) ts w)
    ∨ (∃ e w, element_texts els s = (Raised e, {| world := w; log := log s |})
              ∧ text_fails els (world s)).
Proof.
  induction els as [|el els IH]; intros s; simpl; unfold_M.
  - left. exists [], (world s). destruct s. split; [done|constructor].
  - destruct (element_text el (world s)) as [[t|e] w1] eqn:Hel.
    + destruct (IH {| world := w1; log := log s |}) as [(ts & w & -> & Hts)|(e & w & -> & Hf)].
      * left. exists (t :: ts), w. split; [done|]. by econstructor.
      * right. exists e, w. split; [done|]. by eapply text_fails_later.
    + right. exists e, w1. split; [done|]. by eapply text_fails_here.
Qed.

Lemma texts_read_in_order els w ts w' :
  texts_read els w ts w' →
  Forall2 (λ el t, ∃ w1 w2, element_text el w1 = (Ok t, w2)) els ts.
Proof. induction 1; constructor; eauto. Qed.

(** One field: the inner [try] block either gives a value the contract
    allows, or raises where the contract says [None]. *)
Lemma dynamic_field_spec d selector (s : state World) :
  (∃ v w, dynamic_field d selector s = (Ok v, {| world := w; log := log s |})
          ∧ field_contract d selector (world s) v)
  ∨ (∃ e w, dynamic_field d selector s = (Raised e, {| world := w; log := log s |})
            ∧ field_contract d selector (world s) VNone).
Proof.
  unfold Scraper.dynamic_field. unfold_M.
  destruct (find_elements d selector (world s)) as [[els|e] w1] eqn:Hfind.
  2:{ right. exists e, w1. split; [done|]. by eapply absent_when_lookup_fails. }
  destruct els as [|el [|el' els]].
  - left. exists VNone, w1. split; [done|]. by eapply absent_when_no_match.
  - simpl. destruct (element_text el w1) as [[t|e] w2] eqn:Hel.
    + left. exists (VStr t), w2. split; [done|]. by eapply scalar_when_one_match.
    + right. exists e, w2. split; [done|].
      eapply absent_when_text_fails; [done|]. by eapply text_fails_here.
  - destruct (element_texts_spec (el :: el' :: els) {| world := w1; log := log s |})
      as [(ts & w & Hrun & Hts)|(e & w & Hrun & Hf)];
      rewrite Hrun.
    + left. exists (VList ts), w. split; [done|].
      eapply sequence_when_many; [done|simpl; lia|done].
    + right. exists e, w. split; [done|]. by eapply absent_when_text_fails.
Qed.

Lemma dynamic_fields_spec d (items : list (string * string)) :
  ∀ (data : gmap string value) (s : state World),
    ∃ data' s',
      dynamic_fields d items data s = (Ok data', s')
      ∧ (∀ field, field ∉ items.*1 → data' !! field = data !! field)
      ∧ (∀ field, field ∈ items.*1 → is_Some (data' !! field))
      ∧ (NoDup items.*1 → ∀ field sel,
           (field, sel) ∈ items →
           ∃ w v, field_contract d sel w v ∧ data' !! field = Some v).
Proof.
  induction items as [|[f sel] items IH]; intros data s.
  - exists data, s. split; [done|]. split; [done|]. split.
    + intros field H. by apply elem_of_nil in H.
    + intros _ field sel' H. by apply elem_of_nil in H.
  - assert (Hstep : ∃ v s1,
              try_except any_Exception (dynamic_field d sel)
                (λ e, print (MsgErrorField f e);; ret VNone) s = (Ok v, s1)
              ∧ field_contract d sel (world s) v).
    { unfold_M.
      destruct (dynamic_field_spec d sel s) as [(v & w & -> & Hc)|(e & w & -> & Hc)];
        eauto. }
    destruct Hstep as (v & s1 & Hstep & Hc).
    destruct (IH (<[f := v]> data) s1) as (data' & s' & Hrun & Hout & Hin & Hval).
    exists data', s'. split; [|split; [|split]].
    + simpl. unfold mbind at 1. unfold M_bind at 1. unfold bind at 1.
      rewrite Hstep. exact Hrun.
    + intros field Hnot. rewrite fmap_cons in Hnot. simpl in Hnot.
      apply not_elem_of_cons in Hnot as [Hne Hnot].
      rewrite (Hout field Hnot). by rewrite lookup_insert_ne.
    + intros field Hfield. rewrite fmap_cons in Hfield. simpl in Hfield.
      destruct (decide (field ∈ items.*1)) as [Hmem|Hnot]; [by apply Hin|].
      apply elem_of_cons in Hfield as [->|Hfield]; [|done].
      rewrite (Hout f Hnot), lookup_insert_eq. by eexists.
    + intros Hnd field sel' Hmem.
      rewrite fmap_cons in Hnd. simpl in Hnd. apply NoDup_cons in Hnd as [Hf Hnd].
      apply elem_of_cons in Hmem as [Heq|Hmem].
      * injection Heq as -> ->. exists (world s), v. split; [done|].
        by rewrite (Hout f Hf), lookup_insert_eq.
      * by apply (Hval Hnd field sel').
Qed.

(** C8, as the code has it: once the driver is there,
    [scrape_dynamic_content] does not raise.  A timeout of the wait for
    [wait_selector] fails the whole call: it is reported and [None] comes
    back.  Otherwise a record with exactly the declared fields comes back,
    and every field obeys the contract: no match gives [None], one match
    gives the element's text, several give the list of their texts, as
    long as the list of matches and in its order, and an error while the
    field is extracted gives [None] for that field only.  The texts are
    those the driver reports; the code does not trim them. *)
Theorem scrape_dynamic_content_contract self self' d url wait_selector
    (data_selectors : list (string * string)) (s s0 : state World) :
  NoDup data_selectors.*1 →
  ensure_driver self s = (Ok (self', d), s0) →
  ∃ r s',
    scrape_dynamic_content self url wait_selector data_selectors s = (Ok (self', r), s')
    ∧ (∀ w1 w2,
         driver_get d url (world s0) = (Ok tt, w1) →
         wait_until_present d wait_selector w1 = (Raised TimeoutException, w2) →
         r = None
         ∧ s' = {| world := w2;
                   log := log s0 ++ [EvPrint (MsgErrorDynamic url TimeoutException)] |})
    ∧ (∀ w1 w2,
         driver_get d url (world s0) = (Ok tt, w1) →
         wait_until_present d wait_selector w1 = (Ok tt, w2) →
         ∃ data,
           r = Some data
           ∧ (∀ field, is_Some (data !! field) ↔ field ∈ data_selectors.*1)
           ∧ ∀ field sel, (field, sel) ∈ data_selectors →
               ∃ w v, field_contract d sel w v ∧ data !! field = Some v)
    ∧ (∀ els w ts w',
         texts_read els w ts w' →
         length ts = length els
         ∧ Forall2 (λ el t, ∃ w1 w2, element_text el w1 = (Ok t, w2)) els ts).
Proof.
  intros Hnd Hdriver.
  unfold Scraper.scrape_dynamic_content.
  unfold mbind at 1. unfold M_bind at 1. unfold bind at 1. rewrite Hdriver.
  unfold_M.
  assert (Htexts : ∀ els w ts w',
            texts_read els w ts w' →
            length ts = length els
            ∧ Forall2 (λ el t, ∃ w1 w2, element_text el w1 = (Ok t, w2)) els ts).
  { intros els w ts w' H. pose proof (texts_read_in_order _ _ _ _ H) as H2.
    split; [|done]. symmetry. by eapply Forall2_length. }
  destruct (driver_get d url (world s0)) as [[[]|e] w1] eqn:Hget.
  2:{ eexists None, _. split; [done|].
      split; [|split; [|exact Htexts]]; by intros ? ? [=]. }
  simpl. destruct (wait_until_present d wait_selector w1) as [[[]|e] w2] eqn:Hwait.
  2:{ eexists None, _. split; [done|]. split; [|split; [|exact Htexts]].
      - intros ? ? [= <-] Hw. rewrite Hwait in Hw. by injection Hw as <- <-.
      - intros ? ? [= <-] Hw. rewrite Hwait in Hw. done. }
  simpl.
  destruct (dynamic_fields_spec d data_selectors ∅ {| world := w2; log := log s0 |})
    as (data & s' & Hrun & Hout & Hin & Hval).
  rewrite Hrun.
  eexists (Some data), s'. split; [done|]. split; [|split; [|exact Htexts]].
  - intros ? ? [= <-] Hw. rewrite Hwait in Hw. done.
  - intros ? ? [= <-] _. exists data. split; [done|]. split.
    + intros field. split; [|apply Hin].
      intros Hsome. destruct (decide (field ∈ data_selectors.*1)) as [|Hnot]; [done|].
      rewrite (Hout field Hnot), lookup_empty in Hsome. by destruct Hsome.
    + by apply Hval.
Qed.

End DynamicProofs.

(** *** The serializers *)

Section SerializerProofs.

Context {World : Type}.

(** C7 on the code: with no results, [save_to_csv] prints "No data to
    save" and writes nothing, but [save_to_json], which has no such test,
    opens the file, writes the empty list to it and prints "Data saved". *)
Theorem save_empty_results dir filename (s : state World) :
  let self := {| output_dir := dir; results := [] |} in
  save_to_csv self filename None s =
    (Ok tt, {| world := world s; log := log s ++ [EvPrint MsgNoData] |})
  ∧ save_to_json self filename None s =
      (Ok tt, {| world := world s;
                 log := log s ++ [EvWrite (os_path_join dir filename) (JsonOf []);
                                  EvPrint (MsgSaved (os_path_join dir filename))] |}).
Proof.
  split; [done|].
  unfold save_to_json. unfold_M. simpl. by rewrite <- app_assoc.
Qed.

End SerializerProofs.

Lemma scrape_basic_data_by_match_count_witness :
  ∃ data,
    Scraper.scrape_basic_data (Examples.server 200) (Examples.parses_to Examples.page)
      Examples.select_by_tag "http://shop.example/" Examples.selectors Examples.start
    = (Ok (Some data), {| world := 1%nat; log := [EvDelay; EvGet "http://shop.example/"] |})
    ∧ data !! "title" = Some (VStr "Prices")
    ∧ data !! "items" = Some (VList ["one"; "two!"])
    ∧ data !! "footer" = Some VNone.
Proof.
  destruct (scrape_basic_data_by_match_count (Examples.server 200)
              (Examples.parses_to Examples.page) Examples.select_by_tag
              "http://shop.example/" Examples.selectors Examples.start
              {| world := 1%nat; log := [EvDelay; EvGet "http://shop.example/"] |}
              {| status_code := 200; content := "<html>" |} Examples.page)
    as ((data & Hrun & _ & Hval) & _ & _).
  - apply (bool_decide_unpack _). vm_compute. exact I.
  - vm_compute. reflexivity.
  - reflexivity.
  - intros field sel H.
    repeat (apply elem_of_cons in H as [H|H];
            [injection H as -> ->; eexists; reflexivity|]).
    by apply elem_of_nil in H.
  - exists data. split; [exact Hrun|].
    destruct (Hval "title" "h1" _ ltac:(in_list) eq_refl) as (_ & H1 & _).
    destruct (Hval "items" "li" _ ltac:(in_list) eq_refl) as (_ & _ & H2).
    destruct (Hval "footer" "p" _ ltac:(in_list) eq_refl) as (H0 & _ & _).
    split; [exact (proj1 (H1 _ eq_refl))|]. split; [|exact (H0 eq_refl)].
    destruct H2 as (texts & Htexts & Hlen & Hnth); [simpl; lia|].
    rewrite Htexts. do 2 f_equal.
    destruct texts as [|t0 [|t1 [|? ?]]]; try discriminate Hlen.
    pose proof (proj1 (Hnth 0%nat _ eq_refl)) as E0.
    pose proof (proj1 (Hnth 1%nat _ eq_refl)) as E1.
    simpl in E0, E1. by simplify_eq.
Defined.

Lemma get_page_three_attempts_witness :
  ∃ e1 e2 e3 w',
    Scraper.get_page Examples.unreachable "http://down.example/" 3 Examples.start =
      (Raised e3,
       {| world := w';
          log := [] ++
            [EvDelay; EvGet "http://down.example/";
             EvPrint (MsgAttemptFailed 1 "http://down.example/" e1); EvBackoff (2 ^ 0);
             EvDelay; EvGet "http://down.example/";
             EvPrint (MsgAttemptFailed 2 "http://down.example/" e2); EvBackoff (2 ^ 1);
             EvDelay; EvGet "http://down.example/";
             EvPrint (MsgAttemptFailed 3 "http://down.example/" e3)] |})
    ∧ is_RequestException e3 = true.
Proof.
  apply (get_page_three_attempts Examples.unreachable "http://down.example/"
           Examples.start).
  intros w. eexists _, _. split; reflexivity.
Defined.

(** C4 as stated fails: a response with status 304 is not in the 2xx range,
    and [get_page] returns it from its first attempt, with no message, no
    sleep and no second request. *)
Lemma get_page_returns_not_modified :
  ¬ (200 ≤ 304 < 300)
  ∧ Scraper.get_page (Examples.server 304) "http://shop.example/" 3 Examples.start =
      (Ok (Some {| status_code := 304; content := "<html>" |}),
       {| world := 1%nat; log := [EvDelay; EvGet "http://shop.example/"] |}).
Proof. split; [lia|reflexivity]. Qed.

Lemma get_page_http_error_witness :
  Scraper.get_page_loop Examples.site "http://shop.example/" 3 3 0 Examples.start =
    Scraper.get_page_loop Examples.site "http://shop.example/" 3 2 (0 + 1)
      {| world := 1%nat;
         log := ([] ++ [EvDelay; EvGet "http://shop.example/";
                        EvPrint (MsgAttemptFailed (0 + 1) "http://shop.example/"
                                   (HTTPError 404))])
                ++ [EvBackoff (2 ^ 0)] |}
  ∧ Scraper.get_page Examples.site "http://shop.example/moved" 3 Examples.start =
      (Ok (Some {| status_code := 301; content := "<html>" |}),
       {| world := 1%nat; log := [] ++ [EvDelay; EvGet "http://shop.example/moved"] |}).
Proof.
  pose proof (get_page_http_error Examples.site "http://shop.example/" 3 2 0
                Examples.start {| status_code := 404; content := "<html>" |} 1%nat
                eq_refl) as H.
  cbv zeta in H. destruct H as (_ & Hstep & _ & Hother); [simpl; lia|].
  split; [exact Hstep|].
  apply (Hother "http://shop.example/moved" 3 0%nat 0 Examples.start
           {| status_code := 301; content := "<html>" |} 1%nat eq_refl);
    simpl; lia.
Defined.


Lemma scrape_links_result_witness :
  Scraper.scrape_links (Examples.server 200) (Examples.parses_to Examples.page)
    Examples.select_by_tag Examples.urljoin_other "http://shop.example/" "a"
    (Some "https://x.com/dir/") Examples.start
  = (Ok [ {[ "url" := "https://x.com/dir/page.html"; "text" := "next";
             "title" := "Next" ]} ],
     {| world := 1%nat; log := [EvDelay; EvGet "http://shop.example/"] |}).
Proof.
  destruct (scrape_links_result (Examples.server 200)
              (Examples.parses_to Examples.page) Examples.select_by_tag
              Examples.urljoin_other
              "http://shop.example/" "a" (Some "https://x.com/dir/") Examples.start
              {| world := 1%nat; log := [EvDelay; EvGet "http://shop.example/"] |}
              Examples.page _ eq_refl eq_refl)
    as (links & s2 & Hrun & Hall & _).
  rewrite Hrun. destruct Hall as [-> _].
  - intros link href Hin Hhref Hne.
    let l := eval vm_compute in (find_all ["a"] Examples.page) in
    change (link ∈ l) in Hin.
    repeat (apply elem_of_cons in Hin as [->|Hin];
            [first [discriminate Hhref
                   | injection Hhref as <-; first [by eexists | done]]|]).
    by apply elem_of_nil in Hin.
  - f_equal. f_equal. injection Hrun as <-. vm_compute. reflexivity.
Defined.

(** C6 as stated fails: of the two anchors of the page both have an
    [href], but [urljoin] raises on the second, and [scrape_links] prints
    the error and returns no record at all. *)
Lemma scrape_links_lost_to_one_href :
  Examples.select_by_tag Examples.trap "a"
  = Ok [Html.Tag "a" [("href", "page.html"); ("title", "Next")] [Html.Text " next "];
        Html.Tag "a" [("href", "http://[x")] [Html.Text "trap"]]
  ∧ Scraper.scrape_links (Examples.server 200) (Examples.parses_to Examples.trap)
      Examples.select_by_tag Examples.urljoin_other "http://shop.example/" "a"
      (Some "https://x.com/dir/") Examples.start
    = (Ok [],
       {| world := 1%nat;
          log := [EvDelay; EvGet "http://shop.example/";
                  EvPrint (MsgErrorLinks "http://shop.example/"
                             (ValueError "Invalid IPv6 URL"))] |}).
Proof. split; reflexivity. Qed.

(** C1 as stated fails: the one paragraph of the page has the text
    " Hello World again ", whose trimmed form is "Hello World again", but
    the field comes back as "HelloWorldagain": [get_text(strip=True)]
    trims every piece of the text and joins them with nothing between. *)
Lemma scrape_basic_data_joins_pieces :
  Examples.select_by_tag Examples.greeting "p"
  = Ok [Html.Tag "p" []
          [Html.Text " Hello "; Html.Tag "b" [] [Html.Text "World"];
           Html.Text " again "]]
  ∧ trimmed_text_content
      (Html.Tag "p" []
         [Html.Text " Hello "; Html.Tag "b" [] [Html.Text "World"];
          Html.Text " again "])
    = "Hello World again"
  ∧ Scraper.scrape_basic_data (Examples.server 200)
      (Examples.parses_to Examples.greeting) Examples.select_by_tag
      "http://shop.example/" [("greeting", "p")] Examples.start
    = (Ok (Some (<["greeting" := VStr "HelloWorldagain"]> ∅)),
       {| world := 1%nat; log := [EvDelay; EvGet "http://shop.example/"] |}).
Proof. split; [reflexivity|]. split; [by vm_compute|reflexivity]. Qed.


Lemma scrape_dynamic_content_contract_witness :
  ∃ r s',
    Scraper.scrape_dynamic_content Examples.chrome Examples.browse Examples.wait_for
      Examples.find_by_css Examples.text_of
      {| headless := true; driver := None |} "http://shop.example/" ".price"
      [("price", ".price"); ("tags", ".tag"); ("stock", ".stock"); ("bad", "!!")]
      Examples.start
    = (Ok ({| headless := true; driver := Some tt |}, r), s')
    ∧ ∃ data, r = Some data
        ∧ data !! "price" = Some (VStr " 42 ")
        ∧ data !! "tags" = Some (VList ["new"; "sale"])
        ∧ data !! "stock" = Some VNone
        ∧ data !! "bad" = Some VNone.
Proof.
  destruct (scrape_dynamic_content_contract Examples.chrome Examples.browse
              Examples.wait_for Examples.find_by_css Examples.text_of
              {| headless := true; driver := None |}
              {| headless := true; driver := Some tt |} tt
              "http://shop.example/" ".price"
              [("price", ".price"); ("tags", ".tag"); ("stock", ".stock"); ("bad", "!!")]
              Examples.start Examples.start)
    as (r & s' & Hrun & _ & Hok & _).
  - apply (bool_decide_unpack _). vm_compute. exact I.
  - reflexivity.
  - exists r, s'. split; [exact Hrun|].
    destruct (Hok 1%nat 1%nat eq_refl eq_refl) as (data & -> & _ & _).
    exists data. split; [done|].
    injection Hrun as <- _. vm_compute. done.
Defined.

(** C8 as stated fails: the text of the one element matching ".price" is
    reported as " 42 ", and that is the value of the field, blanks
    included. *)
Lemma dynamic_text_not_trimmed :
  (∃ s',
     Scraper.scrape_dynamic_content Examples.chrome Examples.browse Examples.wait_for
       Examples.find_by_css Examples.text_of
       {| headless := true; driver := None |} "http://shop.example/" ".price"
       [("price", ".price")] Examples.start
     = (Ok ({| headless := true; driver := Some tt |},
            Some (<["price" := VStr " 42 "]> ∅)), s'))
  ∧ ¬ Text.trimmed " 42 ".
Proof.
  split; [eexists; reflexivity|].
  unfold Text.trimmed. vm_compute. discriminate.
Qed.

End ScraperFacts.

(** ** The grocery shop *)

Module GroceryFacts.
Import Grocery.

Section Proofs.

Context {float : Type}.
Variable float_of_int : Z → float.
Variable float_add : float → float → float.
Variable float_mul_int : float → Z → float.
Variable py_float : pyval float → outcome float.
Variable py_int : pyval float → outcome Z.
Variable py_str : pyval float → string.
Variable json_load : string → outcome (pyval float).
Variable json_dump : gmap string (pyval float) → pyval float → string.

Local Abbreviation Product := (@Product float).
Local Abbreviation GroceryShop := (@GroceryShop float).
Local Abbreviation sale_loop :=
  (sale_loop float_of_int float_add float_mul_int py_str).
Local Abbreviation process_sale :=
  (process_sale float_of_int float_add float_mul_int py_str json_dump).
Local Abbreviation from_dict := (from_dict py_float py_int).
Local Abbreviation load_products := (load_products py_float py_int).
Local Abbreviation load_try := (load_try py_float py_int json_load).
Local Abbreviation load_data := (load_data py_float py_int json_load).
Local Abbreviation GroceryShop_init := (GroceryShop_init py_float py_int json_load).
Local Abbreviation bad_file := (bad_file json_load).

(** *** process_sale *)

Lemma take_0 (p : Product) : take 0 p = p.
Proof. destruct p. unfold take. simpl. f_equal. lia. Qed.

Lemma take_take q1 q2 (p : Product) : take q2 (take q1 p) = take (q1 + q2) p.
Proof. unfold take. simpl. f_equal. lia. Qed.

(** A loop that ran through has taken from every product what the items
    ask of it, all lines together, and changed nothing else. *)
Lemma sale_loop_stock items :
  ∀ (products products' : gmap string Product) total sale_items r,
    sale_loop items products total sale_items = (Ok r, products') →
    ∀ pid, products' !! pid = take (sold pid items) <$> products !! pid.
Proof.
  induction items as [|[product_id quantity] items IH];
    intros products products' total sale_items r Hrun pid; simpl in *.
  - injection Hrun as _ <-. destruct (products !! pid) as [p|]; [|done].
    simpl. by rewrite take_0.
  - destruct (products !! product_id) as [product|] eqn:Hp; [|done].
    destruct (quantity <=? stock product); [|done].
    destruct (price_times _ _ _) as [item_total|e]; [|done].
    rewrite (IH _ _ _ _ _ Hrun pid).
    destruct (decide (product_id = pid)) as [->|Hne].
    + rewrite lookup_insert_eq, Hp, bool_decide_eq_true_2 by done.
      simpl. by rewrite take_take.
    + rewrite lookup_insert_ne, bool_decide_eq_false_2 by done.
      by rewrite Z.add_0_l.
Qed.

Lemma sale_loop_app pre rest :
  ∀ (products : gmap string Product) total sale_items,
    sale_loop (pre ++ rest) products total sale_items =
    match sale_loop pre products total sale_items with
    | (Ok (total', sale_items'), products') =>
        sale_loop rest products' total' sale_items'
    | (Raised e, products') => (Raised e, products')
    end.
Proof.
  induction pre as [|[product_id quantity] pre IH]; intros products total sale_items;
    simpl; [done|].
  destruct (products !! product_id) as [product|]; [|done].
  destruct (quantity <=? stock product); [|done].
  destruct (price_times _ _ _) as [item_total|e]; [|done]. apply IH.
Qed.

(** A loop that raised did so at a first item, after the items before it
    had gone through: the item is unknown or asks for more than is left,
    which is a [ValueError] and leaves the products as those items made
    them; or its quantity is in stock but too large for a float, which is
    an [OverflowError] after the stock of the item itself was taken. *)
Lemma sale_loop_raised items :
  ∀ (products products' : gmap string Product) total sale_items e,
    sale_loop items products total sale_items = (Raised e, products') →
    ∃ pre pid quantity post r products1,
      items = pre ++ (pid, quantity) :: post
      ∧ sale_loop pre products total sale_items = (Ok r, products1)
      ∧ ((products' = products1
          ∧ (∃ msg, e = ValueError msg)
          ∧ (products1 !! pid = None
             ∨ ∃ p, products1 !! pid = Some p ∧ stock p < quantity))
         ∨ (∃ p, products1 !! pid = Some p ∧ quantity ≤ stock p
                 ∧ fits_float quantity = false
                 ∧ e = OverflowError "int too large to convert to float"
                 ∧ products' = <[pid := take quantity p]> products1)).
Proof.
  induction items as [|[product_id quantity] items IH];
    intros products products' total sale_items e Hrun; simpl in Hrun; [done|].
  destruct (products !! product_id) as [product|] eqn:Hp.
  - destruct (quantity <=? stock product) eqn:Hq.
    + unfold price_times in Hrun. destruct (fits_float quantity) eqn:Hfit.
      * destruct (IH _ _ _ _ _ Hrun)
          as (pre & pid & q & post & r & products1 & -> & Hpre & Hbad).
        exists ((product_id, quantity) :: pre), pid, q, post, r, products1.
        split; [done|]. split; [|done]. simpl.
        unfold price_times. by rewrite Hp, Hq, Hfit.
      * injection Hrun as <- <-.
        exists [], product_id, quantity, items, (total, sale_items), products.
        split; [done|]. split; [done|]. right. exists product.
        split; [done|]. split; [lia|]. done.
    + injection Hrun as <- <-.
      exists [], product_id, quantity, items, (total, sale_items), products.
      split; [done|]. split; [done|]. left. split; [done|]. split; [by eexists|].
      right. exists product. split; [done|]. lia.
  - injection Hrun as <- <-.
    exists [], product_id, quantity, items, (total, sale_items), products.
    split; [done|]. split; [done|]. left. split; [done|]. split; [by eexists|].
    by left.
Qed.


(** *** load_data *)

Lemma from_dict_missing_key fields key :
  key ∈ required_keys → dict_get key fields = None →
  ∃ e, from_dict (PDict fields) = Raised e.
Proof.
  intros Hkey Hnone. unfold Grocery.from_dict, subscript, and_then.
  unfold required_keys in Hkey.
  repeat (apply elem_of_cons in Hkey as [->|Hkey];
          [rewrite ?Hnone;
           repeat (match goal with
                   | |- context [dict_get ?k fields] =>
                       lazymatch goal with
                       | |- context [match dict_get k fields with _ => _ end] =>
                           destruct (dict_get k fields); try discriminate
                       end
                   end); by eauto|]).
  by apply elem_of_nil in Hkey.
Qed.

Lemma load_products_raises records :
  ∀ (acc : gmap string Product) k v e,
    (k, v) ∈ records → from_dict v = Raised e →
    ∃ e', load_products records acc = Raised e'.
Proof.
  induction records as [|[k0 v0] records IH]; intros acc k v e Hin Hv.
  - by apply elem_of_nil in Hin.
  - simpl. apply elem_of_cons in Hin as [[= <- <-]|Hin].
    + rewrite Hv. simpl. eauto.
    + destruct (from_dict v0) as [p|e0]; simpl; [|eauto].
      by eapply IH.
Qed.

(** C10: [GroceryShop()] never raises, whatever the data file; and when
    the file is missing, cannot be read, does not hold JSON or holds a
    product record without one of its keys, the shop starts with no
    products and no sales. *)
Theorem GroceryShop_init_never_fails disk :
  ∃ shop,
    GroceryShop_init disk = Ok shop
    ∧ (bad_file disk → shop = {| products := ∅; sales_history := PList [] |}).
Proof.
  unfold Grocery.GroceryShop_init, Grocery.load_data.
  destruct disk as [|e|text].
  - eexists. split; [done|]. done.
  - eexists. split; [done|]. done.
  - destruct (load_try (Holds text)) as [[products history]|e] eqn:Htry.
    + eexists. split; [done|]. intros Hbad. exfalso.
      inversion Hbad as [| |text' e Hload|text' data records k fields key Hload Hget Hin Hkey Hnone];
        subst; unfold Grocery.load_try, read_json, and_then in Htry;
        rewrite Hload in Htry; [done|].
      rewrite Hget in Htry. simpl in Htry.
      destruct (from_dict_missing_key fields key Hkey Hnone) as [e He].
      destruct (load_products_raises records ∅ k _ e Hin He) as [e' He'].
      by rewrite He' in Htry.
    + eexists. split; [done|]. done.
Qed.

End Proofs.



End GroceryFacts.

(** ** More on the scraper *)

Module ScraperMoreFacts.
Import Html Scraper ScraperMore ScraperFacts.

Section Static.

Context {World : Type}.
Variable session_get : string → World → outcome response * World.
Variable BeautifulSoup : string → outcome node.
Variable select : node → string → outcome (list node).
Variable urljoin_other : string → string → outcome string.

Local Abbreviation get_page_loop := (get_page_loop session_get).
Local Abbreviation get_page := (get_page session_get).
Local Abbreviation fetch_soup := (fetch_soup session_get BeautifulSoup).
Local Abbreviation scrape_fields := (scrape_fields (World := World) select).
Local Abbreviation scrape_basic_data := (scrape_basic_data session_get BeautifulSoup select).
Local Abbreviation scrape_table := (scrape_table session_get BeautifulSoup select).
Local Abbreviation scrape_links :=
  (scrape_links session_get BeautifulSoup select urljoin_other).

Lemma total_powers n :
  total (map (λ k, 2 ^ Z.of_nat k) (seq 0 n)) = 2 ^ Z.of_nat n - 1.
Proof.
  induction n as [|n IH]; [done|].
  rewrite seq_S, map_app. unfold total in *. rewrite foldr_app. simpl.
  assert (Hsum : ∀ l z, foldr Z.add z l = foldr Z.add 0 l + z).
  { clear. induction l as [|a l IH]; intros z; simpl; [lia|]. rewrite IH. lia. }
  rewrite Hsum, IH, Z.add_0_r, Nat2Z.inj_succ, Z.pow_succ_r by lia. lia.
Qed.

(** The loop of [get_page] from any attempt on: it makes at most as many
    requests as it has iterations left, and sleeps 2^attempt, 2^(attempt+1),
    ... between them. *)
Lemma get_page_loop_bound url retries n :
  ∀ attempt (s : state World),
    (n = 0%nat ∨ attempt + Z.of_nat n = retries) →
    ∃ tr k,
      log (get_page_loop url retries n attempt s).2 = log s ++ tr
      ∧ requests tr = replicate k url
      ∧ (k ≤ n)%nat ∧ (n ≠ 0%nat → k ≠ 0%nat)
      ∧ backoffs tr = map (λ j, 2 ^ (attempt + Z.of_nat j)) (seq 0 (k - 1)).
Proof.
  induction n as [|n IH]; intros attempt s Hn.
  - exists [], 0%nat. simpl. rewrite app_nil_r. by repeat split.
  - assert (Hone : ∀ (w : World) (r : outcome (option response)) tr0,
              requests tr0 = [] → backoffs tr0 = [] →
              ∃ tr k,
                log (r, {| world := w;
                           log := (log s ++ [EvDelay; EvGet url]) ++ tr0 |}).2
                = log s ++ tr
                ∧ requests tr = replicate k url
                ∧ (k ≤ S n)%nat ∧ (S n ≠ 0%nat → k ≠ 0%nat)
                ∧ backoffs tr = map (λ j, 2 ^ (attempt + Z.of_nat j)) (seq 0 (k - 1))).
    { intros w r tr0 Hr Hb. exists ([EvDelay; EvGet url] ++ tr0), 1%nat.
      split; [simpl; by rewrite <- app_assoc|].
      rewrite requests_app, backoffs_app, Hr, Hb.
      split; [done|]. split; [lia|]. done. }
    assert (Hfail : ∀ e (w : World),
              ∃ tr k,
                log (after_failure session_get url retries n attempt e w
                       (log s ++ [EvDelay; EvGet url])).2 = log s ++ tr
                ∧ requests tr = replicate k url
                ∧ (k ≤ S n)%nat ∧ (S n ≠ 0%nat → k ≠ 0%nat)
                ∧ backoffs tr = map (λ j, 2 ^ (attempt + Z.of_nat j)) (seq 0 (k - 1))).
    { intros e w. unfold after_failure.
      destruct (attempt =? retries - 1) eqn:Hlast.
      - by apply (Hone w (Raised e) [EvPrint _]).
      - destruct Hn as [Hn|Hn]; [done|].
        assert (Hpos : n ≠ 0%nat) by lia.
        destruct (IH (attempt + 1)
                    {| world := w;
                       log := ((log s ++ [EvDelay; EvGet url])
                               ++ [EvPrint (MsgAttemptFailed (attempt + 1) url e)])
                              ++ [EvBackoff (2 ^ attempt)] |})
          as (tr & k & Hlog & Hreq & Hk & Hk0 & Hback); [right; lia|].
        exists ([EvDelay; EvGet url; EvPrint (MsgAttemptFailed (attempt + 1) url e);
                 EvBackoff (2 ^ attempt)] ++ tr), (S k).
        rewrite Hlog. simpl log. rewrite <- !app_assoc. split; [done|].
        rewrite (requests_app [_; _; _; _]), (backoffs_app [_; _; _; _]), Hreq, Hback.
        split; [done|]. split; [lia|]. split; [done|].
        specialize (Hk0 Hpos). destruct k as [|k]; [done|].
        simpl. rewrite Nat.sub_0_r, Z.add_0_r. f_equal.
        rewrite <- seq_shift, map_map. apply map_ext. intros j. f_equal. lia. }
    rewrite get_page_loop_step. cbv zeta.
    destruct (session_get url (world s)) as [[resp|e] w].
    + destruct (is_error_status (status_code resp)); [apply Hfail|].
      destruct (Hone w (Ok (Some resp)) [] eq_refl eq_refl) as (tr & k & H).
      exists tr, k. by rewrite app_nil_r in H.
    + destruct (is_RequestException e); [apply Hfail|].
      destruct (Hone w (@Raised (option response) e) [] eq_refl eq_refl) as (tr & k & H).
      exists tr, k. by rewrite app_nil_r in H.
Qed.

(** X1: whatever the server does, [get_page] makes at most [retries]
    requests, all of them for [url], and the back-off sleeps between them
    are 1, 2, 4, ... seconds, one fewer than the requests. *)
Theorem get_page_request_bound url retries (s : state World) :
  ∃ tr k,
    log (get_page url retries s).2 = log s ++ tr
    ∧ requests tr = replicate k url
    ∧ (k ≤ Z.to_nat retries)%nat
    ∧ backoffs tr = map (λ j, 2 ^ Z.of_nat j) (seq 0 (k - 1)).
Proof.
  destruct (get_page_loop_bound url retries (Z.to_nat retries) 0 s)
    as (tr & k & Hlog & Hreq & Hk & _ & Hback).
  { destruct (decide (retries ≤ 0)); [left|right]; lia. }
  exists tr, k. split; [done|]. split; [done|]. split; [done|].
  rewrite Hback. apply map_ext. intros j. by rewrite Z.add_0_l.
Qed.

(** X2: against a URL whose every request fails in transport, [get_page]
    with any [retries >= 1] makes exactly [retries] requests, raises the
    last failure, and has slept 2^(retries-1) - 1 seconds of back-off in
    all. *)
Theorem get_page_exhausts_retries url retries (s : state World) :
  1 ≤ retries →
  (∀ w, ∃ e w', session_get url w = (Raised e, w') ∧ is_RequestException e = true) →
  ∃ e s' tr,
    get_page url retries s = (Raised e, s')
    ∧ is_RequestException e = true
    ∧ log s' = log s ++ tr
    ∧ requests tr = replicate (Z.to_nat retries) url
    ∧ total (backoffs tr) = 2 ^ (retries - 1) - 1.
Proof.
  intros Hretries Hfail. unfold Scraper.get_page.
  destruct (Z.to_nat retries) as [|n] eqn:Hn; [lia|].
  destruct (get_page_loop_always_failing session_get url retries Hfail n 0 s)
    as (e & s' & tr & Hrun & He & Hlog & Hreq & Hback); [lia..|].
  exists e, s', tr. split; [done|]. split; [done|]. split; [done|]. split; [done|].
  rewrite Hback.
  rewrite (map_ext _ (λ k, 2 ^ Z.of_nat k)) by (intros k; f_equal; lia).
  rewrite total_powers. do 2 f_equal. lia.
Qed.

Lemma get_page_loop_not_none url retries n :
  ∀ attempt (s : state World),
    n ≠ 0%nat → attempt + Z.of_nat n = retries →
    ∀ s', get_page_loop url retries n attempt s ≠ (Ok None, s').
Proof.
  induction n as [|n IH]; intros attempt s Hn0 Hn s'; [done|].
  rewrite get_page_loop_step. cbv zeta. unfold after_failure.
  assert (Hrest : ∀ e w tr,
            (if attempt =? retries - 1
             then (Raised e, {| world := w; log := tr ++ [EvPrint (MsgAttemptFailed (attempt + 1) url e)] |})
             else get_page_loop url retries n (attempt + 1)
                    {| world := w;
                       log := (tr ++ [EvPrint (MsgAttemptFailed (attempt + 1) url e)])
                              ++ [EvBackoff (2 ^ attempt)] |})
            ≠ (Ok None, s')).
  { intros e w tr. destruct (attempt =? retries - 1) eqn:E; [done|].
    apply IH; lia. }
  destruct (session_get url (world s)) as [[resp|e] w].
  - destruct (is_error_status (status_code resp)); [apply Hrest|done].
  - destruct (is_RequestException e); [apply Hrest|done].
Qed.

(** X3: [get_page] returns [None] exactly when [retries <= 0], and then
    it has made no request, slept and printed nothing; with [retries >= 1]
    every run ends in a response or in an exception. *)
Theorem get_page_none_iff url retries (s : state World) :
  (retries ≤ 0 → get_page url retries s = (Ok None, s))
  ∧ (∀ s', get_page url retries s = (Ok None, s') → retries ≤ 0).
Proof.
  split.
  - intros H. unfold Scraper.get_page. by replace (Z.to_nat retries) with 0%nat by lia.
  - intros s' Hrun. destruct (decide (retries ≤ 0)) as [|Hpos]; [done|].
    exfalso. revert Hrun. apply get_page_loop_not_none; lia.
Qed.

(** X4: only a [RequestException] is retried: any other exception of the
    request leaves [get_page] at once, with no message and no sleep. *)
Theorem get_page_other_exception url retries (s : state World) e w :
  1 ≤ retries →
  session_get url (world s) = (Raised e, w) →
  is_RequestException e = false →
  get_page url retries s =
    (Raised e, {| world := w; log := log s ++ [EvDelay; EvGet url] |}).
Proof.
  intros Hretries Hget He. unfold Scraper.get_page.
  destruct (Z.to_nat retries) as [|n] eqn:Hn; [lia|].
  rewrite get_page_loop_step. cbv zeta. by rewrite Hget, He.
Qed.

(** X5: a failed first attempt followed by a good answer: [get_page]
    reports the failure, sleeps one second, asks again and returns the
    second response. *)
Theorem get_page_recovers url retries (s : state World) e w1 resp w2 :
  2 ≤ retries →
  session_get url (world s) = (Raised e, w1) →
  is_RequestException e = true →
  session_get url w1 = (Ok resp, w2) →
  is_error_status (status_code resp) = false →
  get_page url retries s =
    (Ok (Some resp),
     {| world := w2;
        log := log s ++ [EvDelay; EvGet url; EvPrint (MsgAttemptFailed 1 url e);
                         EvBackoff 1; EvDelay; EvGet url] |}).
Proof.
  intros Hretries H1 He H2 Hok. unfold Scraper.get_page.
  destruct (Z.to_nat retries) as [|[|n]] eqn:Hn; [lia..|].
  rewrite get_page_loop_step. cbv zeta. rewrite H1, He. unfold after_failure.
  replace (0 =? retries - 1) with false by lia.
  rewrite get_page_loop_step. cbv zeta. simpl world. rewrite H2, Hok.
  simpl log. rewrite <- !app_assoc. done.
Qed.

(** *** The static extractors *)

Lemma caught_is_ok {A} (m : M World A) (msg : exn → message) (default : A)
    (s : state World) :
  ∃ r s',
    try_except any_Exception m (λ e, print (msg e);; ret default) s = (Ok r, s').
Proof.
  unfold_M. destruct (m s) as [[a|e] s1]; eauto.
Qed.

(** X6: none of the three static extractors ever raises, whatever the
    server answers, whatever the parser and the selectors do. *)
Theorem static_extractors_never_raise url selectors table_selector
    link_selector base_url (s : state World) :
  (∃ r s', scrape_basic_data url selectors s = (Ok r, s'))
  ∧ (∃ r s', scrape_table url table_selector s = (Ok r, s'))
  ∧ (∃ r s', scrape_links url link_selector base_url s = (Ok r, s')).
Proof.
  split; [|split]; apply caught_is_ok.
Qed.

(** X7: on a URL whose every request fails in transport, each extractor
    catches the failure of [get_page] and prints its own message;
    [scrape_basic_data] and [scrape_table] then return [None], but
    [scrape_links] returns the empty list. *)
Theorem static_extractors_unreachable url selectors table_selector
    link_selector base_url (s : state World) :
  (∀ w, ∃ e w', session_get url w = (Raised e, w') ∧ is_RequestException e = true) →
  ∃ e s1,
    get_page url 3 s = (Raised e, s1)
    ∧ scrape_basic_data url selectors s =
        (Ok None, {| world := world s1;
                     log := log s1 ++ [EvPrint (MsgErrorScraping url e)] |})
    ∧ scrape_table url table_selector s =
        (Ok None, {| world := world s1;
                     log := log s1 ++ [EvPrint (MsgErrorTable url e)] |})
    ∧ scrape_links url link_selector base_url s =
        (Ok [], {| world := world s1;
                   log := log s1 ++ [EvPrint (MsgErrorLinks url e)] |}).
Proof.
  intros Hfail.
  destruct (get_page_loop_always_failing session_get url 3 Hfail 2 0 s)
    as (e & s1 & tr & Hrun & _); [done..|].
  exists e, s1. split; [exact Hrun|].
  unfold Scraper.scrape_basic_data, Scraper.scrape_table, Scraper.scrape_links,
    Scraper.fetch_soup, Scraper.get_page.
  unfold_M. change (Z.to_nat 3) with 3%nat. by rewrite Hrun.
Qed.

(** X8: one selector that is not well formed loses the whole record:
    [select] raises on it, the fields already extracted are dropped with
    the rest, the error is printed and [None] comes back. *)
Theorem scrape_basic_data_bad_selector url pre field sel post
    (s s1 : state World) soup e :
  fetch_soup url s = (Ok soup, s1) →
  (∀ f sl, (f, sl) ∈ pre → ∃ els, select soup sl = Ok els) →
  select soup sel = Raised e →
  scrape_basic_data url (pre ++ (field, sel) :: post) s =
    (Ok None, {| world := world s1;
                 log := log s1 ++ [EvPrint (MsgErrorScraping url e)] |}).
Proof.
  intros Hfetch Hok Hsel. unfold Scraper.scrape_basic_data.
  pose proof (scrape_fields_raises select soup pre field sel post e ∅ s1 Hok Hsel)
    as Hrun.
  unfold_M. by rewrite Hfetch, Hrun.
Qed.

(** X9: a table whose widest data row does not have as many cells as the
    header has cannot be made into a frame: [pd.DataFrame] raises
    [ValueError], which is printed, and [None] comes back although the
    table has a header and rows. *)
Theorem scrape_table_width_mismatch url table_selector (s s1 : state World)
    soup tables table header_row later :
  fetch_soup url s = (Ok soup, s1) →
  select soup table_selector = Ok tables →
  head tables = Some table →
  find_all ["tr"] table = header_row :: later →
  let header := map get_text_strip (find_all ["th"; "td"] header_row) in
  let rows := List.filter has_cells (map row_cells later) in
  header ≠ [] → rows ≠ [] → widest rows ≠ length header →
  ∃ msg,
    scrape_table url table_selector s =
      (Ok None, {| world := world s1;
                   log := log s1 ++ [EvPrint (MsgErrorTable url (ValueError msg))] |}).
Proof.
  intros Hfetch Hsel Htable Htrs header rows Hh Hr Hw.
  unfold Scraper.scrape_table. unfold_M. rewrite Hfetch, Hsel, Htable.
  unfold table_headers, find. rewrite table_rows_spec, Htrs. cbn [app head tail].
  fold header rows.
  destruct header as [|h hs] eqn:Eh; [done|].
  destruct rows as [|r0 rs] eqn:Er; [done|].
  unfold pd_DataFrame. apply Nat.eqb_neq in Hw. rewrite Hw. by eexists.
Qed.

End Static.

(** *** The pipeline and its serializers *)

Section Pipeline.

Context {World : Type}.
Variable scraper_func : string → World → outcome scraped * World.
Variable now_isoformat : World → string * World.

Local Abbreviation scrape_loop := (scrape_loop scraper_func now_isoformat).
Local Abbreviation scrape_multiple_pages :=
  (scrape_multiple_pages scraper_func now_isoformat).

(** X10: the stamp of the pipeline goes over the record of the
    extractor: whatever the record held under [scraped_url] and
    [scraped_at] is replaced by the URL and the time, and every other
    field is kept as it was. *)
Theorem pipeline_stamp_overrides self url d t w1 w2 (s : state World) :
  scraper_func url (world s) = (Ok (SDict d), w1) →
  d ≠ ∅ →
  now_isoformat w1 = (t, w2) →
  ∃ r s',
    scrape_multiple_pages self [url] s =
      (Ok ({| output_dir := output_dir self; results := results self ++ [r] |}, [r]), s')
    ∧ r !! "scraped_url" = Some (VStr url)
    ∧ r !! "scraped_at" = Some (VStr t)
    ∧ ∀ field, field ≠ "scraped_url" → field ≠ "scraped_at" →
        r !! field = d !! field.
Proof.
  intros Hcall Hd Hnow. exists (stamp url t d). eexists. split.
  - unfold Scraper.scrape_multiple_pages. simpl.
    unfold call_scraper, keep_result. unfold_M. simpl.
    rewrite Hcall. simpl. rewrite (bool_decide_eq_false_2 _ Hd). simpl.
    rewrite Hnow. simpl. done.
  - destruct (stamp_lookup url t d) as [Hu Ht]. split; [done|]. split; [done|].
    intros field H1 H2. unfold stamp. by rewrite !lookup_insert_ne.
Qed.

(** X11: the results of a pipeline only grow: after two runs they are the
    results it had, then what the first run found, then what the second
    found; the output directory stays. *)
Theorem pipeline_results_accumulate self urls1 urls2 (s1 s2 : state World) :
  ∃ self1 found1 s1' self2 found2 s2',
    scrape_multiple_pages self urls1 s1 = (Ok (self1, found1), s1')
    ∧ scrape_multiple_pages self1 urls2 s2 = (Ok (self2, found2), s2')
    ∧ results self2 = results self ++ found1 ++ found2
    ∧ output_dir self2 = output_dir self.
Proof.
  destruct (scrape_loop_spec scraper_func now_isoformat
              (Z.of_nat (length urls1)) urls1 1 [] s1) as (f1 & s1' & tr1 & H1 & _).
  destruct (scrape_loop_spec scraper_func now_isoformat
              (Z.of_nat (length urls2)) urls2 1 [] s2) as (f2 & s2' & tr2 & H2 & _).
  eexists _, f1, s1', _, f2, s2'. split; [|split; [|split]].
  - unfold Scraper.scrape_multiple_pages. unfold_M. by rewrite H1.
  - unfold Scraper.scrape_multiple_pages. unfold_M. by rewrite H2.
  - simpl. by rewrite <- app_assoc.
  - done.
Qed.

Lemma scrape_loop_nothing_kept total urls :
  (∀ url w, ¬ kept (scraper_func url w).1) →
  ∀ i acc (s : state World),
    ∃ s', scrape_loop total i urls acc s = (Ok acc, s').
Proof.
  intros Hnone. induction urls as [|url rest IH]; intros i acc s.
  - by exists s.
  - simpl. unfold call_scraper, keep_result. unfold_M. simpl.
    pose proof (Hnone url (world s)) as Hk.
    destruct (scraper_func url (world s)) as [[[|d|l|df]|e] w]; simpl; try apply IH.
    + destruct (bool_decide (d = ∅)) eqn:Hd; simpl; [apply IH|].
      exfalso. apply Hk. exists d. split; [done|]. by apply bool_decide_eq_false in Hd.
    + destruct l; simpl; apply IH.
Qed.

(** X12: the pipeline keeps a dict that is not empty and nothing else:
    with an extractor that never answers with one (it raises, or returns
    [None], an empty dict, a list or a frame), a run finds nothing and
    leaves the results of the pipeline as they were. *)
Theorem pipeline_nothing_kept self urls (s : state World) :
  (∀ url w, ¬ kept (scraper_func url w).1) →
  ∃ s', scrape_multiple_pages self urls s = (Ok (self, []), s').
Proof.
  intros Hnone.
  destruct (scrape_loop_nothing_kept (Z.of_nat (length urls)) urls Hnone 1 [] s)
    as [s' Hrun].
  exists s'. unfold Scraper.scrape_multiple_pages. unfold_M. rewrite Hrun.
  rewrite app_nil_r. by destruct self.
Qed.

Lemma scrape_loop_lists_reported total urls :
  (∀ url w, ∃ r w', scraper_func url w = (r, w')
                    ∧ ((∃ l0 l, r = Ok (SLinks (l0 :: l))) ∨ ∃ df, r = Ok (STable df))) →
  ∀ i acc (s : state World),
    ∃ s' tr,
      scrape_loop total i urls acc s = (Ok acc, s')
      ∧ log s' = log s ++ tr
      ∧ (reported tr).*1 = urls.
Proof.
  intros Hans. induction urls as [|url rest IH]; intros i acc s.
  - exists s, []. by rewrite app_nil_r.
  - simpl. unfold call_scraper, keep_result. unfold_M. simpl.
    destruct (Hans url (world s)) as (r & w & -> & [(l0 & l & ->)|(df & ->)]); simpl.
    + edestruct IH as (s' & tr & -> & Hlog & Hrep).
      eexists s', ([_; _; _] ++ tr). split; [done|]. rewrite Hlog.
      split; [simpl; by rewrite <- !app_assoc|].
      unfold reported. rewrite omap_app, fmap_app. fold (reported tr).
      by rewrite Hrep.
    + edestruct IH as (s' & tr & -> & Hlog & Hrep).
      eexists s', ([_; _; _] ++ tr). split; [done|]. rewrite Hlog.
      split; [simpl; by rewrite <- !app_assoc|].
      unfold reported. rewrite omap_app, fmap_app. fold (reported tr).
      by rewrite Hrep.
Qed.

(** X13: the pipeline cannot be run over [scrape_links] or
    [scrape_table]: a non-empty list of links fails at
    [data['scraped_url'] = url] and a frame at [if data:], so that every
    URL is reported by "Error scraping ..." and nothing is found. *)
Theorem pipeline_rejects_lists_and_frames self urls (s : state World) :
  (∀ url w, ∃ r w', scraper_func url w = (r, w')
                    ∧ ((∃ l0 l, r = Ok (SLinks (l0 :: l))) ∨ ∃ df, r = Ok (STable df))) →
  ∃ s' tr,
    scrape_multiple_pages self urls s = (Ok (self, []), s')
    ∧ log s' = log s ++ tr
    ∧ (reported tr).*1 = urls.
Proof.
  intros Hans.
  destruct (scrape_loop_lists_reported (Z.of_nat (length urls)) urls Hans 1 [] s)
    as (s' & tr & Hrun & Hlog & Hrep).
  exists s', tr. split; [|done].
  unfold Scraper.scrape_multiple_pages. unfold_M. rewrite Hrun.
  rewrite app_nil_r. by destruct self.
Qed.

(** X14: a file name that begins with a slash takes the file out of the
    output directory: both serializers then write to the file name
    itself. *)
Theorem serializers_absolute_filename self filename first rest (s : state World) :
  Urllib.starts_with_slash filename = true →
  (∃ c, save_to_csv self filename (Some (first :: rest)) s =
          (Ok tt, {| world := world s;
                     log := log s ++ [EvWrite filename c; EvPrint (MsgSaved filename)] |}))
  ∧ save_to_json self filename (Some (first :: rest)) s =
      (Ok tt, {| world := world s;
                 log := log s ++ [EvWrite filename (JsonOf (first :: rest));
                                  EvPrint (MsgSaved filename)] |}).
Proof.
  intros Habs.
  assert (Hpath : os_path_join (output_dir self) filename = filename).
  { unfold os_path_join. by rewrite Habs. }
  split.
  - unfold save_to_csv, data_or_results. rewrite Hpath.
    destruct first; eexists; unfold_M; simpl; by rewrite <- app_assoc.
  - unfold save_to_json, data_or_results. rewrite Hpath. unfold_M. simpl.
    by rewrite <- app_assoc.
Qed.

End Pipeline.

(** *** The browser-driven scraper *)

Section Dynamic.

Context {World Driver WebElement : Type}.
Variable webdriver_Chrome : bool → World → outcome Driver * World.
Variable driver_get : Driver → string → World → outcome unit * World.
Variable wait_until_present : Driver → string → World → outcome unit * World.
Variable find_elements : Driver → string → World → outcome (list WebElement) * World.
Variable element_text : WebElement → World → outcome string * World.

Local Abbreviation scrape_dynamic_content :=
  (scrape_dynamic_content webdriver_Chrome driver_get wait_until_present
     find_elements element_text).

(** X15: the start of the browser is outside the [try]: when
    [webdriver.Chrome] raises, [scrape_dynamic_content] raises the same
    exception to its caller, and prints nothing. *)
Theorem scrape_dynamic_content_no_browser self url wait_selector data_selectors
    (s : state World) e w :
  driver self = None →
  webdriver_Chrome (headless self) (world s) = (Raised e, w) →
  scrape_dynamic_content self url wait_selector data_selectors s =
    (Raised e, {| world := w; log := log s |}).
Proof.
  intros Hnone Hchrome. unfold Scraper.scrape_dynamic_content, ensure_driver.
  rewrite Hnone. unfold_M. by rewrite Hchrome.
Qed.

(** X16: a scraper that has its driver keeps it: the call does not raise,
    gives the scraper back as it was and starts no browser, so that its
    outcome is the same whatever [webdriver.Chrome] would do; and when
    [driver.get] raises, the error is printed and [None] comes back. *)
Theorem scrape_dynamic_content_with_driver self d url wait_selector data_selectors
    (s : state World) :
  driver self = Some d →
  ∃ r s',
    scrape_dynamic_content self url wait_selector data_selectors s = (Ok (self, r), s')
    ∧ (∀ other_Chrome,
         Scraper.scrape_dynamic_content other_Chrome driver_get wait_until_present
           find_elements element_text self url wait_selector data_selectors s
         = (Ok (self, r), s'))
    ∧ (∀ e w, driver_get d url (world s) = (Raised e, w) →
         r = None
         ∧ s' = {| world := w; log := log s ++ [EvPrint (MsgErrorDynamic url e)] |}).
Proof.
  intros Hd.
  pose (body :=
          try_except any_Exception
            (ask (driver_get d url);;
             ask (wait_until_present d wait_selector);;
             data ← dynamic_fields find_elements element_text d data_selectors ∅;
             ret (Some data))
            (λ e, print (MsgErrorDynamic url e);; ret None)
          : M World (option (gmap string value))).
  assert (Hkey : ∀ chrome,
            Scraper.scrape_dynamic_content chrome driver_get wait_until_present
              find_elements element_text self url wait_selector data_selectors s
            = match body s with
              | (Ok a, s0) => (Ok (self, a), s0)
              | (Raised e, s0) => (Raised e, s0)
              end).
  { intros chrome. unfold Scraper.scrape_dynamic_content, ensure_driver.
    rewrite Hd. reflexivity. }
  assert (Hbody : ∃ r s', body s = (Ok r, s')) by apply caught_is_ok.
  destruct Hbody as (r & s' & Hrun).
  exists r, s'. rewrite !Hkey, Hrun. split; [done|]. split.
  - intros other. by rewrite Hkey, Hrun.
  - intros e w Hget. revert Hrun. subst body. unfold_M. rewrite Hget.
    by intros [= <- <-].
Qed.

End Dynamic.

Lemma get_page_none_iff_witness :
  Scraper.get_page Examples.unreachable "http://down.example/" 0 Examples.start
  = (Ok None, Examples.start)
  ∧ ∀ s', Scraper.get_page Examples.unreachable "http://down.example/" 3 Examples.start
          ≠ (Ok None, s').
Proof.
  split.
  - apply (get_page_none_iff Examples.unreachable "http://down.example/" 0
             Examples.start). lia.
  - intros s' H.
    apply (get_page_none_iff Examples.unreachable "http://down.example/" 3
             Examples.start) in H. lia.
Defined.

Lemma get_page_exhausts_retries_witness :
  ∃ e s' tr,
    Scraper.get_page Examples.unreachable "http://down.example/" 4 Examples.start
    = (Raised e, s')
    ∧ is_RequestException e = true
    ∧ log s' = log Examples.start ++ tr
    ∧ requests tr = replicate (Z.to_nat 4) "http://down.example/"
    ∧ total (backoffs tr) = 2 ^ (4 - 1) - 1.
Proof.
  apply (get_page_exhausts_retries Examples.unreachable "http://down.example/" 4
           Examples.start).
  - lia.
  - intros w. eexists _, _. split; reflexivity.
Defined.

Lemma get_page_other_exception_witness :
  Scraper.get_page MoreExamples.broken "http://shop.example/" 3 Examples.start =
    (Raised (TypeError "bad argument"),
     {| world := 1%nat; log := [] ++ [EvDelay; EvGet "http://shop.example/"] |}).
Proof.
  apply (get_page_other_exception MoreExamples.broken "http://shop.example/" 3
           Examples.start); [lia|reflexivity|reflexivity].
Defined.

Lemma get_page_recovers_witness :
  Scraper.get_page MoreExamples.second_try "http://shop.example/" 3 Examples.start =
    (Ok (Some {| status_code := 200; content := "<html>" |}),
     {| world := 2%nat;
        log := [] ++ [EvDelay; EvGet "http://shop.example/";
                      EvPrint (MsgAttemptFailed 1 "http://shop.example/"
                                 (RequestException "Timeout"));
                      EvBackoff 1; EvDelay; EvGet "http://shop.example/"] |}).
Proof.
  apply (get_page_recovers MoreExamples.second_try "http://shop.example/" 3
           Examples.start (RequestException "Timeout") 1%nat);
    [lia|reflexivity..].
Defined.

Lemma static_extractors_unreachable_witness :
  ∃ e s1,
    Scraper.get_page Examples.unreachable "http://down.example/" 3 Examples.start
    = (Raised e, s1)
    ∧ Scraper.scrape_basic_data Examples.unreachable (Examples.parses_to Examples.page)
        Examples.select_by_tag "http://down.example/" Examples.selectors Examples.start
      = (Ok None, {| world := world s1;
                     log := log s1 ++ [EvPrint (MsgErrorScraping "http://down.example/" e)] |})
    ∧ Scraper.scrape_table Examples.unreachable (Examples.parses_to Examples.page)
        Examples.select_by_tag "http://down.example/" "table" Examples.start
      = (Ok None, {| world := world s1;
                     log := log s1 ++ [EvPrint (MsgErrorTable "http://down.example/" e)] |})
    ∧ Scraper.scrape_links Examples.unreachable (Examples.parses_to Examples.page)
        Examples.select_by_tag Examples.urljoin_other "http://down.example/" "a"
        None Examples.start
      = (Ok [], {| world := world s1;
                   log := log s1 ++ [EvPrint (MsgErrorLinks "http://down.example/" e)] |}).
Proof.
  apply (static_extractors_unreachable Examples.unreachable
           (Examples.parses_to Examples.page) Examples.select_by_tag
           Examples.urljoin_other "http://down.example/" Examples.selectors "table" "a" None Examples.start).
  intros w. eexists _, _. split; reflexivity.
Defined.

Lemma scrape_basic_data_bad_selector_witness :
  Scraper.scrape_basic_data (Examples.server 200) (Examples.parses_to Examples.page)
    MoreExamples.picky_select "http://shop.example/"
    ([("title", "h1")] ++ ("items", "li") :: [("footer", "p")]) Examples.start
  = (Ok None,
     {| world := 1%nat;
        log := [EvDelay; EvGet "http://shop.example/"]
               ++ [EvPrint (MsgErrorScraping "http://shop.example/"
                              (SelectorSyntaxError "li"))] |}).
Proof.
  apply (scrape_basic_data_bad_selector (Examples.server 200)
           (Examples.parses_to Examples.page) MoreExamples.picky_select
           "http://shop.example/" [("title", "h1")] "items" "li" [("footer", "p")]
           Examples.start
           {| world := 1%nat; log := [EvDelay; EvGet "http://shop.example/"] |}
           Examples.page).
  - reflexivity.
  - intros f sl H. apply list_elem_of_singleton in H. injection H as -> ->.
    eexists. reflexivity.
  - reflexivity.
Defined.

Lemma scrape_table_width_mismatch_witness :
  ∃ msg,
    Scraper.scrape_table (Examples.server 200) (Examples.parses_to MoreExamples.ragged)
      Examples.select_by_tag "http://shop.example/" "table" Examples.start
    = (Ok None,
       {| world := 1%nat;
          log := [EvDelay; EvGet "http://shop.example/"]
                 ++ [EvPrint (MsgErrorTable "http://shop.example/" (ValueError msg))] |}).
Proof.
  eapply (scrape_table_width_mismatch (Examples.server 200)
            (Examples.parses_to MoreExamples.ragged) Examples.select_by_tag
            "http://shop.example/" "table" Examples.start
            {| world := 1%nat; log := [EvDelay; EvGet "http://shop.example/"] |}
            MoreExamples.ragged);
    [reflexivity|reflexivity|reflexivity|reflexivity|
     vm_compute; discriminate..].
Defined.

Lemma pipeline_stamp_overrides_witness :
  ∃ r s',
    Scraper.scrape_multiple_pages MoreExamples.cheeky Examples.clock
      {| output_dir := "scraped_data"; results := [] |} ["http://shop.example/"]
      Examples.start
    = (Ok ({| output_dir := "scraped_data"; results := [] ++ [r] |}, [r]), s')
    ∧ r !! "scraped_url" = Some (VStr "http://shop.example/")
    ∧ r !! "title" = Some (VStr "http://shop.example/").
Proof.
  destruct (pipeline_stamp_overrides MoreExamples.cheeky Examples.clock
              {| output_dir := "scraped_data"; results := [] |} "http://shop.example/"
              {[ "scraped_url" := VStr "elsewhere";
                 "title" := VStr "http://shop.example/" ]}
              "2024-05-01T12:00:00" 1%nat 2%nat Examples.start eq_refl)
    as (r & s' & Hrun & Hurl & _ & Hrest); [apply insert_non_empty|reflexivity|].
  exists r, s'. split; [exact Hrun|]. split; [exact Hurl|].
  rewrite Hrest by done. reflexivity.
Defined.

Lemma pipeline_nothing_kept_witness :
  ∃ s',
    Scraper.scrape_multiple_pages MoreExamples.silent Examples.clock
      {| output_dir := "scraped_data"; results := [] |} ["A"; "B"] Examples.start
    = (Ok ({| output_dir := "scraped_data"; results := [] |}, []), s').
Proof.
  apply (pipeline_nothing_kept MoreExamples.silent Examples.clock
           {| output_dir := "scraped_data"; results := [] |} ["A"; "B"] Examples.start).
  intros url w (d & H & _). discriminate H.
Defined.

Lemma pipeline_rejects_lists_and_frames_witness :
  ∃ s' tr,
    Scraper.scrape_multiple_pages MoreExamples.linker Examples.clock
      {| output_dir := "scraped_data"; results := [] |} ["A"; "B"] Examples.start
    = (Ok ({| output_dir := "scraped_data"; results := [] |}, []), s')
    ∧ log s' = log Examples.start ++ tr
    ∧ (reported tr).*1 = ["A"; "B"].
Proof.
  apply (pipeline_rejects_lists_and_frames MoreExamples.linker Examples.clock
           {| output_dir := "scraped_data"; results := [] |} ["A"; "B"] Examples.start).
  intros url w. eexists _, _. split; [reflexivity|]. left. by eexists _, _.
Defined.

Lemma serializers_absolute_filename_witness :
  (∃ c,
     Scraper.save_to_csv {| output_dir := "scraped_data"; results := [] |}
       "/tmp/out.csv" (Some (IRow ["a"; "b"] :: [])) Examples.start
     = (Ok tt, {| world := world Examples.start;
                  log := log Examples.start
                         ++ [EvWrite "/tmp/out.csv" c; EvPrint (MsgSaved "/tmp/out.csv")] |}))
  ∧ Scraper.save_to_json {| output_dir := "scraped_data"; results := [] |}
      "/tmp/out.csv" (Some (IRow ["a"; "b"] :: [])) Examples.start
    = (Ok tt, {| world := world Examples.start;
                 log := log Examples.start
                        ++ [EvWrite "/tmp/out.csv" (JsonOf (IRow ["a"; "b"] :: []));
                            EvPrint (MsgSaved "/tmp/out.csv")] |}).
Proof.
  apply (serializers_absolute_filename
           {| output_dir := "scraped_data"; results := [] |} "/tmp/out.csv"
           (IRow ["a"; "b"]) [] Examples.start).
  reflexivity.
Defined.

Lemma scrape_dynamic_content_no_browser_witness :
  Scraper.scrape_dynamic_content MoreExamples.no_chrome Examples.browse
    Examples.wait_for Examples.find_by_css Examples.text_of
    {| headless := true; driver := None |} "http://shop.example/" ".price"
    [("price", ".price")] Examples.start
  = (Raised (WebDriverException "chromedriver not found"),
     {| world := 0%nat; log := log Examples.start |}).
Proof.
  apply (scrape_dynamic_content_no_browser MoreExamples.no_chrome Examples.browse
           Examples.wait_for Examples.find_by_css Examples.text_of
           {| headless := true; driver := None |} "http://shop.example/" ".price"
           [("price", ".price")] Examples.start); reflexivity.
Defined.

Lemma scrape_dynamic_content_with_driver_witness :
  ∃ r s',
    Scraper.scrape_dynamic_content MoreExamples.no_chrome Examples.browse
      Examples.wait_for Examples.find_by_css Examples.text_of
      {| headless := true; driver := Some tt |} "http://shop.example/" ".price"
      [("tags", ".tag")] Examples.start
    = (Ok ({| headless := true; driver := Some tt |}, r), s')
    ∧ Scraper.scrape_dynamic_content Examples.chrome Examples.browse
        Examples.wait_for Examples.find_by_css Examples.text_of
        {| headless := true; driver := Some tt |} "http://shop.example/" ".price"
        [("tags", ".tag")] Examples.start
      = (Ok ({| headless := true; driver := Some tt |}, r), s').
Proof.
  destruct (scrape_dynamic_content_with_driver MoreExamples.no_chrome Examples.browse
              Examples.wait_for Examples.find_by_css Examples.text_of
              {| headless := true; driver := Some tt |} tt "http://shop.example/"
              ".price" [("tags", ".tag")] Examples.start eq_refl)
    as (r & s' & Hrun & Hother & _).
  exists r, s'. split; [exact Hrun|apply Hother].
Defined.

End ScraperMoreFacts.

(** ** The domain check *)

Module PhishingFacts.
Import Html Phishing.

Ltac unfold_P :=
  unfold mbind, Phishing.M_bind, Phishing.bind, Phishing.ret, Phishing.print,
    Phishing.ask, Phishing.of_outcome, Phishing.try_except in *.

Lemma append_cons a (p s : string) : String a p +:+ s = String a (p +:+ s).
Proof. reflexivity. Qed.

Lemma starts_with_spec prefix :
  ∀ s, starts_with prefix s = true ↔ ∃ post, s = prefix +:+ post.
Proof.
  induction prefix as [|a prefix IH]; intros s.
  - split; [by exists s|done].
  - destruct s as [|b s]; simpl.
    + split; [done|]. by intros [post H].
    + rewrite andb_true_iff, bool_decide_eq_true, IH. split.
      * intros [-> [post ->]]. by exists post.
      * intros [post H]. rewrite append_cons in H. injection H as -> ->. eauto.
Qed.

(** [sub in s] holds exactly of the strings that have [sub] somewhere
    inside. *)
Lemma occurs_in_spec sub :
  ∀ s, occurs_in sub s = true ↔ ∃ pre post, s = pre +:+ sub +:+ post.
Proof.
  induction s as [|b s IH].
  - simpl. rewrite orb_false_r, starts_with_spec. split.
    + intros [post H]. by exists EmptyString, post.
    + intros (pre & post & H). destruct pre as [|a pre]; [by exists post|].
      by rewrite append_cons in H.
  - cbn [occurs_in]. rewrite orb_true_iff, starts_with_spec, IH. split.
    + intros [[post H]|(pre & post & H)].
      * by exists EmptyString, post.
      * exists (String b pre), post. by rewrite append_cons, H.
    + intros (pre & post & H). destruct pre as [|a pre].
      * left. by exists post.
      * right. rewrite append_cons in H. injection H as _ ->. by exists pre, post.
Qed.

Lemma any_keyword_spec domain :
  any_keyword domain = true ↔
  ∃ keyword pre post,
    keyword ∈ phishing_keywords ∧ domain = pre +:+ keyword +:+ post.
Proof.
  unfold any_keyword. rewrite existsb_exists. split.
  - intros (k & Hin & Hk). apply occurs_in_spec in Hk as (pre & post & ->).
    exists k, pre, post. split; [by apply list_elem_of_In|done].
  - intros (k & pre & post & Hin & ->). exists k.
    split; [by apply list_elem_of_In|]. apply occurs_in_spec. eauto.
Qed.

Lemma find_with_spec name key val soup :
  is_Some (find_with name key val soup) ↔
  ∃ n, n ∈ descendants soup ∧ tag_with name key val n = true.
Proof.
  unfold find_with. split.
  - intros [n Hn]. apply head_Some_elem_of in Hn.
    apply list_elem_of_In, filter_In in Hn as [Hin Ht].
    exists n. split; [by apply list_elem_of_In|done].
  - intros (n & Hin & Ht).
    assert (Hmem : n ∈ List.filter (tag_with name key val) (descendants soup)).
    { apply list_elem_of_In, filter_In. split; [by apply list_elem_of_In|done]. }
    destruct (List.filter _ _) as [|x l]; [by apply elem_of_nil in Hmem|].
    by eexists.
Qed.

Section Proofs.

Context {World Parts : Type}.
Variable tldextract_extract : string → World → outcome Parts * World.
Variable requests_get : string → World → outcome Scraper.response * World.
Variable BeautifulSoup : string → outcome node.

Local Abbreviation check_domain :=
  (check_domain tldextract_extract requests_get BeautifulSoup).
Local Abbreviation scan := (scan tldextract_extract requests_get BeautifulSoup).

(** What a run of [check_domain] that returns a result has seen. *)
Lemma check_domain_result domain (s s' : state World) r :
  check_domain domain s = (Ok (Some r), s') →
  ∃ parts w1 response w2 soup,
    tldextract_extract domain (world s) = (Ok parts, w1)
    ∧ requests_get ("http://" +:+ domain) w1 = (Ok response, w2)
    ∧ BeautifulSoup (Scraper.content response) = Ok soup
    ∧ r = {| domain := domain; keyword_flag := any_keyword domain;
             has_form := bool_decide (is_Some (find "form" soup));
             has_password_input :=
               bool_decide (is_Some (find_with "input" "type" "password" soup));
             is_suspicious :=
               any_keyword domain
               || bool_decide (is_Some (find_with "input" "type" "password" soup)) |}.
Proof.
  unfold Phishing.check_domain. unfold_P. simpl.
  destruct (tldextract_extract domain (world s)) as [[parts|e] w1] eqn:H1; [|done].
  simpl.
  destruct (requests_get ("http://" +:+ domain) w1) as [[response|e] w2] eqn:H2;
    [|done].
  simpl. destruct (BeautifulSoup (Scraper.content response)) as [soup|e] eqn:H3; [|done].
  simpl. intros [= <- _]. by exists parts, w1, response, w2, soup.
Qed.

(** X17: a domain that has one of the keywords anywhere in its name is
    reported as suspicious whenever the check comes to a result, whatever
    the page holds. *)
Theorem keyword_domain_is_suspicious domain keyword pre post
    (s s' : state World) r :
  keyword ∈ phishing_keywords →
  domain = pre +:+ keyword +:+ post →
  check_domain domain s = (Ok (Some r), s') →
  keyword_flag r = true ∧ is_suspicious r = true.
Proof.
  intros Hk Hd Hrun.
  destruct (check_domain_result _ _ _ _ Hrun) as (? & ? & ? & ? & soup & _ & _ & _ & ->).
  assert (Hany : any_keyword domain = true).
  { apply any_keyword_spec. by exists keyword, pre, post. }
  simpl. by rewrite Hany.
Qed.

(** X18: when the domain is resolved, the page fetched and parsed, the
    check returns a result, whatever the HTTP status of the response; it
    is suspicious exactly when the domain has a keyword in its name or
    the page an [input] tag whose [type] is "password"; that the page has
    a form is reported but does not count. *)
Theorem check_domain_verdict domain (s : state World) parts w1 response w2 soup :
  tldextract_extract domain (world s) = (Ok parts, w1) →
  requests_get ("http://" +:+ domain) w1 = (Ok response, w2) →
  BeautifulSoup (Scraper.content response) = Ok soup →
  ∃ r,
    check_domain domain s =
      (Ok (Some r),
       {| world := w2; printed := printed s ++ [MsgChecking domain; MsgResult r] |})
    ∧ Phishing.domain r = domain
    ∧ (is_suspicious r = true ↔
       (∃ keyword pre post,
          keyword ∈ phishing_keywords ∧ domain = pre +:+ keyword +:+ post)
       ∨ (∃ n, n ∈ descendants soup ∧ tag_with "input" "type" "password" n = true))
    ∧ (has_form r = true ↔ ∃ n, n ∈ descendants soup ∧ tag_named ["form"] n = true).
Proof.
  intros Hparts Hget Hsoup.
  exists {| domain := domain; keyword_flag := any_keyword domain;
            has_form := bool_decide (is_Some (find "form" soup));
            has_password_input :=
              bool_decide (is_Some (find_with "input" "type" "password" soup));
            is_suspicious :=
              any_keyword domain
              || bool_decide (is_Some (find_with "input" "type" "password" soup)) |}.
  split; [|split; [done|split]].
  - unfold Phishing.check_domain. unfold_P. simpl.
    rewrite Hparts. simpl. rewrite Hget. simpl. rewrite Hsoup. simpl.
    by rewrite <- app_assoc.
  - simpl. rewrite orb_true_iff, any_keyword_spec, bool_decide_eq_true.
    by rewrite find_with_spec.
  - simpl. rewrite bool_decide_eq_true. unfold find, find_all. split.
    + intros [n Hn]. apply head_Some_elem_of in Hn.
      apply list_elem_of_In, filter_In in Hn as [Hin Ht].
      exists n. split; [by apply list_elem_of_In|done].
    + intros (n & Hin & Ht).
      assert (Hmem : n ∈ List.filter (tag_named ["form"]) (descendants soup)).
      { apply list_elem_of_In, filter_In. split; [by apply list_elem_of_In|done]. }
      destruct (List.filter _ _) as [|x l]; [by apply elem_of_nil in Hmem|].
      by eexists.
Qed.

(** [check_domain] never raises; it prints the "Checking" line first and
    then either its result or the failure. *)
Lemma check_domain_total domain (s : state World) :
  ∃ r s' rest,
    check_domain domain s = (Ok r, s')
    ∧ printed s' = printed s ++ MsgChecking domain :: rest
    ∧ match r with
      | Some res => rest = [MsgResult res]
      | None => ∃ e, rest = [MsgFailed domain e]
      end.
Proof.
  unfold Phishing.check_domain. unfold_P. simpl.
  destruct (tldextract_extract domain (world s)) as [[parts|e] w1]; simpl.
  2:{ eexists None, _, _. split; [done|]. simpl. rewrite <- app_assoc.
      split; [done|]. by exists e. }
  destruct (requests_get ("http://" +:+ domain) w1) as [[response|e] w2]; simpl.
  2:{ eexists None, _, _. split; [done|]. simpl. rewrite <- app_assoc.
      split; [done|]. by exists e. }
  destruct (BeautifulSoup (Scraper.content response)) as [soup|e]; simpl.
  2:{ eexists None, _, _. split; [done|]. simpl. rewrite <- app_assoc.
      split; [done|]. by exists e. }
  eexists (Some _), _, _. split; [done|]. simpl. rewrite <- app_assoc.
  split; [done|]. done.
Qed.

(** X19: [check_domain] never raises: whatever fails in it, the
    resolution of the domain, the request or the parser, it prints
    "Failed to scan ..." and returns [None]. *)
Theorem check_domain_never_raises domain (s : state World) :
  ∃ r s',
    check_domain domain s = (Ok r, s')
    ∧ (r = None → ∃ e before, printed s' = before ++ [MsgFailed domain e])
    ∧ ((∃ e w, tldextract_extract domain (world s) = (Raised e, w)) → r = None)
    ∧ (∀ parts w1, tldextract_extract domain (world s) = (Ok parts, w1) →
         (∃ e w, requests_get ("http://" +:+ domain) w1 = (Raised e, w)) → r = None).
Proof.
  destruct (check_domain_total domain s) as (r & s' & rest & Hrun & Hout & Hr).
  exists r, s'. split; [done|]. split; [|split].
  - intros ->. destruct Hr as [e ->].
    exists e, (printed s ++ [MsgChecking domain]). by rewrite Hout, <- app_assoc.
  - intros (e & w & He). revert Hrun. unfold Phishing.check_domain. unfold_P.
    simpl. rewrite He. simpl. by intros [= <- _].
  - intros parts w1 Hp (e & w & He). revert Hrun.
    unfold Phishing.check_domain. unfold_P. simpl. rewrite Hp. simpl.
    rewrite He. simpl. by intros [= <- _].
Qed.

(** X20: the scan goes through the whole list: every domain is checked,
    in the order of the list and once, whatever happened to the domains
    before it, and there is one result or [None] for each. *)
Theorem scan_checks_every_domain domains :
  ∀ s : state World,
    ∃ rs s' out,
      scan domains s = (Ok rs, s')
      ∧ length rs = length domains
      ∧ printed s' = printed s ++ out
      ∧ checked out = domains.
Proof.
  induction domains as [|d rest IH]; intros s.
  - exists [], s, []. by rewrite app_nil_r.
  - destruct (check_domain_total d s) as (r & s1 & tail & Hrun & Hout & Hr).
    destruct (IH s1) as (rs & s' & out & Hrest & Hlen & Hout' & Hchecked).
    exists (r :: rs), s', (MsgChecking d :: tail ++ out).
    split; [|split; [|split]].
    + simpl. unfold mbind at 1. unfold Phishing.M_bind at 1. unfold Phishing.bind at 1.
      rewrite Hrun. unfold_P. by rewrite Hrest.
    + simpl. by rewrite Hlen.
    + rewrite Hout', Hout. by rewrite <- app_assoc.
    + unfold checked in *. simpl. rewrite omap_app, Hchecked.
      destruct r as [res|]; [by rewrite Hr|]. by destruct Hr as [e ->].
Qed.

End Proofs.

Lemma keyword_domain_is_suspicious_witness :
  ∃ r s',
    Phishing.check_domain MoreExamples.extract MoreExamples.not_found
      (Examples.parses_to MoreExamples.search_page) "accounts.google.com"
      MoreExamples.fresh = (Ok (Some r), s')
    ∧ keyword_flag r = true ∧ is_suspicious r = true ∧ has_password_input r = false.
Proof.
  eexists _, _. split; [reflexivity|].
  destruct (keyword_domain_is_suspicious MoreExamples.extract MoreExamples.not_found
              (Examples.parses_to MoreExamples.search_page)
              "accounts.google.com" "account" EmptyString "s.google.com"
              MoreExamples.fresh _ _ ltac:(ScraperFacts.in_list) eq_refl eq_refl)
    as [H1 H2].
  split; [exact H1|]. split; [exact H2|reflexivity].
Defined.

Lemma check_domain_verdict_witness :
  ∃ r,
    Phishing.check_domain MoreExamples.extract MoreExamples.not_found
      (Examples.parses_to MoreExamples.search_page) "example.org" MoreExamples.fresh
    = (Ok (Some r),
       {| world := 1%nat;
          printed := [] ++ [MsgChecking "example.org"; MsgResult r] |})
    ∧ has_form r = true ∧ is_suspicious r = false.
Proof.
  destruct (check_domain_verdict MoreExamples.extract MoreExamples.not_found
              (Examples.parses_to MoreExamples.search_page) "example.org"
              MoreExamples.fresh tt 0%nat
              {| Scraper.status_code := 404; Scraper.content := "<html>" |} 1%nat
              MoreExamples.search_page eq_refl eq_refl eq_refl)
    as (r & Hrun & _ & _ & _).
  exists r. split; [exact Hrun|].
  injection Hrun as <- _. split; reflexivity.
Defined.

End PhishingFacts.

(** ** More on the grocery shop *)

Module GroceryMoreFacts.
Import Grocery GroceryMore GroceryFacts.

Section Proofs.

Context {float : Type}.
Variable float_of_int : Z → float.
Variable float_add : float → float → float.
Variable float_mul_int : float → Z → float.
Variable py_float : pyval float → outcome float.
Variable py_int : pyval float → outcome Z.
Variable py_str : pyval float → string.
Variable json_load : string → outcome (pyval float).
Variable json_dump : gmap string (pyval float) → pyval float → string.

Local Abbreviation Product := (@Product float).
Local Abbreviation GroceryShop := (@GroceryShop float).
Local Abbreviation sale_loop :=
  (sale_loop float_of_int float_add float_mul_int py_str).
Local Abbreviation process_sale :=
  (process_sale float_of_int float_add float_mul_int py_str json_dump).
Local Abbreviation from_dict := (from_dict py_float py_int).
Local Abbreviation load_products := (load_products py_float py_int).
Local Abbreviation GroceryShop_init := (GroceryShop_init py_float py_int json_load).
Local Abbreviation save_data := (save_data json_dump).
Local Abbreviation update_stock := (update_stock json_dump).

(** *** Product *)

(** X21: [Product.from_dict(p.to_dict())] is [p] again, [float] and
    [int] leaving a float and an int as they are. *)
Theorem from_dict_to_dict (p : Product) :
  (∀ f, py_float (PFloat f) = Ok f) →
  (∀ z, py_int (PInt z) = Ok z) →
  from_dict (to_dict p) = Ok p.
Proof.
  intros Hf Hi. unfold Grocery.from_dict, to_dict, subscript, and_then. simpl.
  rewrite Hf, Hi. by destruct p.
Qed.

(** *** update_stock *)

(** X22: [update_stock] on an id the shop does not have returns [False]
    and touches neither the shop nor the file; on a known id it returns
    [True], sets the stock to the number given, whatever its sign, leaves
    the rest of the product and every other product alone, and saves. *)
Theorem update_stock_spec (self : GroceryShop) product_id new_stock disk :
  (products self !! product_id = None →
   update_stock self product_id new_stock disk = (false, self, disk))
  ∧ (∀ p, products self !! product_id = Some p →
       ∃ self',
         update_stock self product_id new_stock disk = (true, self', save_data self')
         ∧ products self' !! product_id = Some (set_stock new_stock p)
         ∧ stock (set_stock new_stock p) = new_stock
         ∧ (∀ other, other ≠ product_id →
              products self' !! other = products self !! other)
         ∧ sales_history self' = sales_history self).
Proof.
  unfold GroceryMore.update_stock. split.
  - by intros ->.
  - intros p ->. eexists. split; [done|]. simpl.
    rewrite lookup_insert_eq. split; [done|]. split; [done|]. split; [|done].
    intros other Hne. by rewrite lookup_insert_ne.
Qed.

(** *** process_sale *)

Lemma sale_loop_ok_prefix pre rest :
  ∀ (products products' : gmap string Product) total sale_items r,
    sale_loop (pre ++ rest) products total sale_items = (Ok r, products') →
    ∃ r1 products1, sale_loop pre products total sale_items = (Ok r1, products1).
Proof.
  intros products products' total sale_items r. rewrite sale_loop_app.
  destruct (sale_loop pre products total sale_items) as [[[t si]|e] products1];
    [eauto|done].
Qed.

(** The loop goes through exactly when the items pass against the stock
    at the start and every quantity can be converted to a float. *)
Lemma sale_loop_passes items (products : gmap string Product) total sale_items :
  (∃ r products', sale_loop items products total sale_items = (Ok r, products'))
  ↔ passes items products ∧ convertible items.
Proof.
  split.
  - intros (r & products' & Hrun).
    assert (Hline : ∀ pre pid quantity post,
              items = pre ++ (pid, quantity) :: post →
              (∃ p, products !! pid = Some p ∧ sold pid pre + quantity ≤ stock p)
              ∧ fits_float quantity = true).
    { intros pre pid quantity post ->.
      destruct (sale_loop_ok_prefix _ _ _ _ _ _ _ Hrun) as ([t si] & products1 & Hpre).
      pose proof (sale_loop_stock _ _ _ _ _ _ _ _ _ _ Hpre pid) as Hstock.
      rewrite sale_loop_app, Hpre in Hrun. simpl in Hrun.
      destruct (products1 !! pid) as [p1|] eqn:Hp1; [|done].
      destruct (quantity <=? stock p1) eqn:Hq; [|done].
      unfold price_times in Hrun.
      destruct (fits_float quantity) eqn:Hfit; [|done].
      split; [|done].
      destruct (products !! pid) as [p|]; [|done].
      injection Hstock as ->. exists p. split; [done|]. simpl in Hq. lia. }
    split.
    + intros pre pid quantity post E. by destruct (Hline pre pid quantity post E).
    + apply Forall_forall. intros [pid quantity] Hin.
      apply list_elem_of_split in Hin as (pre & post & E).
      by destruct (Hline pre pid quantity post E).
  - intros [Hpass Hfit].
    destruct (sale_loop items products total sale_items) as [[r|e] products'] eqn:Hrun;
      [eauto|].
    exfalso.
    destruct (sale_loop_raised _ _ _ _ _ _ _ _ _ _ Hrun)
      as (pre & pid & quantity & post & r & products1 & -> & Hpre & Hbad).
    pose proof (sale_loop_stock _ _ _ _ _ _ _ _ _ _ Hpre pid) as Hstock.
    destruct (Hpass pre pid quantity post eq_refl) as (p & Hp & Hle).
    rewrite Hp in Hstock. simpl in Hstock.
    destruct Hbad as [(_ & _ & [Hnone|(p1 & Hp1 & Hlt)])|(p1 & _ & _ & Hno & _)].
    + congruence.
    + rewrite Hp1 in Hstock. injection Hstock as ->. simpl in Hlt. lia.
    + unfold convertible in Hfit. rewrite Forall_app, Forall_cons in Hfit.
      destruct Hfit as (_ & Hq & _). simpl in Hq. congruence.
Qed.

(** X23: [process_sale] returns a sale record exactly when every line
    names a known product, what the lines up to and including it ask of
    that product is not more than its stock at the start, every quantity
    can be converted to a float, and the sales history is a list. *)
Theorem process_sale_succeeds_iff (self : GroceryShop) items now disk :
  (∃ record self' disk',
     process_sale self items now disk = (Ok record, self', disk'))
  ↔ passes items (products self) ∧ convertible items
    ∧ ∃ h, sales_history self = PList h.
Proof.
  unfold Grocery.process_sale. split.
  - intros (record & self' & disk' & Hrun).
    destruct (sale_loop items (products self) (NInt 0) [])
      as [[[total sale_items]|e] products'] eqn:Hloop; [|done].
    assert (Hboth : passes items (products self) ∧ convertible items).
    { apply (sale_loop_passes items (products self) (NInt 0) []); eauto. }
    destruct Hboth as [Hpass Hfit]. split; [done|]. split; [done|].
    destruct (sales_history self) as [| | | | |h|]; try done. by exists h.
  - intros (Hpass & Hfit & h & Hh).
    destruct (proj2 (sale_loop_passes items (products self) (NInt 0) [])
                (conj Hpass Hfit))
      as ([total sale_items] & products' & ->).
    rewrite Hh. simpl. eauto.
Qed.

Lemma sale_loop_lines items :
  ∀ (products products' : gmap string Product) total sale_items total' sale_items',
    sale_loop items products total sale_items = (Ok (total', sale_items'), products') →
    length sale_items' = (length sale_items + length items)%nat.
Proof.
  induction items as [|[product_id quantity] items IH];
    intros products products' total sale_items total' sale_items' Hrun; simpl in *.
  - injection Hrun as _ <- _. lia.
  - destruct (products !! product_id) as [product|]; [|done].
    destruct (quantity <=? stock product); [|done].
    destruct (price_times _ _ _) as [item_total|e]; [|done].
    apply IH in Hrun. rewrite length_app in Hrun. simpl in Hrun. lia.
Qed.

(** X24: a sale that went through has put one record at the end of the
    sales history, with the time given and one line for each item; every
    product is short of what the items ask of it, all lines together; and
    the data file holds the shop as it now is. *)
Theorem process_sale_effects (self self' : GroceryShop) items now disk disk' record :
  process_sale self items now disk = (Ok record, self', disk') →
  ∃ h lines total,
    sales_history self = PList h
    ∧ sales_history self' = PList (h ++ [record])
    ∧ record = PDict [("timestamp", PStr now); ("items", PList lines); ("total", total)]
    ∧ length lines = length items
    ∧ (∀ product_id,
         products self' !! product_id =
         take (sold product_id items) <$> products self !! product_id)
    ∧ disk' = save_data self'.
Proof.
  unfold Grocery.process_sale.
  destruct (sale_loop items (products self) (NInt 0) [])
    as [[[total lines]|e] products'] eqn:Hloop; [|done].
  destruct (sales_history self) as [| | | | |h|] eqn:Hh; try done.
  simpl. intros [= <- <- <-].
  exists h, lines, (number_val total). split; [done|]. split; [done|].
  split; [done|]. split; [by apply sale_loop_lines in Hloop|].
  split; [|done]. simpl. by eapply sale_loop_stock.
Qed.

Lemma sale_loop_changes items :
  ∀ (products : gmap string Product) total sale_items pid,
    ∃ quantity,
      (sale_loop items products total sale_items).2 !! pid
      = take quantity <$> products !! pid.
Proof.
  induction items as [|[product_id quantity] items IH];
    intros products total sale_items pid; simpl.
  - exists 0. destruct (products !! pid); [|done]. simpl. by rewrite take_0.
  - assert (Hsame : ∃ q, products !! pid = take q <$> products !! pid).
    { exists 0. destruct (products !! pid); [|done]. simpl. by rewrite take_0. }
    destruct (products !! product_id) as [product|] eqn:Hp; [|done].
    destruct (quantity <=? stock product); [|done].
    assert (Hafter : ∀ q,
              (<[product_id := take quantity product]> products) !! pid
              = take q <$> products !! pid
              ∨ (product_id = pid ∧ ∀ q0,
                   take q0 <$> (<[product_id := take quantity product]> products) !! pid
                   = take (quantity + q0) <$> products !! pid)
              ∨ (product_id ≠ pid ∧ ∀ q0,
                   take q0 <$> (<[product_id := take quantity product]> products) !! pid
                   = take q0 <$> products !! pid)).
    { intros q. destruct (decide (product_id = pid)) as [->|Hne].
      - right. left. split; [done|]. intros q0.
        rewrite lookup_insert_eq, Hp. simpl. by rewrite take_take.
      - right. right. split; [done|]. intros q0. by rewrite lookup_insert_ne. }
    destruct (price_times _ _ _) as [item_total|e]; simpl.
    + destruct (IH (<[product_id := take quantity product]> products)
                  (add_float float_of_int float_add total item_total)
                  (sale_items ++ [PDict [("name", name product);
                                         ("quantity", PInt quantity);
                                         ("price", PFloat (price product));
                                         ("total", PFloat item_total)]]) pid)
        as [q Hq].
      rewrite Hq.
      destruct (Hafter 0) as [H|[[_ H]|[_ H]]]; [| |].
      * destruct (decide (product_id = pid)) as [->|Hne].
        -- rewrite lookup_insert_eq, Hp. simpl. exists (quantity + q).
           by rewrite take_take.
        -- rewrite lookup_insert_ne by done. by exists q.
      * exists (quantity + q). apply H.
      * exists q. apply H.
    + destruct (decide (product_id = pid)) as [->|Hne].
      * rewrite lookup_insert_eq, Hp. simpl. by exists quantity.
      * rewrite lookup_insert_ne by done. done.
Qed.

Lemma process_sale_products (self : GroceryShop) items now disk :
  products (process_sale self items now disk).1.2
  = (sale_loop items (products self) (NInt 0) []).2.
Proof.
  unfold Grocery.process_sale.
  destruct (sale_loop items (products self) (NInt 0) []) as [[[t si]|e] products'];
    [|done].
  by destruct (append (sales_history self) _).
Qed.

(** X25: whether it returns or raises, [process_sale] adds no product
    and removes none, and changes nothing of a product but its stock. *)
Theorem process_sale_keeps_products (self : GroceryShop) items now disk product_id :
  ∃ quantity,
    products (process_sale self items now disk).1.2 !! product_id
    = take quantity <$> products self !! product_id.
Proof.
  rewrite process_sale_products. apply sale_loop_changes.
Qed.

Lemma sale_loop_nonneg items :
  ∀ (products : gmap string Product) total sale_items,
    (∀ pid p, products !! pid = Some p → 0 ≤ stock p) →
    ∀ pid p, (sale_loop items products total sale_items).2 !! pid = Some p →
             0 ≤ stock p.
Proof.
  induction items as [|[product_id quantity] items IH];
    intros products total sale_items Hinv pid p; simpl; [apply Hinv|].
  destruct (products !! product_id) as [product|] eqn:Hp; [|apply Hinv].
  destruct (quantity <=? stock product) eqn:Hq; [|apply Hinv].
  assert (Hinv' : ∀ pid' p',
            (<[product_id := take quantity product]> products) !! pid' = Some p' →
            0 ≤ stock p').
  { intros pid' p'. destruct (decide (product_id = pid')) as [->|Hne].
    - rewrite lookup_insert_eq. intros [= <-]. simpl.
      pose proof (Hinv _ _ Hp). lia.
    - rewrite lookup_insert_ne by done. apply Hinv. }
  destruct (price_times _ _ _) as [item_total|e]; [by apply IH|apply Hinv'].
Qed.

(** X26: [process_sale] never takes a stock below zero: when no product
    of the shop has a negative stock before the call, none has after it,
    whether the call returned or raised. *)
Theorem process_sale_stock_not_negative (self : GroceryShop) items now disk :
  (∀ pid p, products self !! pid = Some p → 0 ≤ stock p) →
  ∀ pid p,
    products (process_sale self items now disk).1.2 !! pid = Some p →
    0 ≤ stock p.
Proof.
  intros Hinv. rewrite process_sale_products. by apply sale_loop_nonneg.
Qed.

(** X27: a quantity below zero is not refused: on a product whose stock
    is not negative the line passes the stock test and the stock grows by
    that amount.  When the quantity can be converted to a float the sale
    is recorded; when it cannot, the call raises [OverflowError] with the
    stock already changed, and nothing is recorded or saved. *)
Theorem process_sale_negative_quantity (self : GroceryShop) pid quantity p h
    now disk :
  products self !! pid = Some p →
  sales_history self = PList h →
  quantity < 0 → 0 ≤ stock p →
  ∃ r self' disk' p',
    process_sale self [(pid, quantity)] now disk = (r, self', disk')
    ∧ products self' !! pid = Some p'
    ∧ stock p' = stock p - quantity
    ∧ stock p < stock p'
    ∧ (fits_float quantity = true →
       ∃ record, r = Ok record ∧ sales_history self' = PList (h ++ [record])
                 ∧ disk' = save_data self')
    ∧ (fits_float quantity = false →
       r = Raised (OverflowError "int too large to convert to float")
       ∧ sales_history self' = PList h ∧ disk' = disk).
Proof.
  intros Hp Hh Hq Hs. unfold Grocery.process_sale. simpl. rewrite Hp.
  replace (quantity <=? stock p) with true by lia. unfold price_times.
  destruct (fits_float quantity) eqn:Hfit; rewrite ?Hh; simpl.
  - eexists _, _, _, _. split; [done|]. simpl. rewrite lookup_insert_eq.
    split; [done|]. simpl. split; [lia|]. split; [lia|]. split; [|done].
    intros _. by eexists.
  - eexists _, _, _, _. split; [done|]. simpl. rewrite lookup_insert_eq.
    split; [done|]. simpl. split; [lia|]. split; [lia|]. split; [done|].
    intros _. done.
Qed.

(** X28: when the sales history is not a list (the data file may hold
    any value under [sales_history]), a sale whose items all pass and
    have quantities that can be converted to floats raises
    [AttributeError] at [append], after the stock has been taken: the
    products are short of what the items ask, no sale is recorded and
    nothing is saved. *)
Theorem process_sale_history_not_a_list (self : GroceryShop) items now disk :
  passes items (products self) →
  convertible items →
  (∀ h, sales_history self ≠ PList h) →
  ∃ msg self',
    process_sale self items now disk = (Raised (AttributeError msg), self', disk)
    ∧ sales_history self' = sales_history self
    ∧ ∀ product_id,
        products self' !! product_id =
        take (sold product_id items) <$> products self !! product_id.
Proof.
  intros Hpass Hfit Hh.
  destruct (proj2 (sale_loop_passes items (products self) (NInt 0) [])
              (conj Hpass Hfit))
    as ([total lines] & products' & Hloop).
  unfold Grocery.process_sale. rewrite Hloop.
  destruct (sales_history self) as [| | | | |h|] eqn:Hhist;
    try (eexists _, _; split; [done|]; split; [done|];
         simpl; by eapply sale_loop_stock).
  by destruct (Hh h).
Qed.

(** X29: a failed sale can be repeated, and takes stock again: when the
    line at position k names an unknown product and the items before it
    pass twice over, with quantities that can be converted to floats, two
    calls both raise [ValueError] and leave every product short of twice
    what the items before k ask. *)
Theorem process_sale_failure_repeats (self : GroceryShop) pre pid quantity post
    now disk :
  passes (pre ++ pre) (products self) →
  convertible pre →
  products self !! pid = None →
  ∃ msg self1 self2,
    process_sale self (pre ++ (pid, quantity) :: post) now disk
    = (Raised (ValueError msg), self1, disk)
    ∧ process_sale self1 (pre ++ (pid, quantity) :: post) now disk
      = (Raised (ValueError msg), self2, disk)
    ∧ ∀ product_id,
        products self2 !! product_id =
        take (2 * sold product_id pre) <$> products self !! product_id.
Proof.
  intros Hpass Hfit Hnone.
  assert (Hfit2 : convertible (pre ++ pre)) by (by apply Forall_app).
  destruct (proj2 (sale_loop_passes (pre ++ pre) (products self) (NInt 0) [])
              (conj Hpass Hfit2))
    as (r & products2 & Hboth).
  destruct (sale_loop_ok_prefix _ _ _ _ _ _ _ Hboth) as ([t1 si1] & products1 & H1).
  pose proof (sale_loop_stock _ _ _ _ _ _ _ _ _ _ H1) as Hs1.
  assert (Hagain : ∃ r2 products2', sale_loop pre products1 (NInt 0) []
                                    = (Ok r2, products2')).
  { apply sale_loop_passes.
    assert (Hp : passes pre products1 ∧ convertible pre).
    { apply (sale_loop_passes pre products1 t1 si1).
      rewrite sale_loop_app, H1 in Hboth. eauto. }
    exact Hp. }
  destruct Hagain as ([t2 si2] & products2' & H2).
  pose proof (sale_loop_stock _ _ _ _ _ _ _ _ _ _ H2) as Hs2.
  assert (Hn1 : products1 !! pid = None) by (by rewrite Hs1, Hnone).
  assert (Hn2 : products2' !! pid = None) by (by rewrite Hs2, Hn1).
  eexists _, _, _. split; [|split].
  - unfold Grocery.process_sale. rewrite sale_loop_app, H1. simpl.
    rewrite Hn1. done.
  - unfold Grocery.process_sale. simpl. rewrite sale_loop_app, H2. simpl.
    rewrite Hn2. done.
  - intros product_id. simpl. rewrite Hs2, Hs1.
    destruct (products self !! product_id) as [p|]; [|done]. simpl.
    rewrite take_take. do 2 f_equal. lia.
Qed.

(** *** save_data and load_data *)

Lemma load_products_dumped (ps : list (string * Product)) :
  (∀ f, py_float (PFloat f) = Ok f) →
  (∀ z, py_int (PInt z) = Ok z) →
  ∀ acc : gmap string Product,
    load_products (dumped_products ps) acc
    = Ok (foldl (λ m kp, <[kp.1 := kp.2]> m) acc ps).
Proof.
  intros Hf Hi. induction ps as [|[k p] ps IH]; intros acc; simpl; [done|].
  assert (Hp : from_dict (to_dict p) = Ok p).
  { unfold Grocery.from_dict, to_dict, subscript, and_then. simpl.
    rewrite Hf, Hi. by destruct p. }
  rewrite Hp. simpl. apply IH.
Qed.

Lemma foldl_insert_lookup (ps : list (string * Product)) :
  NoDup ps.*1 →
  ∀ (acc : gmap string Product) (k : string),
    foldl (λ m kp, <[kp.1 := kp.2]> m) acc ps !! k
    = match list_to_map (M := gmap string Product) ps !! k with
      | Some p => Some p
      | None => acc !! k
      end.
Proof.
  induction ps as [|[k0 p0] ps IH]; intros Hnd acc k; simpl.
  - by rewrite lookup_empty.
  - rewrite fmap_cons in Hnd. simpl in Hnd. apply NoDup_cons in Hnd as [Hk0 Hnd].
    rewrite (IH Hnd). destruct (decide (k0 = k)) as [->|Hne].
    + rewrite lookup_insert_eq.
      rewrite (not_elem_of_list_to_map_1 (M := gmap string) ps k Hk0).
      by rewrite lookup_insert_eq.
    + by rewrite !lookup_insert_ne.
Qed.

(** X30: what [save_data] writes, [GroceryShop()] reads back: when
    [json.load] gives back what was dumped, the products in some order and
    the sales history, and [float] and [int] leave a float and an int as
    they are, the shop built from the saved file is the shop that was
    saved. *)
Theorem save_then_load (self : GroceryShop) (ps : list (string * Product)) :
  (∀ f, py_float (PFloat f) = Ok f) →
  (∀ z, py_int (PInt z) = Ok z) →
  NoDup ps.*1 →
  list_to_map ps = products self →
  json_load (json_dump (to_dict <$> products self) (sales_history self))
  = Ok (PDict [("products", PDict (dumped_products ps));
               ("sales_history", sales_history self)]) →
  GroceryShop_init (save_data self) = Ok self.
Proof.
  intros Hf Hi Hnd Hps Hjson.
  unfold Grocery.GroceryShop_init, Grocery.load_data, Grocery.save_data,
    Grocery.load_try, read_json, and_then.
  rewrite Hjson. simpl. rewrite (load_products_dumped ps Hf Hi). simpl.
  f_equal. destruct self as [products history]. simpl in *. f_equal.
  apply map_eq. intros k. rewrite (foldl_insert_lookup ps Hnd), Hps, lookup_empty.
  by destruct (products !! k).
Qed.

End Proofs.

Lemma from_dict_to_dict_witness :
  Grocery.from_dict MoreExamples.to_float MoreExamples.to_int (to_dict Examples.apple)
  = Ok Examples.apple.
Proof.
  apply (from_dict_to_dict MoreExamples.to_float MoreExamples.to_int Examples.apple);
    reflexivity.
Defined.

Lemma update_stock_spec_witness :
  GroceryMore.update_stock Examples.dump Examples.shop "pear" 5 Missing
  = (false, Examples.shop, Missing)
  ∧ ∃ self',
      GroceryMore.update_stock Examples.dump Examples.shop "apple" (-4) Missing
      = (true, self', Grocery.save_data Examples.dump self')
      ∧ products self' !! "apple" = Some (set_stock (-4) Examples.apple)
      ∧ products self' !! "bread" = Some Examples.bread.
Proof.
  destruct (update_stock_spec Examples.dump Examples.shop "pear" 5 Missing)
    as [Hnone _].
  destruct (update_stock_spec Examples.dump Examples.shop "apple" (-4) Missing)
    as [_ Hsome].
  split; [apply Hnone; reflexivity|].
  destruct (Hsome Examples.apple eq_refl) as (self' & Hrun & Hp & _ & Hother & _).
  exists self'. split; [exact Hrun|]. split; [exact Hp|].
  rewrite Hother by done. reflexivity.
Defined.

Lemma process_sale_effects_witness :
  ∃ record self' disk' lines total,
    Grocery.process_sale (λ z, z) Z.add Z.mul Examples.show Examples.dump
      Examples.shop [("apple", 2); ("bread", 1)] "2024-05-01T12:00:00" Missing
    = (Ok record, self', disk')
    ∧ sales_history self' = PList ([] ++ [record])
    ∧ record = PDict [("timestamp", PStr "2024-05-01T12:00:00");
                      ("items", PList lines); ("total", total)]
    ∧ length lines = 2%nat
    ∧ products self' !! "apple" = Some (take 2 Examples.apple)
    ∧ disk' = Grocery.save_data Examples.dump self'.
Proof.
  edestruct (process_sale_effects (λ z, z) Z.add Z.mul Examples.show Examples.dump
               Examples.shop _ [("apple", 2); ("bread", 1)] "2024-05-01T12:00:00"
               Missing _ _ eq_refl)
    as (h & lines & total & Hh & Hh' & Hrec & Hlen & Hstock & Hdisk).
  injection Hh as <-.
  eexists _, _, _, lines, total. split; [reflexivity|].
  split; [exact Hh'|]. split; [exact Hrec|]. split; [exact Hlen|].
  split; [|exact Hdisk]. rewrite Hstock. reflexivity.
Defined.

Lemma process_sale_stock_not_negative_witness :
  ∃ p,
    products (Grocery.process_sale (λ z, z) Z.add Z.mul Examples.show Examples.dump
                Examples.shop [("apple", 2); ("bread", 7)] "2024-05-01T12:00:00"
                Missing).1.2 !! "apple" = Some p
    ∧ 0 ≤ stock p.
Proof.
  eexists. split; [reflexivity|].
  apply (process_sale_stock_not_negative (λ z, z) Z.add Z.mul Examples.show
           Examples.dump Examples.shop [("apple", 2); ("bread", 7)]
           "2024-05-01T12:00:00" Missing) with (pid := "apple"); [|reflexivity].
  intros pid p. unfold Examples.shop. simpl.
  destruct (decide (pid = "apple")) as [->|Ha].
  - rewrite lookup_insert_eq. intros [= <-]. simpl. lia.
  - rewrite lookup_insert_ne by done.
    destruct (decide (pid = "bread")) as [->|Hb].
    + rewrite lookup_insert_eq. intros [= <-]. simpl. lia.
    + rewrite lookup_insert_ne by done. by rewrite lookup_empty.
Defined.

Lemma process_sale_negative_quantity_witness :
  (∃ record self' disk' p',
     Grocery.process_sale (λ z, z) Z.add Z.mul Examples.show Examples.dump
       Examples.shop [("apple", -3)] "2024-05-01T12:00:00" Missing
     = (Ok record, self', disk')
     ∧ products self' !! "apple" = Some p'
     ∧ stock p' = 8)
  ∧ (∃ self' p',
       Grocery.process_sale (λ z, z) Z.add Z.mul Examples.show Examples.dump
         Examples.shop [("apple", - 10 ^ 400)] "2024-05-01T12:00:00" Missing
       = (Raised (OverflowError "int too large to convert to float"), self', Missing)
       ∧ products self' !! "apple" = Some p'
       ∧ stock p' = 5 + 10 ^ 400).
Proof.
  split.
  - destruct (process_sale_negative_quantity (λ z, z) Z.add Z.mul Examples.show
                Examples.dump Examples.shop "apple" (-3) Examples.apple []
                "2024-05-01T12:00:00" Missing)
      as (r & self' & disk' & p' & Hrun & Hp & Hstock & _ & Hok & _);
      [reflexivity|reflexivity|lia|simpl; lia|].
    destruct (Hok eq_refl) as (record & -> & _).
    exists record, self', disk', p'. split; [exact Hrun|]. split; [exact Hp|].
    rewrite Hstock. reflexivity.
  - destruct (process_sale_negative_quantity (λ z, z) Z.add Z.mul Examples.show
                Examples.dump Examples.shop "apple" (- 10 ^ 400) Examples.apple []
                "2024-05-01T12:00:00" Missing)
      as (r & self' & disk' & p' & Hrun & Hp & Hstock & _ & _ & Hno);
      [reflexivity|reflexivity|lia|simpl; lia|].
    destruct Hno as (-> & _ & ->); [by vm_compute|].
    exists self', p'. split; [exact Hrun|]. split; [exact Hp|].
    rewrite Hstock. by vm_compute.
Defined.

Lemma process_sale_history_not_a_list_witness :
  ∃ msg self',
    Grocery.process_sale (λ z, z) Z.add Z.mul Examples.show Examples.dump
      MoreExamples.odd_shop [("apple", 2)] "2024-05-01T12:00:00" (Holds "{}")
    = (Raised (AttributeError msg), self', Holds "{}")
    ∧ sales_history self' = PNone
    ∧ products self' !! "apple" = Some (take 2 Examples.apple).
Proof.
  edestruct (process_sale_history_not_a_list (λ z, z) Z.add Z.mul Examples.show
               Examples.dump MoreExamples.odd_shop [("apple", 2)]
               "2024-05-01T12:00:00" (Holds "{}"))
    as (msg & self' & Hrun & Hh & Hstock).
  - intros pre pid quantity post H.
    destruct pre as [|x [|y pre]]; [|by destruct post|done].
    injection H as <- <- <-. exists Examples.apple. split; [reflexivity|simpl; lia].
  - by repeat constructor.
  - intros h. discriminate.
  - exists msg, self'. split; [exact Hrun|]. split; [exact Hh|].
    rewrite Hstock. reflexivity.
Defined.

Lemma process_sale_failure_repeats_witness :
  ∃ msg self1 self2,
    Grocery.process_sale (λ z, z) Z.add Z.mul Examples.show Examples.dump
      Examples.shop ([("apple", 2)] ++ ("pear", 1) :: []) "2024-05-01T12:00:00" Missing
    = (Raised (ValueError msg), self1, Missing)
    ∧ Grocery.process_sale (λ z, z) Z.add Z.mul Examples.show Examples.dump
        self1 ([("apple", 2)] ++ ("pear", 1) :: []) "2024-05-01T12:00:00" Missing
      = (Raised (ValueError msg), self2, Missing)
    ∧ products self2 !! "apple" = Some (take 4 Examples.apple).
Proof.
  edestruct (process_sale_failure_repeats (λ z, z) Z.add Z.mul Examples.show
               Examples.dump Examples.shop [("apple", 2)] "pear" 1 []
               "2024-05-01T12:00:00" Missing)
    as (msg & self1 & self2 & H1 & H2 & Hstock).
  - apply (sale_loop_passes (λ z, z) Z.add Z.mul Examples.show
             ([("apple", 2)] ++ [("apple", 2)]) (products Examples.shop) (NInt 0) []).
    eexists _, _. reflexivity.
  - by repeat constructor.
  - reflexivity.
  - exists msg, self1, self2. split; [exact H1|]. split; [exact H2|].
    rewrite Hstock. reflexivity.
Defined.

Lemma save_then_load_witness :
  Grocery.GroceryShop_init MoreExamples.to_float MoreExamples.to_int
    MoreExamples.load_shop (Grocery.save_data Examples.dump Examples.shop)
  = Ok Examples.shop.
Proof.
  apply (save_then_load MoreExamples.to_float MoreExamples.to_int
           MoreExamples.load_shop Examples.dump Examples.shop
           [("apple", Examples.apple); ("bread", Examples.bread)]);
    try reflexivity.
  apply (bool_decide_unpack _). vm_compute. exact I.
Defined.

End GroceryMoreFacts.
